(** * Patch_experts: the response orchestrator of the landmark detector

    A shallow embedding of [lib/local/LandmarkDetector/src/Patch_experts.cpp]
    and the properties of its view selection, visibility collection,
    response dispatch, model loading and copy construction.

    Conventions of the embedding
    - a C++ [int] is a [Z]; arithmetic on it is checked, a result outside
      the 32-bit range is a [Fault] (signed overflow is undefined);
    - [std::vector] is a [list]; [operator[]] outside the vector is a
      [Fault] (undefined behaviour), never a default value;
    - [float] and [double] are IEEE-754 binary32 and binary64 values,
      [spec_float] with precision 24 and 53, rounded to nearest even,
      every operation rounded to its own type;
    - the collaborators whose code lives in other translation units
      (shape model, image resampler, the three patch expert classes, the
      stream readers) are the fields of the class [Externals]. *)

From Stdlib Require Import ZArith QArith List Bool Lia Sorted SpecFloat.
From stdpp Require Import base option list gmap strings.

Open Scope Z_scope.

(* ================================================================= *)
(** ** Faults and the error monad *)

Inductive fault :=
| OutOfRange       (* operator[] or at<>() outside the container *)
| SignedOverflow   (* int arithmetic leaving the 32-bit range *)
| LengthError      (* resize() with a negative count *)
| Uninitialised.   (* read of a local that was never assigned *)

Inductive res (A : Type) :=
| Ok (a : A)
| Fault (f : fault).

Arguments Ok {A} a.
Arguments Fault {A} f.

#[global] Instance res_ret : MRet res := fun A a => Ok a.

#[global] Instance res_bind : MBind res := fun A B k m =>
  match m with
  | Ok a => k a
  | Fault f => Fault f
  end.

(** A loop over the elements of a list, threading the loop state. *)
Fixpoint forM {A S : Type} (l : list A) (body : A -> S -> res S) (s : S) : res S :=
  match l with
  | [] => Ok s
  | x :: l' => s' ← body x s; forM l' body s'
  end.

(** [for (int i = lo; i < hi; i++)] *)
Definition for_range {S : Type} (lo hi : Z) (body : Z -> S -> res S) (s : S) : res S :=
  forM (seqZ lo (hi - lo)) body s.

(* ================================================================= *)
(** ** Machine integers and containers *)

Definition INT_MIN : Z := - 2 ^ 31.
Definition INT_MAX : Z := 2 ^ 31 - 1.

Definition int_range (z : Z) : bool := (INT_MIN <=? z) && (z <=? INT_MAX).

(** The result of an [int] operation whose mathematical value is [z]. *)
Definition int_of (z : Z) : res Z :=
  if int_range z then Ok z else Fault SignedOverflow.

(** [v[i]] on a [std::vector] *)
Definition vec_at {A : Type} (v : list A) (i : Z) : res A :=
  if i <? 0 then Fault OutOfRange
  else match v !! Z.to_nat i with
       | Some x => Ok x
       | None => Fault OutOfRange
       end.

(** [v[i] = x] on a [std::vector] *)
Definition vec_set {A : Type} (v : list A) (i : Z) (x : A) : res (list A) :=
  if i <? 0 then Fault OutOfRange
  else if (Z.to_nat i <? length v)%nat then Ok (<[Z.to_nat i := x]> v)
  else Fault OutOfRange.

Definition vec_empty {A : Type} (v : list A) : bool :=
  match v with [] => true | _ => false end.

(** [v.resize(n)]: new slots are value-initialised with [dflt]. *)
Definition vec_resize {A : Type} (dflt : A) (v : list A) (n : Z) : res (list A) :=
  if n <? 0 then Fault LengthError
  else Ok (take (Z.to_nat n) v ++ replicate (Z.to_nat n - length v) dflt).

(** [cv::Mat_<int>]: a continuous row-major matrix. *)
Record Mat_int := {
  Mat_rows : Z;
  Mat_cols : Z;
  Mat_data : list Z
}.

Definition Mat_int_empty : Mat_int :=
  {| Mat_rows := 0; Mat_cols := 0; Mat_data := [] |}.

(** [m.at<int>(i, j)] *)
Definition Mat_at (m : Mat_int) (i j : Z) : res Z :=
  if (0 <=? i) && (i <? Mat_rows m) && (0 <=? j) && (j <? Mat_cols m)
  then vec_at (Mat_data m) (i * Mat_cols m + j)
  else Fault OutOfRange.

(** [m.at<int>(i)], the single-index form on a vector-shaped matrix. *)
Definition Mat_at1 (m : Mat_int) (i : Z) : res Z :=
  if (0 <=? i) && (i <? Mat_rows m * Mat_cols m)
  then vec_at (Mat_data m) i
  else Fault OutOfRange.

(** A column vector, as the loaders produce for a visibility. *)
Definition column (l : list Z) : Mat_int :=
  {| Mat_rows := Z.of_nat (length l); Mat_cols := 1; Mat_data := l |}.

(* ================================================================= *)
(** ** Floating point *)

Definition float : Type := spec_float.
Definition double : Type := spec_float.

Definition to_double (x : float) : double :=
  match x with
  | S754_finite s m e => binary_round 53 1024 s m e
  | _ => x
  end.

Definition to_float (x : double) : float :=
  match x with
  | S754_finite s m e => binary_round 24 128 s m e
  | _ => x
  end.

Definition fadd : float -> float -> float := SFadd 24 128.
Definition fmul : float -> float -> float := SFmul 24 128.
Definition dsub : double -> double -> double := SFsub 53 1024.
Definition fzero : float := S754_zero false.

Definition is_nan (x : spec_float) : bool :=
  match x with S754_nan => true | _ => false end.

Record Vec3d := { v3_0 : double; v3_1 : double; v3_2 : double }.

Record Vec6f := {
  v6_0 : float; v6_1 : float; v6_2 : float;
  v6_3 : float; v6_4 : float; v6_5 : float
}.

Record Matx22f := { m00 : float; m01 : float; m10 : float; m11 : float }.

(** The 2x3 sampling transform handed to the resampler. *)
Record Mat23f := {
  s00 : float; s01 : float; s02 : float;
  s10 : float; s11 : float; s12 : float
}.

(* ================================================================= *)
(** ** The model store *)

(** The types owned by the collaborators. *)
Class Types := {
  MatF : Type;         (* cv::Mat_<float> *)
  Image : Type;        (* cv::Mat_<uchar> *)
  PDM : Type;          (* the point distribution model *)
  SVR_params : Type;   (* what a Multi_SVR_patch_expert holds besides its size *)
  CCNF_params : Type;  (* likewise for a CCNF_patch_expert *)
  CEN_params : Type;   (* likewise for a CEN_patch_expert *)
  Stream : Type        (* std::ifstream *)
}.

Section Store.
Context `{Ty : Types}.

Record Multi_SVR_patch_expert := {
  svr_width : Z;
  svr_height : Z;
  svr_params : SVR_params
}.

Record CCNF_patch_expert := {
  ccnf_width : Z;
  ccnf_height : Z;
  ccnf_params : CCNF_params
}.

Record CEN_patch_expert := {
  cen_width : Z;
  cen_height : Z;
  biases : list MatF;
  cen_params : CEN_params
}.

Record Patch_experts := {
  patch_scaling : list double;
  centers : list (list Vec3d);
  visibilities : list (list Mat_int);
  svr_expert_intensity : list (list (list Multi_SVR_patch_expert));
  ccnf_expert_intensity : list (list (list CCNF_patch_expert));
  cen_expert_intensity : list (list (list CEN_patch_expert));
  sigma_components : list (list MatF);
  early_term_weights : list double;
  early_term_biases : list double;
  early_term_cutoffs : list double;
  mirror_inds : Mat_int;
  mirror_views : Mat_int
}.

End Store.

(** What [Response] tells its collaborators and prints, in order. *)
Inductive event `{Ty : Types} :=
| E_interpolationMatrix (resp_h resp_w aoi_w aoi_h : Z)
| E_ComputeSigmas (lmark window_size : Z)
| E_GetQuadrangleSubPix (height width : Z) (sim : Mat23f)
| E_CEN_ResponseSparse (view ind : Z) (aoi : MatF) (slot : Z) (interp : MatF)
| E_CEN_ResponseSparse_mirror (view ind : Z) (aoi : MatF) (slot : Z) (interp : MatF)
| E_CEN_ResponseSparse_mirror_joint (view ind : Z) (aoi aoi_r : MatF)
    (slot slot_r : Z) (interp : MatF)
| E_CCNF_Response (ind : Z) (aoi : MatF) (slot : Z)
| E_CCNF_ResponseOB (ind : Z) (aoi : MatF)
| E_SVR_Response (ind : Z) (aoi : MatF) (slot : Z)
| E_cout_double (x : double)
| E_cout (s : string).

(** The collaborators. A method that fills an output argument passed by
    reference is a function of the argument's previous value as well. *)
Class Externals `{Ty : Types} := {
  (* PDM *)
  NumberOfPoints : PDM -> Z;
  CalcShape2D : PDM -> MatF -> Vec6f -> MatF;
  (* OpenCV *)
  MatF_default : MatF;                    (* cv::Mat_<float>() *)
  MatF_create : Z -> Z -> MatF;           (* cv::Mat_<float>(rows, cols) *)
  MatF_rows : MatF -> Z;
  MatF_at : MatF -> Z -> Z -> res float;  (* m.at<float>(i, j) *)
  reshape_1_2_t : MatF -> MatF;           (* m.reshape(1, 2).t() *)
  Matx22f_inv : Matx22f -> Matx22f;       (* m.inv(cv::DECOMP_LU) *)
  cvGetQuadrangleSubPix : Image -> MatF -> Mat23f -> MatF;
  norm_diff : MatF -> MatF -> double;     (* cv::norm(a - b) *)
  Vec3d_mul : Vec3d -> double -> Vec3d;
  Vec3d_div : Vec3d -> double -> Vec3d;
  (* LandmarkDetectorUtils *)
  AlignShapesWithScale_f : MatF -> MatF -> Matx22f;
  interpolationMatrix : MatF -> Z -> Z -> Z -> Z -> MatF;
  (* the patch experts *)
  SVR_new : Multi_SVR_patch_expert;       (* default construction *)
  CCNF_new : CCNF_patch_expert;
  CEN_new : CEN_patch_expert;
  SVR_Response : Multi_SVR_patch_expert -> MatF -> MatF -> MatF;
  CCNF_Response : CCNF_patch_expert -> MatF -> MatF -> MatF;
  CCNF_ResponseOB : CCNF_patch_expert -> MatF -> MatF -> MatF;
  CCNF_ComputeSigmas : CCNF_patch_expert -> list MatF -> Z -> CCNF_patch_expert;
  CEN_ResponseSparse : CEN_patch_expert -> MatF -> MatF -> MatF -> MatF;
  CEN_ResponseSparse_mirror : CEN_patch_expert -> MatF -> MatF -> MatF -> MatF;
  CEN_ResponseSparse_mirror_joint :
    CEN_patch_expert -> MatF -> MatF -> MatF -> MatF -> MatF -> MatF * MatF;
  (* streams *)
  ifstream_open : string -> Stream;       (* std::ifstream f(path) *)
  is_open : Stream -> bool;
  SkipComments : Stream -> Stream;
  read_double : Stream -> double * Stream;       (* f >> x *)
  read_int : Stream -> Z * Stream;
  read_double_bin : Stream -> double * Stream;   (* f.read((char* )&x, 8) *)
  read_int_bin : Stream -> Z * Stream;           (* f.read((char* )&x, 4) *)
  ReadMat_center : Stream -> Vec3d * Stream;     (* ReadMat, then copyTo *)
  ReadMatBin_center : Stream -> Vec3d * Stream;
  ReadMat_int : Stream -> Mat_int * Stream;
  ReadMatBin_int : Stream -> Mat_int * Stream;
  ReadMatBin_float : Stream -> MatF * Stream;
  SVR_Read : Multi_SVR_patch_expert -> Stream -> Multi_SVR_patch_expert * Stream;
  CCNF_Read : CCNF_patch_expert -> Stream -> list Z -> list (list MatF) ->
              CCNF_patch_expert * Stream;
  CEN_Read : CEN_patch_expert -> Stream -> CEN_patch_expert * Stream
}.

Section Model.
Context `{Ex : Externals}.

(** [vvv[scale][view_id][i]] *)
Definition at3 {A : Type} (vvv : list (list (list A))) (scale view_id i : Z) : res A :=
  vv ← vec_at vvv scale;
  v ← vec_at vv view_id;
  vec_at v i.

(* ----------------------------------------------------------------- *)
(** *** Collect_visible_landmarks *)

Definition Collect_visible_landmarks_body (this : Patch_experts)
    (visibilities : list (list Mat_int)) (scale view_id n : Z)
    (i : Z) (vis_lmk : list Z) : res (list Z) :=
  vs ← vec_at visibilities scale;
  vis ← vec_at vs view_id;
  if Mat_rows vis =? n then
    v ← Mat_at vis i 0;
    if negb (v =? 0) then
      if negb (vec_empty (cen_expert_intensity this)) then
        if view_id =? 0 then
          ex ← at3 (cen_expert_intensity this) scale view_id i;
          if negb (vec_empty (biases ex)) then Ok (vis_lmk ++ [i])
          else Ok vis_lmk
        else Ok (vis_lmk ++ [i])
      else Ok (vis_lmk ++ [i])
    else Ok vis_lmk
  else Ok vis_lmk.

Definition Collect_visible_landmarks (this : Patch_experts)
    (visibilities : list (list Mat_int)) (scale view_id n : Z) : res (list Z) :=
  for_range 0 n (Collect_visible_landmarks_body this visibilities scale view_id n) [].

(* ----------------------------------------------------------------- *)
(** *** GetViewIdx *)

(** Modelled from the spec: [nViews] is declared in Patch_experts.h, which
    is not part of the sources at hand; it is the number of view centers
    stored at the scale. *)
Definition nViews (this : Patch_experts) (scale : Z) : res Z :=
  cs ← vec_at (centers this) scale;
  Ok (Z.of_nat (length cs)).

(** The [float d] of one iteration: the subtraction is carried out in
    [double] (the center is a [cv::Vec3d]) and stored to a [float]. *)
Definition view_distance (params_global : Vec6f) (c : Vec3d) : float :=
  let v1 := to_float (dsub (to_double (v6_1 params_global)) (v3_0 c)) in
  let v2 := to_float (dsub (to_double (v6_2 params_global)) (v3_1 c)) in
  let v3 := to_float (dsub (to_double (v6_3 params_global)) (v3_2 c)) in
  fadd (fadd (fmul v1 v1) (fmul v2 v2)) (fmul v3 v3).

(** The loop state is [(idx, dbest)]; [dbest] is [None] until assigned. *)
Definition GetViewIdx_body (this : Patch_experts) (params_global : Vec6f)
    (scale : Z) (i : Z) (st : Z * option float) : res (Z * option float) :=
  cs ← vec_at (centers this) scale;
  c ← vec_at cs i;
  let d := view_distance params_global c in
  if i =? 0 then Ok (i, Some d)
  else match st.2 with
       | None => Fault Uninitialised
       | Some dbest => if SFltb d dbest then Ok (i, Some d) else Ok st
       end.

Definition GetViewIdx (this : Patch_experts) (params_global : Vec6f)
    (scale : Z) : res Z :=
  n ← nViews this scale;
  st ← for_range 0 n (GetViewIdx_body this params_global scale) (0, None);
  Ok st.1.

(* ----------------------------------------------------------------- *)
(** *** Response *)

Definition int_add (a b : Z) : res Z := int_of (a + b).
Definition int_sub (a b : Z) : res Z := int_of (a - b).
Definition int_mul (a b : Z) : res Z := int_of (a * b).

(** [vvv[scale][view_id][i] = x] *)
Definition set3 {A : Type} (vvv : list (list (list A))) (scale view_id i : Z)
    (x : A) : res (list (list (list A))) :=
  vv ← vec_at vvv scale;
  v ← vec_at vv view_id;
  v' ← vec_set v i x;
  vv' ← vec_set vv view_id v';
  vec_set vvv scale vv'.

Definition set_ccnf_expert_intensity (this : Patch_experts)
    (x : list (list (list CCNF_patch_expert))) : Patch_experts :=
  {| patch_scaling := patch_scaling this;
     centers := centers this;
     visibilities := visibilities this;
     svr_expert_intensity := svr_expert_intensity this;
     ccnf_expert_intensity := x;
     cen_expert_intensity := cen_expert_intensity this;
     sigma_components := sigma_components this;
     early_term_weights := early_term_weights this;
     early_term_biases := early_term_biases this;
     early_term_cutoffs := early_term_cutoffs this;
     mirror_inds := mirror_inds this;
     mirror_views := mirror_views this |}.

(** The first loop of the CCNF precomputation: the last non-empty entry of
    [this->sigma_components] whose first matrix has [window_size^2] rows. *)
Definition select_sigma_components (this : Patch_experts) (window_size : Z)
    (w_size : Z) (sigma : list MatF) : res (list MatF) :=
  sc ← vec_at (sigma_components this) w_size;
  if negb (vec_empty sc) then
    ww ← int_mul window_size window_size;
    m0 ← vec_at sc 0;
    if ww =? MatF_rows m0 then Ok sc else Ok sigma
  else Ok sigma.

(** The second loop: [ComputeSigmas] on every visible landmark. *)
Definition compute_sigmas_body (scale view_id window_size : Z) (sigma : list MatF)
    (lmark : Z) (st : Patch_experts * list event) : res (Patch_experts * list event) :=
  let this := st.1 in
  vs ← vec_at (visibilities this) scale;
  vis ← vec_at vs view_id;
  v ← Mat_at vis lmark 0;
  if negb (v =? 0) then
    ex ← at3 (ccnf_expert_intensity this) scale view_id lmark;
    ccnf' ← set3 (ccnf_expert_intensity this) scale view_id lmark
              (CCNF_ComputeSigmas ex sigma window_size);
    Ok (set_ccnf_expert_intensity this ccnf',
        st.2 ++ [E_ComputeSigmas lmark window_size])
  else Ok st.

(** What the per-landmark loop reads but never changes. *)
Record Response_env := {
  env_this : Patch_experts;
  env_image : Image;
  env_landmark_locations : MatF;
  env_n : Z;
  env_a1 : float;
  env_b1 : float;
  env_interp_mat : MatF;
  env_use_cen : bool;
  env_use_ccnf : bool;
  env_view_id : Z;
  env_window_size : Z;
  env_scale : Z
}.

(** What it changes: the output vector, and the record of what was called. *)
Record Response_state := {
  patch_expert_responses : list MatF;
  trace : list event
}.

(** [cv::Mat sim = (cv::Mat_<float>(2, 3) << a1, -b1, x, b1, a1, y)] with
    [(x, y)] the current location of landmark [ind]. *)
Definition sampling_transform (env : Response_env) (ind : Z) : res Mat23f :=
  x ← MatF_at (env_landmark_locations env) ind 0;
  indn ← int_add ind (env_n env);
  y ← MatF_at (env_landmark_locations env) indn 0;
  Ok {| s00 := env_a1 env; s01 := SFopp (env_b1 env); s02 := x;
        s10 := env_b1 env; s11 := env_a1 env; s12 := y |}.

(** Extraction of one neighbourhood with [cvGetQuadrangleSubPix]. *)
Definition extract (env : Response_env) (height width : Z) (sim : Mat23f) : MatF :=
  cvGetQuadrangleSubPix (env_image env) (MatF_create height width) sim.

Definition area_of_interest_size (env : Response_env) (ind : Z) : res (Z * Z) :=
  let this := env_this env in
  let scale := env_scale env in
  let view_id := env_view_id env in
  let window_size := env_window_size env in
  if env_use_cen env then
    ex ← at3 (cen_expert_intensity this) scale view_id ind;
    w0 ← int_add window_size (cen_width ex);
    w ← int_sub w0 1;
    h0 ← int_add window_size (cen_height ex);
    h ← int_sub h0 1;
    Ok (w, h)
  else if env_use_ccnf env then
    ex ← at3 (ccnf_expert_intensity this) scale view_id ind;
    w0 ← int_add window_size (ccnf_width ex);
    w ← int_sub w0 1;
    h0 ← int_add window_size (ccnf_height ex);
    h ← int_sub h0 1;
    Ok (w, h)
  else
    ex ← at3 (svr_expert_intensity this) scale view_id ind;
    w0 ← int_add window_size (svr_width ex);
    w ← int_sub w0 1;
    h0 ← int_add window_size (svr_height ex);
    h ← int_sub h0 1;
    Ok (w, h).

(** The dispatch at the end of the loop body, lines 258 to 329. *)
Definition dispatch (env : Response_env) (ind : Z)
    (area_of_interest_width area_of_interest_height : Z)
    (area_of_interest : MatF) (st : Response_state) : res Response_state :=
  let this := env_this env in
  let scale := env_scale env in
  let view_id := env_view_id env in
  let window_size := env_window_size env in
  let interp_mat := env_interp_mat env in
  let resp := patch_expert_responses st in
  if negb (vec_empty (cen_expert_intensity this)) then
    if view_id =? 0 then
      ex ← at3 (cen_expert_intensity this) scale view_id ind;
      if negb (vec_empty (biases ex)) then
        mirror_id ← Mat_at1 (mirror_inds this) ind;
        if mirror_id =? ind then
          r ← vec_at resp ind;
          resp' ← vec_set resp ind (CEN_ResponseSparse ex area_of_interest r interp_mat);
          Ok {| patch_expert_responses := resp';
                trace := trace st ++
                  [E_CEN_ResponseSparse view_id ind area_of_interest ind interp_mat] |}
        else
          sim_r ← sampling_transform env mirror_id;
          let area_of_interest_r :=
            extract env area_of_interest_height area_of_interest_width sim_r in
          r ← vec_at resp ind;
          r_m ← vec_at resp mirror_id;
          let rr := CEN_ResponseSparse_mirror_joint ex area_of_interest
                      area_of_interest_r r r_m interp_mat in
          resp1 ← vec_set resp ind rr.1;
          resp2 ← vec_set resp1 mirror_id rr.2;
          Ok {| patch_expert_responses := resp2;
                trace := trace st ++
                  [E_GetQuadrangleSubPix area_of_interest_height
                     area_of_interest_width sim_r;
                   E_CEN_ResponseSparse_mirror_joint view_id ind area_of_interest
                     area_of_interest_r ind mirror_id interp_mat] |}
      else Ok st
    else
      ex ← at3 (cen_expert_intensity this) scale view_id ind;
      if negb (vec_empty (biases ex)) then
        r ← vec_at resp ind;
        resp' ← vec_set resp ind (CEN_ResponseSparse ex area_of_interest r interp_mat);
        Ok {| patch_expert_responses := resp';
              trace := trace st ++
                [E_CEN_ResponseSparse view_id ind area_of_interest ind interp_mat] |}
      else
        mv ← Mat_at1 (mirror_views this) view_id;
        mi ← Mat_at1 (mirror_inds this) ind;
        ex_m ← at3 (cen_expert_intensity this) scale mv mi;
        r ← vec_at resp ind;
        resp' ← vec_set resp ind
                  (CEN_ResponseSparse_mirror ex_m area_of_interest r interp_mat);
        Ok {| patch_expert_responses := resp';
              trace := trace st ++
                [E_CEN_ResponseSparse_mirror mv mi area_of_interest ind interp_mat] |}
  else if negb (vec_empty (ccnf_expert_intensity this)) then
    resp0 ← vec_set resp ind (MatF_create window_size window_size);
    ex ← at3 (ccnf_expert_intensity this) scale view_id ind;
    r ← vec_at resp0 ind;
    resp' ← vec_set resp0 ind (CCNF_Response ex area_of_interest r);
    let placeholder :=
      CCNF_ResponseOB ex area_of_interest (MatF_create window_size window_size) in
    r' ← vec_at resp' ind;
    Ok {| patch_expert_responses := resp';
          trace := trace st ++
            [E_CCNF_Response ind area_of_interest ind;
             E_CCNF_ResponseOB ind area_of_interest;
             E_cout_double (norm_diff placeholder r')] |}
  else
    resp0 ← vec_set resp ind (MatF_create window_size window_size);
    ex ← at3 (svr_expert_intensity this) scale view_id ind;
    r ← vec_at resp0 ind;
    resp' ← vec_set resp0 ind (SVR_Response ex area_of_interest r);
    Ok {| patch_expert_responses := resp';
          trace := trace st ++ [E_SVR_Response ind area_of_interest ind] |}.

(** One iteration of the loop over [vis_lmk], lines 221 to 330. *)
Definition Response_body (env : Response_env) (ind : Z)
    (st : Response_state) : res Response_state :=
  '(area_of_interest_width, area_of_interest_height) ← area_of_interest_size env ind;
  sim ← sampling_transform env ind;
  let area_of_interest :=
    extract env area_of_interest_height area_of_interest_width sim in
  dispatch env ind area_of_interest_width area_of_interest_height area_of_interest
    {| patch_expert_responses := patch_expert_responses st;
       trace := trace st ++
         [E_GetQuadrangleSubPix area_of_interest_height area_of_interest_width sim] |}.

Record Response_result := {
  res_this : Patch_experts;
  res_responses : list MatF;
  res_sim_ref_to_img : Matx22f;
  res_sim_img_to_ref : Matx22f;
  res_trace : list event
}.

(** The interpolation matrix block, lines 200 to 210. *)
Definition precompute_interp_mat (use_cen : bool) (window_size : Z)
    : res (MatF * list event) :=
  let interp_mat := MatF_default in
  if use_cen then
    let support_region := 11 in
    w0 ← int_add window_size support_region;
    area_of_interest_width ← int_sub w0 1;
    h0 ← int_add window_size support_region;
    area_of_interest_height ← int_sub h0 1;
    r0 ← int_sub area_of_interest_height support_region;
    resp_size ← int_add r0 1;
    Ok (interpolationMatrix interp_mat resp_size resp_size
          area_of_interest_width area_of_interest_height,
        [E_interpolationMatrix resp_size resp_size
           area_of_interest_width area_of_interest_height])
  else Ok (interp_mat, []).

(** The CCNF precomputation block, lines 170 to 198. *)
Definition precompute_sigmas (this : Patch_experts) (use_ccnf : bool)
    (scale view_id n window_size : Z) : res (Patch_experts * list event) :=
  if use_ccnf then
    sigma ← for_range 0 (Z.of_nat (length (sigma_components this)))
              (select_sigma_components this window_size) [];
    for_range 0 n (compute_sigmas_body scale view_id window_size sigma) (this, [])
  else Ok (this, []).

Definition Response (this : Patch_experts) (patch_expert_responses0 : list MatF)
    (grayscale_image : Image) (pdm : PDM) (params_global : Vec6f)
    (params_local : MatF) (window_size scale : Z) : res Response_result :=
  view_id ← GetViewIdx this params_global scale;
  let n := NumberOfPoints pdm in
  let landmark_locations := CalcShape2D pdm params_local params_global in
  ps ← vec_at (patch_scaling this) scale;
  let global_ref :=
    {| v6_0 := to_float ps; v6_1 := fzero; v6_2 := fzero;
       v6_3 := fzero; v6_4 := fzero; v6_5 := fzero |} in
  let reference_shape := CalcShape2D pdm params_local global_ref in
  let reference_shape_2D := reshape_1_2_t reference_shape in
  let image_shape_2D := reshape_1_2_t landmark_locations in
  let sim_img_to_ref := AlignShapesWithScale_f image_shape_2D reference_shape_2D in
  let sim_ref_to_img := Matx22f_inv sim_img_to_ref in
  let a1 := m00 sim_ref_to_img in
  let b1 := SFopp (m01 sim_ref_to_img) in
  let use_ccnf := negb (vec_empty (ccnf_expert_intensity this)) in
  let use_cen := negb (vec_empty (cen_expert_intensity this)) in
  '(this1, ev_sigma) ← precompute_sigmas this use_ccnf scale view_id n window_size;
  '(interp_mat, ev_interp) ← precompute_interp_mat use_cen window_size;
  vis_lmk ← Collect_visible_landmarks this1 (visibilities this1) scale view_id n;
  let env :=
    {| env_this := this1; env_image := grayscale_image;
       env_landmark_locations := landmark_locations; env_n := n;
       env_a1 := a1; env_b1 := b1; env_interp_mat := interp_mat;
       env_use_cen := use_cen; env_use_ccnf := use_ccnf;
       env_view_id := view_id; env_window_size := window_size;
       env_scale := scale |} in
  st ← forM vis_lmk (Response_body env)
         {| patch_expert_responses := patch_expert_responses0;
            trace := ev_sigma ++ ev_interp |};
  Ok {| res_this := this1;
        res_responses := patch_expert_responses st;
        res_sim_ref_to_img := sim_ref_to_img;
        res_sim_img_to_ref := sim_img_to_ref;
        res_trace := trace st |}.

(* ----------------------------------------------------------------- *)
(** *** The format loaders *)

Definition M_PI : double := S754_finite false 7074237752028440 (-51).
Definition d180 : double := Eval vm_compute in binary_normalize 53 1024 180 0 false.
Definition Vec3d_zero : Vec3d :=
  {| v3_0 := S754_zero false; v3_1 := S754_zero false; v3_2 := S754_zero false |}.

(** The four output arguments every loader takes by reference. *)
Record loader_io (P : Type) := {
  io_centers : list Vec3d;
  io_visibility : list Mat_int;
  io_patches : list (list P);
  io_scale : double
}.
Arguments io_centers {P} _.
Arguments io_visibility {P} _.
Arguments io_patches {P} _.
Arguments io_scale {P} _.

(** [for (i = 0; i < v.size(); i++)] reading [v[i]] from the stream. *)
Definition read_slots {A : Type} (rd : Stream -> A * Stream) (v : list A)
    (f : Stream) : res (list A * Stream) :=
  for_range 0 (Z.of_nat (length v))
    (fun i st =>
       let xf := rd st.2 in
       v' ← vec_set st.1 i xf.1;
       Ok (v', xf.2))
    (v, f).

(** [centers[i] = centers[i] * M_PI / 180.0] after the read of [centers[i]]. *)
Definition read_center (rd : Stream -> Vec3d * Stream) (f : Stream) : Vec3d * Stream :=
  let cf := rd f in (Vec3d_div (Vec3d_mul cf.1 M_PI) d180, cf.2).

(** The loop that reads the patches themselves: every view is resized to
    [numberOfPoints] experts, each of which reads itself from the stream. *)
Definition read_patches {P : Type} (dflt : P) (rd : P -> Stream -> P * Stream)
    (numberOfPoints : Z) (patches : list (list P)) (f : Stream)
    : res (list (list P) * Stream) :=
  for_range 0 (Z.of_nat (length patches))
    (fun i st =>
       p ← vec_at st.1 i;
       p0 ← vec_resize dflt p numberOfPoints;
       pf ← for_range 0 numberOfPoints
               (fun j st2 =>
                  e ← vec_at st2.1 j;
                  let ef := rd e st2.2 in
                  p' ← vec_set st2.1 j ef.1;
                  Ok (p', ef.2))
               (p0, st.2);
       ps ← vec_set st.1 i pf.1;
       Ok (ps, pf.2))
    (patches, f).

Definition cant_open : string := "Can't find/open the patches file".

Definition Read_SVR_patch_experts (expert_location : string)
    (io : loader_io Multi_SVR_patch_expert) (out : list event)
    : res (loader_io Multi_SVR_patch_expert * list event) :=
  let patchesFile := ifstream_open expert_location in
  if is_open patchesFile then
    let sf := read_double (SkipComments patchesFile) in
    let nf := read_int (SkipComments sf.2) in
    let numberViews := nf.1 in
    centers ← vec_resize Vec3d_zero (io_centers io) numberViews;
    visibility ← vec_resize Mat_int_empty (io_visibility io) numberViews;
    patches ← vec_resize [] (io_patches io) numberViews;
    '(centers, f) ← read_slots (read_center ReadMat_center) centers (SkipComments nf.2);
    '(visibility, f) ← read_slots ReadMat_int visibility (SkipComments f);
    vis0 ← vec_at visibility 0;
    let numberOfPoints := Mat_rows vis0 in
    '(patches, f) ← read_patches SVR_new SVR_Read numberOfPoints patches (SkipComments f);
    Ok ({| io_centers := centers; io_visibility := visibility;
           io_patches := patches; io_scale := sf.1 |},
        out ++ [E_cout "Done"])
  else Ok (io, out ++ [E_cout cant_open]).

(** One round of the window-size catalogue of a CCNF file. *)
Definition read_window (w : Z) (st : list Z * list (list MatF) * Stream)
    : res (list Z * list (list MatF) * Stream) :=
  let '(windows, sigma_components, f) := st in
  let wf := read_int_bin f in
  windows' ← vec_set windows w wf.1;
  let nf := read_int_bin wf.2 in
  sc ← vec_at sigma_components w;
  sc0 ← vec_resize MatF_default sc nf.1;
  '(sc', f') ← read_slots ReadMatBin_float sc0 nf.2;
  sigma_components' ← vec_set sigma_components w sc';
  Ok (windows', sigma_components', f').

(** Besides its four output arguments the CCNF loader assigns
    [this->sigma_components], passed and returned as [this_sigma]. *)
Definition Read_CCNF_patch_experts (patchesFileLocation : string)
    (this_sigma : list (list MatF)) (io : loader_io CCNF_patch_expert)
    (out : list event)
    : res (loader_io CCNF_patch_expert * list (list MatF) * list event) :=
  let patchesFile := ifstream_open patchesFileLocation in
  if is_open patchesFile then
    let sf := read_double_bin patchesFile in
    let nf := read_int_bin sf.2 in
    let numberViews := nf.1 in
    centers ← vec_resize Vec3d_zero (io_centers io) numberViews;
    visibility ← vec_resize Mat_int_empty (io_visibility io) numberViews;
    patches ← vec_resize [] (io_patches io) numberViews;
    '(centers, f) ← read_slots (read_center ReadMatBin_center) centers nf.2;
    '(visibility, f) ← read_slots ReadMatBin_int visibility f;
    vis0 ← vec_at visibility 0;
    let numberOfPoints := Mat_rows vis0 in
    let wf := read_int_bin f in
    let num_win_sizes := wf.1 in
    windows ← vec_resize 0 [] num_win_sizes;
    sigma0 ← vec_resize [] [] num_win_sizes;
    '(windows, sigma_components, f) ←
      for_range 0 num_win_sizes read_window (windows, sigma0, wf.2);
    '(patches, f) ← read_patches CCNF_new
                      (fun e f => CCNF_Read e f windows sigma_components)
                      numberOfPoints patches f;
    Ok ({| io_centers := centers; io_visibility := visibility;
           io_patches := patches; io_scale := sf.1 |},
        sigma_components,
        out ++ [E_cout "Done"])
  else Ok (io, this_sigma, out ++ [E_cout cant_open]).

(** The CEN loader assigns [this->mirror_inds] and [this->mirror_views]. *)
Definition Read_CEN_patch_experts (expert_location : string)
    (this_mirror : Mat_int * Mat_int) (io : loader_io CEN_patch_expert)
    (out : list event)
    : res (loader_io CEN_patch_expert * (Mat_int * Mat_int) * list event) :=
  let patchesFile := ifstream_open expert_location in
  if is_open patchesFile then
    let sf := read_double_bin patchesFile in
    let nf := read_int_bin sf.2 in
    let numberViews := nf.1 in
    centers ← vec_resize Vec3d_zero (io_centers io) numberViews;
    visibility ← vec_resize Mat_int_empty (io_visibility io) numberViews;
    patches ← vec_resize [] (io_patches io) numberViews;
    '(centers, f) ← read_slots (read_center ReadMatBin_center) centers nf.2;
    '(visibility, f) ← read_slots ReadMatBin_int visibility f;
    vis0 ← vec_at visibility 0;
    let numberOfPoints := Mat_rows vis0 in
    let mi := ReadMatBin_int f in
    let mv := ReadMatBin_int mi.2 in
    '(patches, f) ← read_patches CEN_new CEN_Read numberOfPoints patches mv.2;
    Ok ({| io_centers := centers; io_visibility := visibility;
           io_patches := patches; io_scale := sf.1 |},
        (mi.1, mv.1),
        out ++ [E_cout "Done"])
  else Ok (io, this_mirror, out ++ [E_cout cant_open]).

(* ----------------------------------------------------------------- *)
(** *** Read *)

(** The members every loader call writes through its reference arguments. *)
Definition with_scales (this : Patch_experts) (c : list (list Vec3d))
    (v : list (list Mat_int)) (ps : list double) : Patch_experts :=
  {| patch_scaling := ps;
     centers := c;
     visibilities := v;
     svr_expert_intensity := svr_expert_intensity this;
     ccnf_expert_intensity := ccnf_expert_intensity this;
     cen_expert_intensity := cen_expert_intensity this;
     sigma_components := sigma_components this;
     early_term_weights := early_term_weights this;
     early_term_biases := early_term_biases this;
     early_term_cutoffs := early_term_cutoffs this;
     mirror_inds := mirror_inds this;
     mirror_views := mirror_views this |}.

Definition with_experts (this : Patch_experts)
    (svr : list (list (list Multi_SVR_patch_expert)))
    (ccnf : list (list (list CCNF_patch_expert)))
    (cen : list (list (list CEN_patch_expert))) : Patch_experts :=
  {| patch_scaling := patch_scaling this;
     centers := centers this;
     visibilities := visibilities this;
     svr_expert_intensity := svr;
     ccnf_expert_intensity := ccnf;
     cen_expert_intensity := cen;
     sigma_components := sigma_components this;
     early_term_weights := early_term_weights this;
     early_term_biases := early_term_biases this;
     early_term_cutoffs := early_term_cutoffs this;
     mirror_inds := mirror_inds this;
     mirror_views := mirror_views this |}.

Definition with_shared (this : Patch_experts) (sigma : list (list MatF))
    (mi mv : Mat_int) : Patch_experts :=
  {| patch_scaling := patch_scaling this;
     centers := centers this;
     visibilities := visibilities this;
     svr_expert_intensity := svr_expert_intensity this;
     ccnf_expert_intensity := ccnf_expert_intensity this;
     cen_expert_intensity := cen_expert_intensity this;
     sigma_components := sigma;
     early_term_weights := early_term_weights this;
     early_term_biases := early_term_biases this;
     early_term_cutoffs := early_term_cutoffs this;
     mirror_inds := mi;
     mirror_views := mv |}.

Definition with_early_term (this : Patch_experts) (w b c : list double)
    : Patch_experts :=
  {| patch_scaling := patch_scaling this;
     centers := centers this;
     visibilities := visibilities this;
     svr_expert_intensity := svr_expert_intensity this;
     ccnf_expert_intensity := ccnf_expert_intensity this;
     cen_expert_intensity := cen_expert_intensity this;
     sigma_components := sigma_components this;
     early_term_weights := w;
     early_term_biases := b;
     early_term_cutoffs := c;
     mirror_inds := mirror_inds this;
     mirror_views := mirror_views this |}.

(** [centers.resize(n); visibilities.resize(n); patch_scaling.resize(n)] *)
Definition resize_scales (this : Patch_experts) (n : Z) : res Patch_experts :=
  c ← vec_resize [] (centers this) n;
  v ← vec_resize [] (visibilities this) n;
  ps ← vec_resize (S754_zero false) (patch_scaling this) n;
  Ok (with_scales this c v ps).

(** The arguments of a loader call at [scale]: references to
    [centers[scale]], [visibilities[scale]], the experts and
    [patch_scaling[scale]]. *)
Definition io_at {P : Type} (this : Patch_experts) (experts : list (list (list P)))
    (scale : Z) : res (loader_io P) :=
  c ← vec_at (centers this) scale;
  v ← vec_at (visibilities this) scale;
  p ← vec_at experts scale;
  ps ← vec_at (patch_scaling this) scale;
  Ok {| io_centers := c; io_visibility := v; io_patches := p; io_scale := ps |}.

(** Writing the loader's results back through the same references. *)
Definition io_store {P : Type} (this : Patch_experts) (scale : Z)
    (io : loader_io P) : res Patch_experts :=
  c ← vec_set (centers this) scale (io_centers io);
  v ← vec_set (visibilities this) scale (io_visibility io);
  ps ← vec_set (patch_scaling this) scale (io_scale io);
  Ok (with_scales this c v ps).

Definition reading (kind location : string) : event :=
  E_cout (String.append "Reading the intensity "
           (String.append kind
             (String.append " patch experts from: "
               (String.append location "....")))).

Definition Read_svr_scale (locations : list string) (scale : Z)
    (st : Patch_experts * list event) : res (Patch_experts * list event) :=
  let this := st.1 in
  location ← vec_at locations scale;
  io ← io_at this (svr_expert_intensity this) scale;
  '(io', out) ← Read_SVR_patch_experts location io (st.2 ++ [reading "SVR" location]);
  this' ← io_store this scale io';
  svr ← vec_set (svr_expert_intensity this) scale (io_patches io');
  Ok (with_experts this' svr (ccnf_expert_intensity this) (cen_expert_intensity this),
      out).

Definition Read_ccnf_scale (locations : list string) (scale : Z)
    (st : Patch_experts * list event) : res (Patch_experts * list event) :=
  let this := st.1 in
  location ← vec_at locations scale;
  io ← io_at this (ccnf_expert_intensity this) scale;
  '(io', sigma, out) ← Read_CCNF_patch_experts location (sigma_components this) io
                         (st.2 ++ [reading "CCNF" location]);
  this' ← io_store this scale io';
  ccnf ← vec_set (ccnf_expert_intensity this) scale (io_patches io');
  Ok (with_shared
        (with_experts this' (svr_expert_intensity this) ccnf (cen_expert_intensity this))
        sigma (mirror_inds this) (mirror_views this),
      out).

Definition Read_cen_scale (locations : list string) (scale : Z)
    (st : Patch_experts * list event) : res (Patch_experts * list event) :=
  let this := st.1 in
  location ← vec_at locations scale;
  io ← io_at this (cen_expert_intensity this) scale;
  '(io', mirror, out) ← Read_CEN_patch_experts location
                          (mirror_inds this, mirror_views this) io
                          (st.2 ++ [reading "CEN" location]);
  this' ← io_store this scale io';
  cen ← vec_set (cen_expert_intensity this) scale (io_patches io');
  Ok (with_shared
        (with_experts this' (svr_expert_intensity this) (ccnf_expert_intensity this) cen)
        (sigma_components this) mirror.1 mirror.2,
      out).

(** One of the three loops of the early termination block: as many values
    as [centers[0]] has entries, each pushed onto [acc]. *)
Definition read_early_term (this : Patch_experts) (acc : list double)
    (f : Stream) : res (list double * Stream) :=
  c0 ← vec_at (centers this) 0;
  for_range 0 (Z.of_nat (length c0))
    (fun _ st =>
       let xf := read_double st.2 in
       Ok (st.1 ++ [xf.1], xf.2))
    (acc, f).

Definition string_empty (s : string) : bool :=
  match s with EmptyString => true | _ => false end.

Definition Read_early_term (this : Patch_experts) (early_term_loc : string)
    : res Patch_experts :=
  if negb (string_empty early_term_loc) then
    let earlyTermFile := ifstream_open early_term_loc in
    '(w, f) ← read_early_term this (early_term_weights this) earlyTermFile;
    '(b, f) ← read_early_term this (early_term_biases this) f;
    '(c, f) ← read_early_term this (early_term_cutoffs this) f;
    Ok (with_early_term this w b c)
  else Ok this.

Definition Read (this : Patch_experts)
    (intensity_svr_expert_locations intensity_ccnf_expert_locations
       intensity_cen_expert_locations : list string)
    (early_term_loc : string) (out : list event)
    : res (Patch_experts * list event) :=
  (* SVR *)
  let num_intensity_svr := Z.of_nat (length intensity_svr_expert_locations) in
  this ← resize_scales this num_intensity_svr;
  svr ← vec_resize [] (svr_expert_intensity this) num_intensity_svr;
  let this := with_experts this svr (ccnf_expert_intensity this)
                (cen_expert_intensity this) in
  '(this, out) ← for_range 0 num_intensity_svr
                   (Read_svr_scale intensity_svr_expert_locations) (this, out);
  (* CCNF experts override the SVR ones *)
  let num_intensity_ccnf := Z.of_nat (length intensity_ccnf_expert_locations) in
  this ← (if 0 <? num_intensity_ccnf then
            this ← resize_scales this num_intensity_ccnf;
            ccnf ← vec_resize [] (ccnf_expert_intensity this) num_intensity_ccnf;
            Ok (with_experts this (svr_expert_intensity this) ccnf
                  (cen_expert_intensity this))
          else Ok this);
  '(this, out) ← for_range 0 num_intensity_ccnf
                   (Read_ccnf_scale intensity_ccnf_expert_locations) (this, out);
  (* CEN experts override the SVR and CCNF ones *)
  let num_intensity_cen := Z.of_nat (length intensity_cen_expert_locations) in
  this ← (if 0 <? num_intensity_cen then
            this ← resize_scales this num_intensity_cen;
            cen ← vec_resize [] (cen_expert_intensity this) num_intensity_cen;
            Ok (with_experts this (svr_expert_intensity this)
                  (ccnf_expert_intensity this) cen)
          else Ok this);
  '(this, out) ← for_range 0 num_intensity_cen
                   (Read_cen_scale intensity_cen_expert_locations) (this, out);
  (* early termination parameters *)
  this ← Read_early_term this early_term_loc;
  Ok (this, out).

(* ----------------------------------------------------------------- *)
(** *** The representation a call to [Response] dispatches to *)

Inductive representation := SVR | CCNF | CEN.

(** The representation an event of the trace belongs to, if any. *)
Definition event_representation (e : event) : option representation :=
  match e with
  | E_CEN_ResponseSparse _ _ _ _ _
  | E_CEN_ResponseSparse_mirror _ _ _ _ _
  | E_CEN_ResponseSparse_mirror_joint _ _ _ _ _ _ _ => Some CEN
  | E_CCNF_Response _ _ _ | E_CCNF_ResponseOB _ _ => Some CCNF
  | E_SVR_Response _ _ _ => Some SVR
  | _ => None
  end.

End Model.

(* ================================================================= *)
(** ** The copy constructor, with matrix storage made explicit

    A [cv::Mat] is a header over a reference-counted buffer: copying the
    header shares the buffer, [clone()] allocates a new one. Whether two
    stores share storage is invisible in the value model above, so the copy
    constructor is modelled over an explicit heap of buffers. *)

Module Heap.

Definition loc : Type := nat.

(** The buffers allocated so far; a buffer holds the raw 32-bit elements. *)
Definition heap : Type := list (list Z).

(** A matrix header; [data] is [None] for an empty matrix. *)
Record Mat := {
  rows : Z;
  cols : Z;
  data : option loc
}.

(** [cv::Mat::Mat(const Mat&)]: the new header points at the same buffer. *)
Definition Mat_copy (m : Mat) : Mat := m.

(** [cv::Mat::clone()]: a new buffer with the same contents. *)
Definition clone (m : Mat) (h : heap) : Mat * heap :=
  match data m with
  | None => (m, h)
  | Some l =>
      ({| rows := rows m; cols := cols m; data := Some (length h) |},
       h ++ [default [] (h !! l)])
  end.

(** [m.at<int>(i)] as an rvalue and as the target of an assignment. *)
Definition Mat_read (h : heap) (m : Mat) (i : nat) : option Z :=
  match data m with
  | None => None
  | Some l => match h !! l with
              | None => None
              | Some buf => buf !! i
              end
  end.

Definition Mat_write (h : heap) (m : Mat) (i : nat) (v : Z) : heap :=
  match data m with
  | None => h
  | Some l => alter (fun buf => <[i := v]> buf) l h
  end.

(** Element-wise copy of a [std::vector], threading the heap. *)
Fixpoint mapS {A B : Type} (f : A -> heap -> B * heap) (l : list A) (h : heap)
    : list B * heap :=
  match l with
  | [] => ([], h)
  | x :: l' =>
      let yh := f x h in
      let ysh := mapS f l' yh.2 in
      (yh.1 :: ysh.1, ysh.2)
  end.

Section Copy.
(** The expert classes and their copy constructors belong to other files. *)
Variables SVR_obj CCNF_obj CEN_obj : Type.
Variable SVR_copy : SVR_obj -> heap -> SVR_obj * heap.
Variable CCNF_copy : CCNF_obj -> heap -> CCNF_obj * heap.
Variable CEN_copy : CEN_obj -> heap -> CEN_obj * heap.

Record Patch_experts := {
  patch_scaling : list double;
  centers : list (list Vec3d);
  svr_expert_intensity : list (list (list SVR_obj));
  ccnf_expert_intensity : list (list (list CCNF_obj));
  cen_expert_intensity : list (list (list CEN_obj));
  early_term_weights : list double;
  early_term_biases : list double;
  early_term_cutoffs : list double;
  mirror_inds : Mat;
  mirror_views : Mat;
  sigma_components : list (list Mat);
  visibilities : list (list Mat)
}.

(** [Patch_experts::Patch_experts(const Patch_experts& other)]: the member
    initialisers copy-construct ten members; the body then fills
    [sigma_components] and [visibilities] with clones, slot by slot. *)
Definition copy_constructor (other : Patch_experts) (h : heap)
    : Patch_experts * heap :=
  let svr := mapS (mapS (mapS SVR_copy)) (svr_expert_intensity other) h in
  let ccnf := mapS (mapS (mapS CCNF_copy)) (ccnf_expert_intensity other) svr.2 in
  let cen := mapS (mapS (mapS CEN_copy)) (cen_expert_intensity other) ccnf.2 in
  let sigma := mapS (mapS clone) (sigma_components other) cen.2 in
  let vis := mapS (mapS clone) (visibilities other) sigma.2 in
  ({| patch_scaling := patch_scaling other;
      centers := centers other;
      svr_expert_intensity := svr.1;
      ccnf_expert_intensity := ccnf.1;
      cen_expert_intensity := cen.1;
      early_term_weights := early_term_weights other;
      early_term_biases := early_term_biases other;
      early_term_cutoffs := early_term_cutoffs other;
      mirror_inds := Mat_copy (mirror_inds other);
      mirror_views := Mat_copy (mirror_views other);
      sigma_components := sigma.1;
      visibilities := vis.1 |},
   vis.2).

End Copy.

Arguments patch_scaling {_ _ _} _.
Arguments centers {_ _ _} _.
Arguments svr_expert_intensity {_ _ _} _.
Arguments ccnf_expert_intensity {_ _ _} _.
Arguments cen_expert_intensity {_ _ _} _.
Arguments early_term_weights {_ _ _} _.
Arguments early_term_biases {_ _ _} _.
Arguments early_term_cutoffs {_ _ _} _.
Arguments mirror_inds {_ _ _} _.
Arguments mirror_views {_ _ _} _.
Arguments sigma_components {_ _ _} _.
Arguments visibilities {_ _ _} _.
Arguments copy_constructor {_ _ _} _ _ _ _ _.

(** A matrix of the copy is separate from the matrices allocated before
    the copy when its buffer is none of theirs. *)
Definition fresh (h : heap) (m : Mat) : Prop :=
  forall l, data m = Some l -> (length h <= l)%nat.

(** A store with no experts, whose four matrices own the four buffers of
    the heap [heap0]: the mirror tables, a basis matrix and a visibility. *)
Definition store0 : @Patch_experts unit unit unit :=
  {| patch_scaling := []; centers := [];
     svr_expert_intensity := []; ccnf_expert_intensity := [];
     cen_expert_intensity := [];
     early_term_weights := []; early_term_biases := []; early_term_cutoffs := [];
     mirror_inds := {| rows := 3; cols := 1; data := Some 0%nat |};
     mirror_views := {| rows := 2; cols := 1; data := Some 1%nat |};
     sigma_components := [[{| rows := 4; cols := 1; data := Some 2%nat |}]];
     visibilities := [[{| rows := 3; cols := 1; data := Some 3%nat |}]] |}.

Definition heap0 : heap := [[0; 2; 1]; [0; 1]; [5; 6; 7; 8]; [1; 1; 1]].

Definition keep (e : unit) (h : heap) : unit * heap := (e, h).

Definition copy0 : Patch_experts unit unit unit * heap :=
  Eval vm_compute in copy_constructor keep keep keep store0 heap0.

(** The contents of the buffer behind a header. *)
Definition Mat_contents (h : heap) (m : Mat) : option (list Z) :=
  match data m with
  | None => None
  | Some l => h !! l
  end.

(** The buffer behind a header exists. *)
Definition valid (h : heap) (m : Mat) : Prop :=
  forall l, data m = Some l -> (l < length h)%nat.

(** A clone: the same shape, a buffer that exists in [h'], and in [h'] the
    contents its original has in [h]. *)
Definition clone_of (h h' : heap) (m m' : Mat) : Prop :=
  rows m' = rows m /\ cols m' = cols m /\ valid h' m' /\
  Mat_contents h' m' = Mat_contents h m.

End Heap.

(* ================================================================= *)
(** ** Exact values and the distance to a view center

    What the specification calls the squared Euclidean distance, first as
    a rational number and then as the target evaluates it. *)

(** The rational number a floating-point value stands for; infinities and
    NaN stand for none. The denominator is [2 ^ 1074] for every value, the
    weight of the last bit of the smallest [double]. *)
Definition value (x : spec_float) : option Q :=
  match x with
  | S754_zero _ => Some 0%Q
  | S754_finite s m e =>
      if -1074 <=? e
      then Some (Qmake ((if s then Z.neg m else Z.pos m) * 2 ^ (e + 1074))
                   (2 ^ 1074)%positive)
      else None
  | _ => None
  end.

(** A [float] that is zero or positive and in canonical form: a mantissa
    of 24 bits, or fewer at the smallest exponent. *)
Definition canonical (x : float) : bool :=
  match x with
  | S754_zero _ => true
  | S754_finite false m e =>
      (-149 <=? e) && (Z.pos m <? 2 ^ 24) && ((2 ^ 23 <=? Z.pos m) || (e =? -149))
  | _ => false
  end.

(** The squared Euclidean distance between components 1 to 3 of a pose
    and a view center, in exact arithmetic. *)
Definition squared_distance (p : Vec6f) (c : Vec3d) : option Q :=
  match value (v6_1 p), value (v6_2 p), value (v6_3 p),
        value (v3_0 c), value (v3_1 c), value (v3_2 c) with
  | Some p1, Some p2, Some p3, Some c1, Some c2, Some c3 =>
      Some ((p1 - c1) * (p1 - c1) + (p2 - c2) * (p2 - c2)
            + (p3 - c3) * (p3 - c3))%Q
  | _, _, _, _, _, _ => None
  end.

(** The same distance in the arithmetic of the target: each difference is
    taken in [double] and narrowed to [float], the squares and the sums
    are rounded to [float]. *)
Definition rounded_squared_distance (p : Vec6f) (c : Vec3d) : float :=
  let difference (a : float) (b : double) : float :=
    to_float (dsub (to_double a) b) in
  let d1 := difference (v6_1 p) (v3_0 c) in
  let d2 := difference (v6_2 p) (v3_1 c) in
  let d3 := difference (v6_3 p) (v3_2 c) in
  fadd (fadd (fmul d1 d1) (fmul d2 d2)) (fmul d3 d3).

(** No rounding has changed the distance: the rounded distance is a
    canonical [float] that stands for the exact one. *)
Definition exactly_computed (p : Vec6f) (c : Vec3d) : bool :=
  canonical (rounded_squared_distance p c) &&
  match value (rounded_squared_distance p c), squared_distance p c with
  | Some q, Some q' => Qeq_bool q q'
  | _, _ => false
  end.

(* ================================================================= *)
(** ** Vocabulary of the properties *)

Section Vocabulary.
Context `{Ty : Types}.

(** The view selection as the specification states it: the index of a
    view whose exact squared distance to the pose is minimal, the first
    such index, whatever components 0, 4 and 5 of the pose are. *)
Definition GetViewIdx_as_specified (this : Patch_experts) (p : Vec6f)
    (scale : Z) : Prop :=
  forall cs, vec_at (centers this) scale = Ok cs -> cs <> [] ->
  exists idx c d,
    GetViewIdx this p scale = Ok idx /\
    0 <= idx < Z.of_nat (length cs) /\
    vec_at cs idx = Ok c /\
    squared_distance p c = Some d /\
    (forall j c' d', vec_at cs j = Ok c' -> squared_distance p c' = Some d' ->
       (d <= d')%Q) /\
    (forall j c' d', vec_at cs j = Ok c' -> j < idx ->
       squared_distance p c' = Some d' -> (d < d')%Q) /\
    (forall p', v6_1 p' = v6_1 p -> v6_2 p' = v6_2 p -> v6_3 p' = v6_3 p ->
       GetViewIdx this p' scale = Ok idx).

(** The loop invariant of [GetViewIdx] after [i] iterations. *)
Definition best_so_far (p : Vec6f) (cs : list Vec3d) (i : Z)
    (st : Z * option float) : Prop :=
  (i = 0 -> st = (0, None)) /\
  (0 < i -> exists c,
     0 <= st.1 < i /\ vec_at cs st.1 = Ok c /\
     st.2 = Some (view_distance p c) /\
     (forall j c', 0 <= j < i -> vec_at cs j = Ok c' ->
        SFltb (view_distance p c') (view_distance p c) = false) /\
     (forall j c', 0 <= j < st.1 -> vec_at cs j = Ok c' ->
        is_nan (view_distance p c') = false ->
        SFltb (view_distance p c) (view_distance p c') = true)).

(** What the specification asks of a member [i] of the collected list: the
    visibility is nonzero at [i], and either no CEN expert is loaded, or
    the view is not frontal, or the view is frontal and the landmark's own
    CEN expert has a bias vector. *)
Definition needs_response (this : Patch_experts) (vis : Mat_int)
    (scale view_id i : Z) : Prop :=
  (exists v, Mat_at vis i 0 = Ok v /\ v <> 0) /\
  (cen_expert_intensity this = [] \/
   view_id <> 0 \/
   (view_id = 0 /\
    exists ex, at3 (cen_expert_intensity this) scale view_id i = Ok ex /\
               biases ex <> [])).

(** The property of [Collect_visible_landmarks] as the specification states
    it, for every landmark count [n]: strictly ascending, and membership
    decided by [needs_response] alone. *)
Definition Collect_as_specified (this : Patch_experts)
    (visibilities : list (list Mat_int)) (scale view_id n : Z) : Prop :=
  forall vs vis l,
    vec_at visibilities scale = Ok vs ->
    vec_at vs view_id = Ok vis ->
    Collect_visible_landmarks this visibilities scale view_id n = Ok l ->
    StronglySorted Z.lt l /\
    forall i, i ∈ l <-> 0 <= i < n /\ needs_response this vis scale view_id i.

(** The representation the specification's priority order selects: CEN
    before CCNF before SVR, by which collections are non-empty. *)
Definition active_representation (this : Patch_experts) : representation :=
  if negb (vec_empty (cen_expert_intensity this)) then CEN
  else if negb (vec_empty (ccnf_expert_intensity this)) then CCNF
  else SVR.

(** What the per-landmark loop may tell its collaborators: extractions,
    response calls of the active representation (the sparse ones with the
    one interpolation matrix), and the diagnostic it prints. *)
Definition loop_event (this : Patch_experts) (interp_mat : MatF) (e : event) : Prop :=
  match e with
  | E_GetQuadrangleSubPix _ _ _ | E_cout_double _ => True
  | E_CEN_ResponseSparse _ _ _ _ m
  | E_CEN_ResponseSparse_mirror _ _ _ _ m
  | E_CEN_ResponseSparse_mirror_joint _ _ _ _ _ _ m =>
      m = interp_mat /\ active_representation this = CEN
  | E_CCNF_Response _ _ _ | E_CCNF_ResponseOB _ _ =>
      active_representation this = CCNF
  | E_SVR_Response _ _ _ => active_representation this = SVR
  | _ => False
  end.

(** The events before the loop that belong to the CCNF precomputation. *)
Definition sigma_event (e : event) : Prop :=
  match e with
  | E_ComputeSigmas _ _ => True
  | _ => False
  end.

Context {Ex : Externals}.

(** [k] values read one after the other with [>>]. *)
Fixpoint read_doubles (k : nat) (f : Stream) : list double * Stream :=
  match k with
  | O => ([], f)
  | S k' =>
      let xf := read_double f in
      let rf := read_doubles k' xf.2 in
      (xf.1 :: rf.1, rf.2)
  end.

(** How many scales each expert collection has. *)
Definition collections (this : Patch_experts) : nat * nat * nat :=
  (length (svr_expert_intensity this),
   length (ccnf_expert_intensity this),
   length (cen_expert_intensity this)).

Definition early_term (this : Patch_experts)
    : list double * list double * list double :=
  (early_term_weights this, early_term_biases this, early_term_cutoffs this).

(** What the loaders of one scale leave alone: how many scales each expert
    collection has, and the early termination arrays. *)
Definition untouched (this this' : Patch_experts) : Prop :=
  collections this' = collections this /\ early_term this' = early_term this.

(** The early termination arrays as the specification describes them: one entry
    per landmark, the landmark count being the length of the first
    visibility vector. *)
Definition early_term_per_landmark_as_specified (this : Patch_experts)
    (svr ccnf cen : list string) (early : string) : Prop :=
  forall this' out vs vis,
    Read this svr ccnf cen early [] = Ok (this', out) ->
    string_empty early = false ->
    early_term this = ([], [], []) ->
    vec_at (visibilities this') 0 = Ok vs ->
    vec_at vs 0 = Ok vis ->
    Z.of_nat (length (early_term_weights this')) = Mat_rows vis /\
    Z.of_nat (length (early_term_biases this')) = Mat_rows vis /\
    Z.of_nat (length (early_term_cutoffs this')) = Mat_rows vis.

(** The consequence the specification draws from a loader that could not
    open its file: the representation is left empty, so that dispatch falls
    through to the next one. *)
Definition unopened_falls_through_as_specified (this : Patch_experts)
    (svr ccnf cen : list string) (early : string) : Prop :=
  forall this' out,
    cen_expert_intensity this = [] ->
    Forall (fun location => is_open (ifstream_open location) = false) cen ->
    Read this svr ccnf cen early [] = Ok (this', out) ->
    cen_expert_intensity this' = [] /\ active_representation this' <> CEN.

End Vocabulary.

(* ================================================================= *)
(** ** Vocabulary of the further properties *)

Section Writes.
Context `{Ex : Externals}.

(** The slots of the output vector a call is given to fill. *)
Definition event_slots (e : event) : list Z :=
  match e with
  | E_CEN_ResponseSparse _ _ _ s _ | E_CEN_ResponseSparse_mirror _ _ _ s _ => [s]
  | E_CEN_ResponseSparse_mirror_joint _ _ _ _ s s_r _ => [s; s_r]
  | E_CCNF_Response _ _ s | E_SVR_Response _ _ s => [s]
  | _ => []
  end.

Definition slots_written (evs : list event) : list Z :=
  concat (map event_slots evs).

(** [resp'] is [resp] with the slots [S], all of them inside the vector,
    possibly changed, and nothing else. *)
Definition writes (resp resp' : list MatF) (S : list Z) : Prop :=
  length resp' = length resp /\
  (forall s, s ∈ S -> 0 <= s < Z.of_nat (length resp)) /\
  (forall j : nat, Z.of_nat j ∉ S -> resp' !! j = resp !! j).

(** The slots the iteration for landmark [ind] may fill: its own, and in
    the frontal view of the CEN experts that of its mirror. *)
Definition slot_of (env : Response_env) (ind s : Z) : Prop :=
  s = ind \/
  (cen_expert_intensity (env_this env) <> [] /\ env_view_id env = 0 /\
   s <> ind /\ Mat_at1 (mirror_inds (env_this env)) ind = Ok s).

(** The mirror of a landmark, itself where the table has no entry. *)
Definition mirror_of (m : Mat_int) (i : Z) : Z :=
  match Mat_at1 m i with
  | Ok x => x
  | Fault _ => i
  end.

(** No landmark of [l] is the mirror of another landmark of [l], and no
    two landmarks of [l] have the same mirror. *)
Definition mirror_pairs_apart (m : Mat_int) (l : list Z) : bool :=
  forallb (fun i =>
    forallb (fun j =>
      (i =? j) ||
      (negb (mirror_of m i =? j) && negb (mirror_of m i =? mirror_of m j))) l) l.

(** Whether [ComputeSigmas] is due for a landmark. *)
Definition is_visible (vis : Mat_int) (lmark : Z) : bool :=
  match Mat_at vis lmark 0 with
  | Ok v => negb (v =? 0)
  | Fault _ => false
  end.

(** An entry of [sigma_components] made for the window size: not empty,
    its first matrix with [window_size * window_size] rows. *)
Definition sigma_matches (window_size : Z) (sc : list MatF) : Prop :=
  exists m0, sc !! 0%nat = Some m0 /\ MatF_rows m0 = window_size * window_size.

(** [k] items read one after the other. *)
Fixpoint read_list {A : Type} (rd : Stream -> A * Stream) (k : nat) (f : Stream)
    : list A * Stream :=
  match k with
  | O => ([], f)
  | S k' =>
      let xf := rd f in
      let rf := read_list rd k' xf.2 in
      (xf.1 :: rf.1, rf.2)
  end.

(** How many scales the per-scale members have. *)
Definition scales (this : Patch_experts) : nat * nat * nat :=
  (length (centers this), length (visibilities this), length (patch_scaling this)).

(** What every loader leaves behind when it returns normally from an open
    file: as many centers, visibilities and views of experts as the file
    has views, at least one, and in every view as many experts as the
    first visibility has rows. *)
Definition loaded_shape {P : Type} (io : loader_io P) : Prop :=
  length (io_visibility P io) = length (io_centers P io) /\
  length (io_patches P io) = length (io_centers P io) /\
  exists vis0, io_visibility P io !! 0%nat = Some vis0 /\
    Forall (fun p => Z.of_nat (length p) = Mat_rows vis0) (io_patches P io).

Definition is_Ok {A : Type} (r : res A) : Prop :=
  match r with Ok _ => True | Fault _ => False end.

(** The line the CCNF branch of the loop prints for a landmark. *)
Definition is_norm_output (e : event) : bool :=
  match e with E_cout_double _ => true | _ => false end.

(** What [Response] does before the loop over the landmarks. *)
Definition setup_event (e : event) : Prop :=
  match e with
  | E_ComputeSigmas _ _ | E_interpolationMatrix _ _ _ _ => True
  | _ => False
  end.

(** How many views every scale of a collection of experts has, and how
    many experts every view. *)
Definition shape {A : Type} (x : list (list (list A))) : list (list nat) :=
  (fun vv : list (list A) => length <$> vv) <$> x.

(** What [Read] prints for one path: the announcement, then the loader's
    verdict. *)
Definition announce (kind location : string) : list event :=
  [reading kind location;
   E_cout (if is_open (ifstream_open location) then "Done" else cant_open)].

(** [window_size + extent - 1] and the sum before it are [int] values. *)
Definition size_ok (window_size extent : Z) : Prop :=
  INT_MIN + 1 <= window_size + extent <= INT_MAX.

(** Landmark [i] has a slot in a response vector of [len] entries and its
    two coordinates in the shape [locs] of [n] landmarks. *)
Definition located (locs : MatF) (n : Z) (len : nat) (i : Z) : Prop :=
  0 <= i < Z.of_nat len /\ i + n <= INT_MAX /\
  (exists x, MatF_at locs i 0 = Ok x) /\
  (exists y, MatF_at locs (i + n) 0 = Ok y).

(** What an iteration of the loop asks of its landmark when no CCNF
    expert is loaded: a slot and a location, an expert of the
    representation in use whose support fits an [int] with the window,
    and for CEN experts the mirror entries the iteration follows. *)
Definition landmark_ready (this : Patch_experts) (locs : MatF) (len : nat)
    (n window_size scale view_id i : Z) : Prop :=
  located locs n len i /\
  if vec_empty (cen_expert_intensity this) then
    exists ex, at3 (svr_expert_intensity this) scale view_id i = Ok ex /\
      size_ok window_size (svr_width ex) /\ size_ok window_size (svr_height ex)
  else
    exists ex, at3 (cen_expert_intensity this) scale view_id i = Ok ex /\
      size_ok window_size (cen_width ex) /\ size_ok window_size (cen_height ex) /\
      if view_id =? 0 then
        biases ex <> [] ->
        exists m, Mat_at1 (mirror_inds this) i = Ok m /\
                  (m <> i -> located locs n len m)
      else
        biases ex = [] ->
        exists mv mi ex_m,
          Mat_at1 (mirror_views this) view_id = Ok mv /\
          Mat_at1 (mirror_inds this) i = Ok mi /\
          at3 (cen_expert_intensity this) scale mv mi = Ok ex_m.

(** An extraction with the transform [(a1, -b1, x; b1, a1, y)], where
    [(x, y)] is the location some landmark has in the shape [locs] of [n]
    landmarks. *)
Definition sampled (a1 b1 : float) (locs : MatF) (n : Z) (e : event) : Prop :=
  match e with
  | E_GetQuadrangleSubPix _ _ sim =>
      s00 sim = a1 /\ s01 sim = SFopp b1 /\ s10 sim = b1 /\ s11 sim = a1 /\
      exists j, MatF_at locs j 0 = Ok (s02 sim) /\
                MatF_at locs (j + n) 0 = Ok (s12 sim)
  | _ => True
  end.

(** The transform [(a1, -b1, x; b1, a1, y)] whose translation [(x, y)] is
    the location landmark [i] has in the shape [locs] of [n] landmarks. *)
Definition transform_at (a1 b1 : float) (locs : MatF) (n i : Z)
    (sim : Mat23f) : Prop :=
  s00 sim = a1 /\ s01 sim = SFopp b1 /\ s10 sim = b1 /\ s11 sim = a1 /\
  MatF_at locs i 0 = Ok (s02 sim) /\ MatF_at locs (i + n) 0 = Ok (s12 sim).

(** What one dispatched landmark contributes to the trace, by
    representation: one extraction and the response call of the SVR
    expert; one extraction, the two response calls of the CCNF expert and
    the printed norm; or, for CEN, one extraction and a sparse call, one
    extraction and a mirrored sparse call, or two extractions and a joint
    call. Every call is given the landmark's own slot [i]. *)
Definition landmark_events (k : representation) (i : Z) (evs : list event) : Prop :=
  match k with
  | SVR =>
      exists h w sim aoi,
        evs = [E_GetQuadrangleSubPix h w sim; E_SVR_Response i aoi i]
  | CCNF =>
      exists h w sim aoi x,
        evs = [E_GetQuadrangleSubPix h w sim; E_CCNF_Response i aoi i;
               E_CCNF_ResponseOB i aoi; E_cout_double x]
  | CEN =>
      (exists h w sim view aoi m,
         evs = [E_GetQuadrangleSubPix h w sim;
                E_CEN_ResponseSparse view i aoi i m]) \/
      (exists h w sim view ind aoi m,
         evs = [E_GetQuadrangleSubPix h w sim;
                E_CEN_ResponseSparse_mirror view ind aoi i m]) \/
      (exists h w sim sim_r view aoi aoi_r mirror_id m,
         evs = [E_GetQuadrangleSubPix h w sim; E_GetQuadrangleSubPix h w sim_r;
                E_CEN_ResponseSparse_mirror_joint view i aoi aoi_r i mirror_id m])
  end.



(** The window-size catalogue of a CCNF file read from front to back:
    [k] times a window size, a count, and that many matrices. *)
Fixpoint read_catalogue (k : nat) (f : Stream)
    : list Z * list (list MatF) * Stream :=
  match k with
  | O => ([], [], f)
  | S k' =>
      let wf := read_int_bin f in
      let nf := read_int_bin wf.2 in
      let ms := read_list ReadMatBin_float (Z.to_nat nf.1) nf.2 in
      let rest := read_catalogue k' ms.2 in
      (wf.1 :: rest.1.1, ms.1 :: rest.1.2, rest.2)
  end.

(** The counts of the first [k] entries of the catalogue. *)
Fixpoint catalogue_counts (k : nat) (f : Stream) : list Z :=
  match k with
  | O => []
  | S k' =>
      let wf := read_int_bin f in
      let nf := read_int_bin wf.2 in
      let ms := read_list ReadMatBin_float (Z.to_nat nf.1) nf.2 in
      nf.1 :: catalogue_counts k' ms.2
  end.

End Writes.

(* ================================================================= *)
(** ** The frontal view of the CEN experts, as the specification has it *)

Section FrontalRun.
Context `{Ex : Externals}.
Variables (this : Patch_experts) (image : Image) (locs : MatF) (n : Z).
Variables (a1 b1 : float) (interp_mat : MatF) (window_size scale : Z).

(** The neighbourhood of a landmark for a CEN expert: as wide and as high
    as the window and the support of the expert ask for, sampled with
    [sim]. *)
Definition CEN_neighbourhood (ex : CEN_patch_expert) (sim : Mat23f) : MatF :=
  cvGetQuadrangleSubPix image
    (MatF_create (window_size + cen_height ex - 1)
                 (window_size + cen_width ex - 1)) sim.

(** The landmarks of a list taken in order, each with an expert that has
    bias vectors. A landmark that is its own mirror has its neighbourhood
    extracted and its slot rewritten by one sparse response. Any other
    has a second neighbourhood extracted at the location of its mirror,
    with the same rotation and scale, and its slot and the slot of the
    mirror rewritten by one joint call. The relation holds between the
    list, the response vector before, the response vector after and the
    calls made. *)
Inductive frontal_CEN_run
  : list Z -> list MatF -> list MatF -> list event -> Prop :=
| frontal_done (resp : list MatF) : frontal_CEN_run [] resp resp []
| frontal_self (i : Z) (l : list Z) (resp resp' : list MatF)
    (evs : list event) (ex : CEN_patch_expert) (sim : Mat23f) (r : MatF) :
    at3 (cen_expert_intensity this) scale 0 i = Ok ex ->
    biases ex <> [] ->
    Mat_at1 (mirror_inds this) i = Ok i ->
    transform_at a1 b1 locs n i sim ->
    vec_at resp i = Ok r ->
    frontal_CEN_run l
      (<[Z.to_nat i :=
           CEN_ResponseSparse ex (CEN_neighbourhood ex sim) r interp_mat]> resp)
      resp' evs ->
    frontal_CEN_run (i :: l) resp resp'
      (E_GetQuadrangleSubPix (window_size + cen_height ex - 1)
         (window_size + cen_width ex - 1) sim
       :: E_CEN_ResponseSparse 0 i (CEN_neighbourhood ex sim) i interp_mat
       :: evs)
| frontal_joint (i mirror_id : Z) (l : list Z) (resp resp' : list MatF)
    (evs : list event) (ex : CEN_patch_expert) (sim sim_r : Mat23f)
    (r r_m : MatF) :
    at3 (cen_expert_intensity this) scale 0 i = Ok ex ->
    biases ex <> [] ->
    Mat_at1 (mirror_inds this) i = Ok mirror_id ->
    mirror_id <> i ->
    transform_at a1 b1 locs n i sim ->
    transform_at a1 b1 locs n mirror_id sim_r ->
    vec_at resp i = Ok r ->
    vec_at resp mirror_id = Ok r_m ->
    frontal_CEN_run l
      (<[Z.to_nat mirror_id :=
           (CEN_ResponseSparse_mirror_joint ex (CEN_neighbourhood ex sim)
              (CEN_neighbourhood ex sim_r) r r_m interp_mat).2]>
         (<[Z.to_nat i :=
              (CEN_ResponseSparse_mirror_joint ex (CEN_neighbourhood ex sim)
                 (CEN_neighbourhood ex sim_r) r r_m interp_mat).1]> resp))
      resp' evs ->
    frontal_CEN_run (i :: l) resp resp'
      (E_GetQuadrangleSubPix (window_size + cen_height ex - 1)
         (window_size + cen_width ex - 1) sim
       :: E_GetQuadrangleSubPix (window_size + cen_height ex - 1)
            (window_size + cen_width ex - 1) sim_r
       :: E_CEN_ResponseSparse_mirror_joint 0 i (CEN_neighbourhood ex sim)
            (CEN_neighbourhood ex sim_r) i mirror_id interp_mat
       :: evs).

End FrontalRun.

(* ================================================================= *)
(** ** A small executable instance

    Collaborators simple enough to run: a matrix is a list of integers
    that records how it was produced, a stream is the list of numbers still
    to be read, and the file system holds four small model files. *)

Module Sample.

#[export] Instance sample_types : Types := {|
  MatF := list Z;
  Image := unit;
  PDM := list Z;
  SVR_params := unit;
  CCNF_params := unit;
  CEN_params := unit;
  Stream := option (list Z)
|}.

Definition of_Z (z : Z) : float := binary_normalize 24 128 z 0 false.
Definition double_of_Z (z : Z) : double := binary_normalize 53 1024 z 0 false.

Definition take_int (f : option (list Z)) : Z * option (list Z) :=
  match f with
  | Some (x :: r) => (x, Some r)
  | _ => (0, f)
  end.

Fixpoint take_ints (k : nat) (f : option (list Z)) : list Z * option (list Z) :=
  match k with
  | O => ([], f)
  | S k' =>
      let xf := take_int f in
      let rf := take_ints k' xf.2 in
      (xf.1 :: rf.1, rf.2)
  end.

(** A matrix on a stream: its length, then its entries. *)
Definition take_list (f : option (list Z)) : list Z * option (list Z) :=
  let nf := take_int f in take_ints (Z.to_nat nf.1) nf.2.

Definition take_center (f : option (list Z)) : Vec3d * option (list Z) :=
  let rf := take_ints 3 f in
  ({| v3_0 := double_of_Z (nth 0 rf.1 0);
      v3_1 := double_of_Z (nth 1 rf.1 0);
      v3_2 := double_of_Z (nth 2 rf.1 0) |}, rf.2).

Definition scale_Vec3d (op : double -> double -> double) (v : Vec3d) (k : double) : Vec3d :=
  {| v3_0 := op (v3_0 v) k; v3_1 := op (v3_1 v) k; v3_2 := op (v3_2 v) k |}.

(** An expert on a stream: width, height and, for CEN, the number of bias
    vectors (zero for the placeholder of a mirrored landmark). *)
Definition take_svr (e : Multi_SVR_patch_expert) (f : option (list Z)) :=
  let rf := take_ints 2 f in
  ({| svr_width := nth 0 rf.1 0; svr_height := nth 1 rf.1 0; svr_params := tt |},
   rf.2).

Definition take_ccnf (e : CCNF_patch_expert) (f : option (list Z)) :=
  let rf := take_ints 2 f in
  ({| ccnf_width := nth 0 rf.1 0; ccnf_height := nth 1 rf.1 0; ccnf_params := tt |},
   rf.2).

Definition take_cen (e : CEN_patch_expert) (f : option (list Z)) :=
  let rf := take_ints 3 f in
  ({| cen_width := nth 0 rf.1 0; cen_height := nth 1 rf.1 0;
      biases := replicate (Z.to_nat (nth 2 rf.1 0)) [0];
      cen_params := tt |},
   rf.2).

(** One scale, one view, three landmarks. *)
Definition svr_file : list Z :=
  [1; 1] ++ [0; 0; 0] ++ [3; 1; 1; 1] ++ [11; 11; 11; 11; 11; 11].

(** One scale, one view, three landmarks, one window size (3 x 3 responses)
    with one basis matrix. *)
Definition ccnf_file : list Z :=
  [1; 1] ++ [0; 0; 0] ++ [3; 1; 1; 1] ++ [1; 3; 1; 9; 0; 0; 0; 0; 0; 0; 0; 0; 0]
  ++ [11; 11; 11; 11; 11; 11].

(** One scale, a frontal and a profile view, three landmarks of which 1 and
    2 mirror each other; in the frontal view landmark 2 is a placeholder. *)
Definition cen_file : list Z :=
  [1; 2] ++ [0; 0; 0; 0; 30; 0] ++ [3; 1; 1; 1; 3; 1; 1; 0]
  ++ [3; 0; 2; 1] ++ [2; 0; 1]
  ++ [11; 11; 1; 11; 11; 1; 11; 11; 0] ++ [11; 11; 1; 11; 11; 1; 11; 11; 1].

Definition early_file : list Z := [1; 2; 3; 4; 5; 6].

Definition files : gmap string (list Z) :=
  list_to_map [("svr.txt", svr_file); ("ccnf.dat", ccnf_file);
               ("cen.dat", cen_file); ("early.txt", early_file)].

#[export] Instance sample : Externals := {|
  NumberOfPoints pdm := Z.of_nat (length pdm) / 2;
  CalcShape2D pdm _ _ := pdm;
  MatF_default := [];
  MatF_create r c := [r; c];
  MatF_rows m := Z.of_nat (length m);
  MatF_at m i j := if j =? 0 then x ← vec_at m i; Ok (of_Z x) else Fault OutOfRange;
  reshape_1_2_t m := m;
  Matx22f_inv m := m;
  cvGetQuadrangleSubPix _ dst _ := 100 :: dst;
  norm_diff _ _ := S754_zero false;
  Vec3d_mul := scale_Vec3d (SFmul 53 1024);
  Vec3d_div := scale_Vec3d (SFdiv 53 1024);
  AlignShapesWithScale_f _ _ :=
    {| m00 := of_Z 1; m01 := of_Z 0; m10 := of_Z 0; m11 := of_Z 1 |};
  interpolationMatrix _ rh rw w h := [7; rh; rw; w; h];
  SVR_new := {| svr_width := 0; svr_height := 0; svr_params := tt |};
  CCNF_new := {| ccnf_width := 0; ccnf_height := 0; ccnf_params := tt |};
  CEN_new := {| cen_width := 0; cen_height := 0; biases := []; cen_params := tt |};
  SVR_Response _ aoi _ := 1 :: aoi;
  CCNF_Response _ aoi _ := 2 :: aoi;
  CCNF_ResponseOB _ aoi _ := 3 :: aoi;
  CCNF_ComputeSigmas e _ _ := e;
  CEN_ResponseSparse _ aoi _ _ := 4 :: aoi;
  CEN_ResponseSparse_mirror _ aoi _ _ := 5 :: aoi;
  CEN_ResponseSparse_mirror_joint _ aoi aoi_r _ _ _ := (6 :: aoi, 7 :: aoi_r);
  ifstream_open path := files !! path;
  is_open f := match f with Some _ => true | None => false end;
  SkipComments f := f;
  read_double f := let xf := take_int f in (double_of_Z xf.1, xf.2);
  read_int := take_int;
  read_double_bin f := let xf := take_int f in (double_of_Z xf.1, xf.2);
  read_int_bin := take_int;
  ReadMat_center := take_center;
  ReadMatBin_center := take_center;
  ReadMat_int f := let lf := take_list f in (column lf.1, lf.2);
  ReadMatBin_int f := let lf := take_list f in (column lf.1, lf.2);
  ReadMatBin_float := take_list;
  SVR_Read := take_svr;
  CCNF_Read e f _ _ := take_ccnf e f;
  CEN_Read := take_cen
|}.

(** A store nothing has been loaded into. *)
Definition empty_store : Patch_experts :=
  {| patch_scaling := []; centers := []; visibilities := [];
     svr_expert_intensity := []; ccnf_expert_intensity := [];
     cen_expert_intensity := []; sigma_components := [];
     early_term_weights := []; early_term_biases := []; early_term_cutoffs := [];
     mirror_inds := Mat_int_empty; mirror_views := Mat_int_empty |}.

(** The outcome of [Read], or the empty store if it faulted. *)
Definition loaded (svr ccnf cen : list string) (early : string) : Patch_experts :=
  match Read empty_store svr ccnf cen early [] with
  | Ok r => r.1
  | Fault _ => empty_store
  end.

Definition svr_store : Patch_experts :=
  Eval vm_compute in loaded ["svr.txt"] [] [] EmptyString.
Definition ccnf_store : Patch_experts :=
  Eval vm_compute in loaded ["svr.txt"] ["ccnf.dat"] [] EmptyString.
Definition cen_store : Patch_experts :=
  Eval vm_compute in loaded ["svr.txt"] [] ["cen.dat"] "early.txt".

(** What [Response] returns for the three landmarks of [pdm3] at a frontal
    pose, window size 3, scale 0; a placeholder result if it faulted. *)
Definition run (this : Patch_experts) : Response_result :=
  match Response this [[]; []; []] tt [10; 20; 30; 10; 10; 10]
          {| v6_0 := of_Z 1; v6_1 := fzero; v6_2 := fzero;
             v6_3 := fzero; v6_4 := fzero; v6_5 := fzero |} [] 3 0 with
  | Ok r => r
  | Fault _ =>
      {| res_this := this; res_responses := [];
         res_sim_ref_to_img := AlignShapesWithScale_f [] [];
         res_sim_img_to_ref := AlignShapesWithScale_f [] [];
         res_trace := [] |}
  end.

Definition cen_response : Response_result := Eval vm_compute in run cen_store.
Definition ccnf_response : Response_result := Eval vm_compute in run ccnf_store.

(** The store after an SVR file that loads and a CEN file that is not
    there. *)
Definition cen_missing_store : Patch_experts :=
  Eval vm_compute in loaded ["svr.txt"] [] ["missing.dat"] EmptyString.

(** The environment and the state of the loop of [run cen_store] when it
    starts, and likewise for [run ccnf_store]. *)
Definition cen_env : Response_env :=
  {| env_this := cen_store; env_image := tt;
     env_landmark_locations := [10; 20; 30; 10; 10; 10]; env_n := 3;
     env_a1 := of_Z 1; env_b1 := SFopp (of_Z 0);
     env_interp_mat := [7; 3; 3; 13; 13];
     env_use_cen := true; env_use_ccnf := false;
     env_view_id := 0; env_window_size := 3; env_scale := 0 |}.

Definition ccnf_env : Response_env :=
  {| env_this := ccnf_store; env_image := tt;
     env_landmark_locations := [10; 20; 30; 10; 10; 10]; env_n := 3;
     env_a1 := of_Z 1; env_b1 := SFopp (of_Z 0);
     env_interp_mat := [];
     env_use_cen := false; env_use_ccnf := true;
     env_view_id := 0; env_window_size := 3; env_scale := 0 |}.

Definition state0 : Response_state :=
  {| patch_expert_responses := [[]; []; []]; trace := [] |}.

(** The view centers of the sample CEN store at scale 0. *)
Definition cen_views : list Vec3d :=
  Eval vm_compute in default [] (centers cen_store !! 0%nat).

(** Three landmarks at (10,10), (20,10) and (30,10), stacked x then y. *)
Definition pdm3 : list Z := [10; 20; 30; 10; 10; 10].

Definition pose0 : Vec6f :=
  {| v6_0 := of_Z 1; v6_1 := fzero; v6_2 := fzero;
     v6_3 := fzero; v6_4 := fzero; v6_5 := fzero |}.

(** The sample CEN store with landmark 2 of the profile view turned into a
    placeholder, and the loop environment at the profile view. *)
Definition profile_store : Patch_experts :=
  with_experts cen_store (svr_expert_intensity cen_store) []
    [[[{| cen_width := 11; cen_height := 11; biases := [[0]]; cen_params := tt |};
       {| cen_width := 11; cen_height := 11; biases := [[0]]; cen_params := tt |};
       {| cen_width := 11; cen_height := 11; biases := []; cen_params := tt |}];
      [{| cen_width := 11; cen_height := 11; biases := [[0]]; cen_params := tt |};
       {| cen_width := 11; cen_height := 11; biases := [[0]]; cen_params := tt |};
       {| cen_width := 11; cen_height := 11; biases := []; cen_params := tt |}]]].

Definition profile_env : Response_env :=
  {| env_this := profile_store; env_image := tt;
     env_landmark_locations := [10; 20; 30; 10; 10; 10]; env_n := 3;
     env_a1 := of_Z 1; env_b1 := SFopp (of_Z 0);
     env_interp_mat := [7; 3; 3; 13; 13];
     env_use_cen := true; env_use_ccnf := false;
     env_view_id := 1; env_window_size := 3; env_scale := 0 |}.

Definition svr_env : Response_env :=
  {| env_this := svr_store; env_image := tt;
     env_landmark_locations := [10; 20; 30; 10; 10; 10]; env_n := 3;
     env_a1 := of_Z 1; env_b1 := SFopp (of_Z 0);
     env_interp_mat := [];
     env_use_cen := false; env_use_ccnf := false;
     env_view_id := 0; env_window_size := 3; env_scale := 0 |}.

Definition svr_response : Response_result := Eval vm_compute in run svr_store.

(** Two stores that hold view centers only. In the first, view 0 is
    [2 ^ -100] away from the frontal pose, a distance whose square is
    below the smallest [float]; in the second, view 0 is at distance 1 and
    views 1 and 2 are at the pose. *)
Definition tiny : double := S754_finite false 4503599627370496 (-152).

Definition tiny_views : list Vec3d :=
  [{| v3_0 := tiny; v3_1 := S754_zero false; v3_2 := S754_zero false |};
   Vec3d_zero].

Definition tiny_store : Patch_experts := with_scales empty_store [tiny_views] [] [].

Definition grid_views : list Vec3d :=
  [{| v3_0 := double_of_Z 1; v3_1 := S754_zero false; v3_2 := S754_zero false |};
   Vec3d_zero; Vec3d_zero].

Definition grid_store : Patch_experts := with_scales empty_store [grid_views] [] [].

(** The CCNF store with its middle landmark not visible. *)
Definition partly_visible_store : Patch_experts :=
  {| patch_scaling := patch_scaling ccnf_store;
     centers := centers ccnf_store;
     visibilities := [[column [1; 0; 1]]];
     svr_expert_intensity := svr_expert_intensity ccnf_store;
     ccnf_expert_intensity := ccnf_expert_intensity ccnf_store;
     cen_expert_intensity := cen_expert_intensity ccnf_store;
     sigma_components := sigma_components ccnf_store;
     early_term_weights := early_term_weights ccnf_store;
     early_term_biases := early_term_biases ccnf_store;
     early_term_cutoffs := early_term_cutoffs ccnf_store;
     mirror_inds := mirror_inds ccnf_store;
     mirror_views := mirror_views ccnf_store |}.

(** A shape model of two landmarks, one fewer than the sample stores have,
    and what [Response] returns for it with the sample CEN store. *)
Definition pdm2 : list Z := [10; 20; 10; 10].

Definition short_response : Response_result :=
  Eval vm_compute in
    match Response cen_store [[]; []; []] tt pdm2 pose0 [] 3 0 with
    | Ok r => r
    | Fault _ => cen_response
    end.

End Sample.

(* ================================================================= *)
(** * Properties *)

(** ** The error monad and the loops *)

Lemma bind_Ok {A B : Type} (m : res A) (k : A -> res B) (y : B) :
  (m ≫= k) = Ok y <-> exists a, m = Ok a /\ k a = Ok y.
Proof.
  destruct m as [a|f]; simpl; split.
  - intros H. exists a. auto.
  - intros (a' & Ha & Hk). injection Ha as ->. exact Hk.
  - discriminate.
  - intros (a' & Ha & _). discriminate.
Qed.

Lemma vec_at_Ok {A : Type} (v : list A) (i : Z) (x : A) :
  vec_at v i = Ok x <-> 0 <= i /\ v !! Z.to_nat i = Some x.
Proof.
  unfold vec_at. destruct (Z.ltb_spec i 0) as [Hi|Hi].
  - split; [discriminate | lia].
  - destruct (v !! Z.to_nat i) as [y|]; split.
    + intros [= ->]. auto.
    + intros [_ [= ->]]. reflexivity.
    + discriminate.
    + intros [_ [=]].
Qed.

Lemma vec_at_lt {A : Type} (v : list A) (i : Z) (x : A) :
  vec_at v i = Ok x -> 0 <= i < Z.of_nat (length v).
Proof.
  intros [Hi Hl]%vec_at_Ok. apply lookup_lt_Some in Hl. lia.
Qed.

Lemma vec_at_defined {A : Type} (v : list A) (i : Z) :
  0 <= i < Z.of_nat (length v) -> exists x, vec_at v i = Ok x.
Proof.
  intros Hi. destruct (lookup_lt_is_Some_2 v (Z.to_nat i)) as [x Hx]; [lia|].
  exists x. apply vec_at_Ok. split; [lia | exact Hx].
Qed.

Lemma vec_set_Ok {A : Type} (v v' : list A) (i : Z) (x : A) :
  vec_set v i x = Ok v' <->
  0 <= i < Z.of_nat (length v) /\ v' = <[Z.to_nat i := x]> v.
Proof.
  unfold vec_set. destruct (Z.ltb_spec i 0) as [Hi|Hi].
  - split; [discriminate | lia].
  - destruct (Nat.ltb_spec (Z.to_nat i) (length v)) as [Hl|Hl]; split.
    + intros [= <-]. split; [lia | reflexivity].
    + intros [_ ->]. reflexivity.
    + discriminate.
    + lia.
Qed.

Lemma int_of_Ok (z x : Z) :
  int_of z = Ok x <-> x = z /\ INT_MIN <= z <= INT_MAX.
Proof.
  unfold int_of, int_range.
  destruct (Z.leb_spec INT_MIN z), (Z.leb_spec z INT_MAX); simpl; split;
    try discriminate; try lia.
  - intros [= <-]. lia.
  - intros [-> _]. reflexivity.
Qed.

(** Case analysis of a computation known to have succeeded. *)
Ltac res_inv H :=
  repeat (simpl in H;
    match type of H with
    | (_ ≫= _) = Ok _ => apply bind_Ok in H as (? & ? & H)
    | (if ?b then _ else _) = Ok _ => destruct b eqn:?
    | (match ?x with _ => _ end) = Ok _ => destruct x eqn:?
    | Fault _ = Ok _ => discriminate H
    end).

(** The invariant rule of a counted loop, for total correctness: the body
    is defined on every state the invariant admits and re-establishes it. *)
Lemma for_range_total {S : Type} (P : Z -> S -> Prop) (lo hi : Z)
    (body : Z -> S -> res S) (s0 : S) :
  lo <= hi ->
  P lo s0 ->
  (forall i s, lo <= i < hi -> P i s -> exists s', body i s = Ok s' /\ P (i + 1) s') ->
  exists s, for_range lo hi body s0 = Ok s /\ P hi s.
Proof.
  unfold for_range. intros Hle H0 Hstep.
  remember (Z.to_nat (hi - lo)) as k eqn:Hk.
  revert lo s0 Hle H0 Hstep Hk.
  induction k as [|k IH]; intros lo s0 Hle H0 Hstep Hk.
  - assert (hi = lo) as -> by lia. rewrite seqZ_nil by lia. simpl. eauto.
  - rewrite seqZ_cons by lia. simpl.
    destruct (Hstep lo s0) as (s1 & Hb & H1); [lia | exact H0 |].
    rewrite Hb. simpl.
    replace (Z.pred (hi - lo)) with (hi - Z.succ lo) by lia.
    apply IH; try lia.
    + replace (Z.succ lo) with (lo + 1) by lia. exact H1.
    + intros i s Hi. apply Hstep. lia.
Qed.

(** The same rule for partial correctness: what a loop that completed has
    established. *)
Lemma for_range_inv {S : Type} (P : Z -> S -> Prop) (lo hi : Z)
    (body : Z -> S -> res S) (s0 s : S) :
  lo <= hi ->
  P lo s0 ->
  (forall i s s', lo <= i < hi -> P i s -> body i s = Ok s' -> P (i + 1) s') ->
  for_range lo hi body s0 = Ok s -> P hi s.
Proof.
  unfold for_range. intros Hle H0 Hstep.
  remember (Z.to_nat (hi - lo)) as k eqn:Hk.
  revert lo s0 Hle H0 Hstep Hk.
  induction k as [|k IH]; intros lo s0 Hle H0 Hstep Hk.
  - assert (hi = lo) as -> by lia. rewrite seqZ_nil by lia. simpl.
    intros [= <-]. exact H0.
  - rewrite seqZ_cons by lia. simpl. intros (s1 & Hb & Hrest)%bind_Ok.
    replace (Z.pred (hi - lo)) with (hi - Z.succ lo) in Hrest by lia.
    revert Hrest. apply IH; try lia.
    + replace (Z.succ lo) with (lo + 1) by lia. apply (Hstep lo s0); [lia|auto..].
    + intros i s2 s3 Hi. apply Hstep. lia.
Qed.

Lemma for_range_empty {S : Type} (lo hi : Z) (body : Z -> S -> res S) (s0 : S) :
  hi <= lo -> for_range lo hi body s0 = Ok s0.
Proof. intros H. unfold for_range. rewrite seqZ_nil by lia. reflexivity. Qed.

Lemma forM_ext {A S : Type} (l : list A) (f g : A -> S -> res S) (s : S) :
  (forall x s, f x s = g x s) -> forM l f s = forM l g s.
Proof.
  intros H. revert s. induction l as [|x l IH]; intros s; simpl; [reflexivity|].
  rewrite H. destruct (g x s); simpl; auto.
Qed.

(* ================================================================= *)
(** ** The order of floating-point values *)

Lemma compare_cont_Eq (m1 m2 : positive) :
  PosDef.Pos.compare_cont Eq m1 m2 = (m1 ?= m2)%positive.
Proof. reflexivity. Qed.

Ltac order_cases :=
  repeat match goal with
  | |- context [(?a ?= ?b)%Z] => destruct (Z.compare_spec a b)
  | H : context [(?a ?= ?b)%Z] |- _ => destruct (Z.compare_spec a b)
  | |- context [(?a ?= ?b)%positive] => destruct (Pos.compare_spec a b)
  | H : context [(?a ?= ?b)%positive] |- _ => destruct (Pos.compare_spec a b)
  end;
  simpl in *; subst; try discriminate; try reflexivity; try lia.

Ltac float_cases x :=
  destruct x as [[]|[]| |[] ? ?]; simpl in *; try discriminate; try reflexivity.

(** [<] never holds between a value and itself. *)
Lemma SFltb_irrefl (a : spec_float) : SFltb a a = false.
Proof.
  unfold SFltb, SFcompare. float_cases a;
    rewrite compare_cont_Eq, Z.compare_refl, Pos.compare_refl; reflexivity.
Qed.

(** [<] is transitive, NaN included: nothing is below or above a NaN. *)
Lemma SFltb_trans (a b c : spec_float) :
  SFltb a b = true -> SFltb b c = true -> SFltb a c = true.
Proof.
  unfold SFltb, SFcompare. intros Hab Hbc.
  float_cases a; float_cases b; float_cases c;
    rewrite ?compare_cont_Eq in *; order_cases.
Qed.

(** On values that are not NaN the order is total: what is not below [b]
    is above everything that is below [b]. *)
Lemma SFltb_below_not_below (a b c : spec_float) :
  SFltb a b = true -> SFltb c b = false -> is_nan c = false -> SFltb a c = true.
Proof.
  unfold SFltb, SFcompare. intros Hab Hcb Hc.
  float_cases a; float_cases b; float_cases c;
    rewrite ?compare_cont_Eq in *; order_cases.
Qed.

(** Twice a power of two is at most the next power. *)
Lemma pow2_step (a b : Z) : 0 <= a -> a < b -> 2 * 2 ^ a <= 2 ^ b.
Proof.
  intros Ha Hab. replace b with (a + 1 + (b - a - 1)) by lia.
  rewrite Z.pow_add_r, Z.pow_add_r by lia. change (2 ^ 1) with 2.
  assert (0 < 2 ^ (b - a - 1)) by (apply Z.pow_pos_nonneg; lia).
  assert (0 < 2 ^ a) by (apply Z.pow_pos_nonneg; lia). nia.
Qed.

#[local] Opaque Z.mul.

(** On canonical values the [<] of the target is the order of the
    numbers they stand for. *)
Lemma SFltb_value (x y : spec_float) (qx qy : Q) :
  canonical x = true -> canonical y = true ->
  value x = Some qx -> value y = Some qy ->
  (SFltb x y = true <-> (qx < qy)%Q).
Proof.
  unfold SFltb, SFcompare, canonical, value.
  destruct x as [sx| | |[] mx ex]; try discriminate;
    destruct y as [sy| | |[] my ey]; try discriminate.
  - intros _ _ [= <-] [= <-]. split; [discriminate|]. intros Hq. discriminate Hq.
  - intros _ Hy [= <-]. destruct (Z.leb_spec (-1074) ey) as [He|He]; [|discriminate].
    intros [= <-]. split; [|reflexivity]. intros _. unfold Qlt. cbn [Qnum Qden].
    assert (0 < 2 ^ (ey + 1074)) by (apply Z.pow_pos_nonneg; lia). nia.
  - intros Hx _. destruct (Z.leb_spec (-1074) ex) as [He|He]; [|discriminate].
    intros [= <-] [= <-]. split; [discriminate|]. unfold Qlt. cbn [Qnum Qden].
    assert (0 < 2 ^ (ex + 1074)) by (apply Z.pow_pos_nonneg; lia). nia.
  - intros Hx Hy.
    apply andb_prop in Hx as [Hx Hx3]. apply andb_prop in Hx as [Hx1 Hx2].
    apply andb_prop in Hy as [Hy Hy3]. apply andb_prop in Hy as [Hy1 Hy2].
    apply Z.leb_le in Hx1, Hy1. apply Z.ltb_lt in Hx2, Hy2.
    destruct (Z.leb_spec (-1074) ex); [|lia]. destruct (Z.leb_spec (-1074) ey); [|lia].
    intros [= <-] [= <-]. unfold Qlt. cbn [Qnum Qden].
    set (D := Z.pos (2 ^ 1074)).
    assert (0 < D) as HD by reflexivity.
    assert (0 < 2 ^ (ex + 1074)) as Hpx by (apply Z.pow_pos_nonneg; lia).
    assert (0 < 2 ^ (ey + 1074)) as Hpy by (apply Z.pow_pos_nonneg; lia).
    rewrite compare_cont_Eq.
    destruct (Z.compare_spec ex ey) as [->|Hlt|Hgt].
    + destruct (Pos.compare_spec mx my) as [->|Hm|Hm]; split;
        try discriminate; try reflexivity; intros; nia.
    + split; [|reflexivity]. intros _.
      assert (2 ^ 23 <= Z.pos my) as Hn.
      { apply orb_prop in Hy3 as [Hn|Hn]; [apply Z.leb_le in Hn; exact Hn|].
        apply Z.eqb_eq in Hn. lia. }
      pose proof (pow2_step (ex + 1074) (ey + 1074) ltac:(lia) ltac:(lia)) as Hs.
      change (2 ^ 24) with (2 * 2 ^ 23) in Hx2.
      apply Z.mul_lt_mono_pos_r; [exact HD|]. nia.
    + split; [discriminate|]. intros Hq.
      assert (2 ^ 23 <= Z.pos mx) as Hn.
      { apply orb_prop in Hx3 as [Hn|Hn]; [apply Z.leb_le in Hn; exact Hn|].
        apply Z.eqb_eq in Hn. lia. }
      pose proof (pow2_step (ey + 1074) (ex + 1074) ltac:(lia) ltac:(lia)) as Hs.
      change (2 ^ 24) with (2 * 2 ^ 23) in Hy2.
      apply Z.mul_lt_mono_pos_r in Hq; [|exact HD]. nia.
Qed.

#[local] Transparent Z.mul.

Lemma canonical_not_nan (x : spec_float) : canonical x = true -> is_nan x = false.
Proof. destruct x; simpl; congruence. Qed.

(* ================================================================= *)
(** ** View selection *)

Section ViewSelection.
Context `{Ty : Types}.

(** The distance of the code is the rounded distance of the
    specification. *)
Lemma view_distance_rounded (p : Vec6f) (c : Vec3d) :
  view_distance p c = rounded_squared_distance p c.
Proof. reflexivity. Qed.

Lemma exactly_computed_value (p : Vec6f) (c : Vec3d) :
  exactly_computed p c = true ->
  exists q d, canonical (rounded_squared_distance p c) = true /\
    value (rounded_squared_distance p c) = Some q /\
    squared_distance p c = Some d /\ (q == d)%Q.
Proof.
  unfold exactly_computed. intros [Hc H]%andb_prop.
  destruct (value (rounded_squared_distance p c)) as [q|]; [|discriminate].
  destruct (squared_distance p c) as [d|]; [|discriminate].
  apply Qeq_bool_eq in H. eauto 10.
Qed.

(** The distance depends on components 1 to 3 of the pose only. *)
Lemma view_distance_ext (p p' : Vec6f) (c : Vec3d) :
  v6_1 p' = v6_1 p -> v6_2 p' = v6_2 p -> v6_3 p' = v6_3 p ->
  view_distance p' c = view_distance p c.
Proof. unfold view_distance. intros -> -> ->. reflexivity. Qed.

Lemma GetViewIdx_ext (this : Patch_experts) (p p' : Vec6f) (scale : Z) :
  v6_1 p' = v6_1 p -> v6_2 p' = v6_2 p -> v6_3 p' = v6_3 p ->
  GetViewIdx this p' scale = GetViewIdx this p scale.
Proof.
  intros H1 H2 H3. unfold GetViewIdx.
  destruct (nViews this scale) as [n|]; simpl; [|reflexivity].
  unfold for_range. erewrite forM_ext; [reflexivity|].
  intros i st. unfold GetViewIdx_body.
  destruct (vec_at (centers this) scale) as [cs|]; simpl; [|reflexivity].
  destruct (vec_at cs i) as [c|]; simpl; [|reflexivity].
  rewrite (view_distance_ext p p' c H1 H2 H3). reflexivity.
Qed.

Lemma GetViewIdx_body_keeps (this : Patch_experts) (p : Vec6f) (scale : Z)
    (cs : list Vec3d) (i : Z) (st : Z * option float) :
  vec_at (centers this) scale = Ok cs ->
  0 <= i < Z.of_nat (length cs) ->
  best_so_far p cs i st ->
  exists st', GetViewIdx_body this p scale i st = Ok st' /\
              best_so_far p cs (i + 1) st'.
Proof.
  intros Hcs Hi [H0 Hpos]. unfold GetViewIdx_body. rewrite Hcs. simpl.
  destruct (vec_at_defined cs i Hi) as [ci Hci]. rewrite Hci. simpl.
  destruct (Z.eqb_spec i 0) as [->|Hne].
  - eexists. split; [reflexivity|]. split; [lia|]. intros _.
    exists ci. simpl. repeat split; try lia; auto.
    intros j c' Hj Hc'. assert (j = 0) as -> by lia.
    rewrite Hci in Hc'. injection Hc' as <-. apply SFltb_irrefl.
  - destruct Hpos as (c & Hidx & Hc & Hbest & Hmin & Hfirst); [lia|].
    rewrite Hbest.
    destruct (SFltb (view_distance p ci) (view_distance p c)) eqn:Hlt.
    + eexists. split; [reflexivity|]. split; [lia|]. intros _.
      exists ci. simpl. repeat split; try lia; auto.
      * intros j c' Hj Hc'. destruct (Z.eq_dec j i) as [->|Hji].
        -- rewrite Hci in Hc'. injection Hc' as <-. apply SFltb_irrefl.
        -- destruct (SFltb (view_distance p c') (view_distance p ci)) eqn:Hlt';
             [|reflexivity].
           rewrite <- (Hmin j c'); [|lia|exact Hc'].
           symmetry. eapply SFltb_trans; eassumption.
      * intros j c' Hj Hc' Hnan.
        eapply SFltb_below_not_below; [exact Hlt| |exact Hnan].
        apply (Hmin j); [lia | exact Hc'].
    + eexists. split; [reflexivity|]. split; [lia|]. intros _.
      exists c. repeat split; try lia; auto.
      intros j c' Hj Hc'. destruct (Z.eq_dec j i) as [->|Hji].
      * rewrite Hci in Hc'. injection Hc' as <-. exact Hlt.
      * apply (Hmin j); [lia | exact Hc'].
Qed.

(** C3, as the code has it. At a scale with at least one view, for every
    pose, [GetViewIdx] returns an index [idx] of a stored view center such
    that no view has a smaller rounded squared distance to pose components
    1 to 3 under the [<] of the target, and every earlier view whose
    rounded distance is a number has a larger one, so that ties go to the
    first index. When no rounding has changed the distance of any view,
    [idx] minimizes the exact squared Euclidean distance and is the first
    index that does. The result is the same for every pose that agrees on
    components 1, 2 and 3, whatever its components 0, 4 and 5. *)
Theorem GetViewIdx_closest_first (this : Patch_experts) (params_global : Vec6f)
    (scale : Z) (cs : list Vec3d) :
  vec_at (centers this) scale = Ok cs ->
  cs <> [] ->
  exists idx c,
    GetViewIdx this params_global scale = Ok idx /\
    0 <= idx < Z.of_nat (length cs) /\
    vec_at cs idx = Ok c /\
    (forall j c', vec_at cs j = Ok c' ->
       SFltb (rounded_squared_distance params_global c')
             (rounded_squared_distance params_global c) = false) /\
    (forall j c', vec_at cs j = Ok c' -> j < idx ->
       is_nan (rounded_squared_distance params_global c') = false ->
       SFltb (rounded_squared_distance params_global c)
             (rounded_squared_distance params_global c') = true) /\
    ((forall j c', vec_at cs j = Ok c' -> exactly_computed params_global c' = true) ->
     exists d, squared_distance params_global c = Some d /\
       (forall j c' d', vec_at cs j = Ok c' ->
          squared_distance params_global c' = Some d' -> (d <= d')%Q) /\
       (forall j c' d', vec_at cs j = Ok c' -> j < idx ->
          squared_distance params_global c' = Some d' -> (d < d')%Q)) /\
    (forall p', v6_1 p' = v6_1 params_global -> v6_2 p' = v6_2 params_global ->
       v6_3 p' = v6_3 params_global ->
       GetViewIdx this p' scale = Ok idx).
Proof.
  intros Hcs Hne.
  assert (0 < Z.of_nat (length cs)) as Hlen by (destruct cs; [congruence | simpl; lia]).
  destruct (for_range_total (best_so_far params_global cs) 0 (Z.of_nat (length cs))
              (GetViewIdx_body this params_global scale) (0, None))
    as (st & Hrun & Hinv & Hpos).
  - lia.
  - split; [reflexivity | lia].
  - intros i s Hi Hs. eapply GetViewIdx_body_keeps; eauto.
  - destruct Hpos as (c & Hidx & Hc & _ & Hmin & Hfirst); [lia|].
    assert (GetViewIdx this params_global scale = Ok st.1) as Hres.
    { unfold GetViewIdx, nViews. rewrite Hcs. simpl. rewrite Hrun. reflexivity. }
    assert (forall j c', vec_at cs j = Ok c' ->
              SFltb (rounded_squared_distance params_global c')
                    (rounded_squared_distance params_global c) = false) as Hmin'.
    { intros j c' Hc'. rewrite <- !view_distance_rounded.
      apply (Hmin j); [|exact Hc']. apply vec_at_lt in Hc'. lia. }
    assert (forall j c', vec_at cs j = Ok c' -> j < st.1 ->
              is_nan (rounded_squared_distance params_global c') = false ->
              SFltb (rounded_squared_distance params_global c)
                    (rounded_squared_distance params_global c') = true) as Hfirst'.
    { intros j c' Hc' Hj. rewrite <- !view_distance_rounded.
      apply (Hfirst j); [|exact Hc']. apply vec_at_lt in Hc'. lia. }
    exists st.1, c.
    split; [exact Hres|]. split; [lia|]. split; [exact Hc|].
    split; [exact Hmin'|]. split; [exact Hfirst'|]. split.
    + intros Hexact.
      destruct (exactly_computed_value _ _ (Hexact _ _ Hc))
        as (q & d & Hcan & Hq & Hd & Hqd).
      exists d. split; [exact Hd|]. split.
      * intros j c' d' Hc' Hd'.
        destruct (exactly_computed_value _ _ (Hexact _ _ Hc'))
          as (q' & d'' & Hcan' & Hq' & Hd'' & Hqd').
        rewrite Hd' in Hd''. injection Hd'' as <-.
        rewrite <- Hqd, <- Hqd'. apply Qnot_lt_le. intros Hlt.
        apply (SFltb_value _ _ _ _ Hcan' Hcan Hq' Hq) in Hlt.
        rewrite (Hmin' j c' Hc') in Hlt. discriminate Hlt.
      * intros j c' d' Hc' Hj Hd'.
        destruct (exactly_computed_value _ _ (Hexact _ _ Hc'))
          as (q' & d'' & Hcan' & Hq' & Hd'' & Hqd').
        rewrite Hd' in Hd''. injection Hd'' as <-.
        rewrite <- Hqd, <- Hqd'.
        apply (SFltb_value _ _ _ _ Hcan Hcan' Hq Hq').
        apply (Hfirst' j c' Hc' Hj). apply canonical_not_nan. exact Hcan'.
    + intros p' H1 H2 H3. rewrite (GetViewIdx_ext this params_global p' scale H1 H2 H3).
      exact Hres.
Qed.

End ViewSelection.

(* ================================================================= *)
(** ** Collection of the visible landmarks *)

Section Visibility.
Context `{Ty : Types}.

Lemma vec_empty_true {A : Type} (v : list A) : vec_empty v = true <-> v = [].
Proof. destruct v; simpl; split; congruence. Qed.

Lemma vec_empty_false {A : Type} (v : list A) : vec_empty v = false <-> v <> [].
Proof. destruct v; simpl; split; congruence. Qed.

(** One iteration either keeps the list or appends its own index, and
    appends exactly when the landmark needs a response. *)
Lemma Collect_body_spec (this : Patch_experts) (visibilities : list (list Mat_int))
    (scale view_id n i : Z) (vs : list Mat_int) (vis : Mat_int) (l l' : list Z) :
  vec_at visibilities scale = Ok vs ->
  vec_at vs view_id = Ok vis ->
  Mat_rows vis = n ->
  Collect_visible_landmarks_body this visibilities scale view_id n i l = Ok l' ->
  (l' = l ++ [i] /\ needs_response this vis scale view_id i) \/
  (l' = l /\ ~ needs_response this vis scale view_id i).
Proof.
  intros Hvs Hvis Hrows. unfold Collect_visible_landmarks_body, needs_response.
  rewrite Hvs. simpl. rewrite Hvis. simpl.
  rewrite (proj2 (Z.eqb_eq _ _) Hrows).
  destruct (Mat_at vis i 0) as [v|] eqn:Hv; simpl; [|discriminate].
  destruct (Z.eqb_spec v 0) as [->|Hv0]; simpl.
  { intros [= <-]. right. split; [reflexivity|].
    intros [(v' & [= <-] & Hne) _]. congruence. }
  destruct (vec_empty (cen_expert_intensity this)) eqn:Hcen; simpl.
  { intros [= <-]. left. apply vec_empty_true in Hcen. eauto 10. }
  apply vec_empty_false in Hcen.
  destruct (Z.eqb_spec view_id 0) as [Hv00|Hv00].
  - destruct (at3 (cen_expert_intensity this) scale view_id i) as [ex|] eqn:Hex;
      simpl; [|discriminate].
    destruct (vec_empty (biases ex)) eqn:Hb; simpl; intros [= <-].
    + right. split; [reflexivity|]. apply vec_empty_true in Hb.
      intros [_ [?|[?|[_ (ex' & [= <-] & Hne)]]]]; congruence.
    + left. apply vec_empty_false in Hb. eauto 10.
  - intros [= <-]. left. eauto 10.
Qed.

(** One iteration keeps the list or appends its own index. *)
Lemma Collect_body_cases (this : Patch_experts) (visibilities : list (list Mat_int))
    (scale view_id n i : Z) (l l' : list Z) :
  Collect_visible_landmarks_body this visibilities scale view_id n i l = Ok l' ->
  l' = l ++ [i] \/ l' = l.
Proof.
  unfold Collect_visible_landmarks_body. intros H.
  res_inv H; injection H as <-; auto.
Qed.

(** C9. When the visibility matrix at (scale, view) does not have [n] rows,
    [Collect_visible_landmarks] returns the empty list, whatever the
    visibility values and whatever representations are loaded. *)
Theorem Collect_visible_landmarks_rows_mismatch (this : Patch_experts)
    (visibilities : list (list Mat_int)) (scale view_id n : Z)
    (vs : list Mat_int) (vis : Mat_int) :
  vec_at visibilities scale = Ok vs ->
  vec_at vs view_id = Ok vis ->
  Mat_rows vis <> n ->
  Collect_visible_landmarks this visibilities scale view_id n = Ok [].
Proof.
  intros Hvs Hvis Hrows. unfold Collect_visible_landmarks.
  destruct (Z.le_gt_cases n 0) as [Hn|Hn].
  { apply for_range_empty. exact Hn. }
  destruct (for_range_total (fun _ l => l = []) 0 n
              (Collect_visible_landmarks_body this visibilities scale view_id n) [])
    as (l & Hrun & ->); try lia; auto.
  intros i l Hi ->. exists []. split; [|reflexivity].
  unfold Collect_visible_landmarks_body. rewrite Hvs. simpl. rewrite Hvis. simpl.
  destruct (Z.eqb_spec (Mat_rows vis) n); [contradiction | reflexivity].
Qed.

Lemma StronglySorted_snoc (l : list Z) (x : Z) :
  StronglySorted Z.lt l -> (forall y, y ∈ l -> y < x) ->
  StronglySorted Z.lt (l ++ [x]).
Proof.
  induction l as [|a l IH]; simpl; intros Hs Hlt.
  - repeat constructor.
  - apply StronglySorted_inv in Hs as [Hs Ha]. constructor.
    + apply IH; [exact Hs|]. intros y Hy. apply Hlt. right. exact Hy.
    + apply Forall_app. split; [exact Ha|]. constructor; [|constructor].
      apply Hlt. left.
Qed.

(** C2, as the code has it. The list [Collect_visible_landmarks] returns
    is strictly ascending; and when the visibility matrix at (scale, view)
    has exactly [n] rows, an index is a member if and only if it lies in
    [0, n), its visibility is nonzero and no CEN expert is loaded, or the
    view is not frontal, or the landmark's own frontal CEN expert has a
    non-empty bias vector. *)
Theorem Collect_visible_landmarks_members (this : Patch_experts)
    (visibilities : list (list Mat_int)) (scale view_id n : Z)
    (vs : list Mat_int) (vis : Mat_int) (l : list Z) :
  vec_at visibilities scale = Ok vs ->
  vec_at vs view_id = Ok vis ->
  Collect_visible_landmarks this visibilities scale view_id n = Ok l ->
  StronglySorted Z.lt l /\
  (Mat_rows vis = n ->
   forall i, i ∈ l <-> 0 <= i < n /\ needs_response this vis scale view_id i).
Proof.
  intros Hvs Hvis Hrun.
  destruct (Z.le_gt_cases n 0) as [Hn|Hn].
  { unfold Collect_visible_landmarks in Hrun. rewrite for_range_empty in Hrun by lia.
    injection Hrun as <-. split; [constructor|]. intros _ i. split.
    - intros Hi. inversion Hi.
    - lia. }
  pose (P := fun (k : Z) (l : list Z) =>
               StronglySorted Z.lt l /\
               (forall y, y ∈ l -> 0 <= y < k) /\
               (Mat_rows vis = n ->
                forall i, i ∈ l <->
                  0 <= i < k /\ needs_response this vis scale view_id i)).
  assert (P n l) as (Hsorted & _ & Hmem); [|split; auto].
  apply (for_range_inv P 0 n
           (Collect_visible_landmarks_body this visibilities scale view_id n) [] l);
    [lia| | |exact Hrun].
  - split; [constructor|]. split.
    + intros y Hy. inversion Hy.
    + intros _ i. split; [intros Hi; inversion Hi | lia].
  - intros k l0 l1 Hk (Hs & Hrange & Hm) Hbody. split; [|split].
    + destruct (Collect_body_cases _ _ _ _ _ _ _ _ Hbody) as [-> | ->];
        [|exact Hs].
      apply StronglySorted_snoc; [exact Hs|]. intros y Hy%Hrange. lia.
    + destruct (Collect_body_cases _ _ _ _ _ _ _ _ Hbody) as [-> | ->].
      * intros y [Hy%Hrange | ->%list_elem_of_singleton]%elem_of_app; lia.
      * intros y Hy%Hrange. lia.
    + intros Hrows i. specialize (Hm Hrows).
      destruct (Collect_body_spec this visibilities scale view_id n k vs vis l0 l1
                  Hvs Hvis Hrows Hbody) as [[-> Hneed]|[-> Hneed]].
      * rewrite elem_of_app, Hm, list_elem_of_singleton. split.
        -- intros [[Hi Hn']| ->]; [split; [lia|exact Hn'] | split; [lia|exact Hneed]].
        -- intros [Hi Hn']. destruct (Z.eq_dec i k) as [->|Hik]; [right; reflexivity|].
           left. split; [lia | exact Hn'].
      * rewrite Hm. split.
        -- intros [Hi Hn']. split; [lia | exact Hn'].
        -- intros [Hi Hn']. split; [|exact Hn'].
           destruct (Z.eq_dec i k) as [->|Hik]; [contradiction | lia].
Qed.

(** The call is defined whenever the visibility can be read at every index
    below [n] and, with CEN experts at the frontal view, every landmark
    below [n] has an expert slot. *)
Lemma Collect_visible_landmarks_defined (this : Patch_experts)
    (visibilities : list (list Mat_int)) (scale view_id n : Z)
    (vs : list Mat_int) (vis : Mat_int) :
  vec_at visibilities scale = Ok vs ->
  vec_at vs view_id = Ok vis ->
  (forall i, 0 <= i < n -> exists v, Mat_at vis i 0 = Ok v) ->
  (cen_expert_intensity this <> [] -> view_id = 0 ->
   forall i, 0 <= i < n ->
     exists ex, at3 (cen_expert_intensity this) scale view_id i = Ok ex) ->
  exists l, Collect_visible_landmarks this visibilities scale view_id n = Ok l.
Proof.
  intros Hvs Hvis Hread Hslot. unfold Collect_visible_landmarks.
  destruct (Z.le_gt_cases n 0) as [Hn|Hn].
  { exists []. apply for_range_empty. exact Hn. }
  destruct (for_range_total (fun _ _ => True) 0 n
              (Collect_visible_landmarks_body this visibilities scale view_id n) [])
    as (l & Hrun & _); try lia; eauto.
  intros i l Hi _. unfold Collect_visible_landmarks_body.
  rewrite Hvs. simpl. rewrite Hvis. simpl.
  destruct (Mat_rows vis =? n); [|eauto].
  destruct (Hread i Hi) as [v ->]. simpl.
  destruct (negb (v =? 0)); [|eauto].
  destruct (vec_empty (cen_expert_intensity this)) eqn:Hcen; simpl; [eauto|].
  destruct (Z.eqb_spec view_id 0) as [Hv|Hv]; [|eauto].
  apply vec_empty_false in Hcen.
  destruct (Hslot Hcen Hv i Hi) as [ex ->]. simpl.
  destruct (negb (vec_empty (biases ex))); eauto.
Qed.

End Visibility.

(** C9 at the sample SVR store, whose visibility has three rows, asked for
    two landmarks. *)
Lemma Collect_visible_landmarks_rows_mismatch_witness :
  Collect_visible_landmarks Sample.svr_store (visibilities Sample.svr_store) 0 0 2
  = Ok [].
Proof.
  eapply Collect_visible_landmarks_rows_mismatch;
    [reflexivity | reflexivity | vm_compute; discriminate].
Defined.

(** The specification's membership rule fails where the guard on the row
    count applies: three visible landmarks, no CEN expert, [n = 2]; the
    list is empty although landmark 0 is visible. *)
Lemma Collect_as_specified_fails :
  ~ Collect_as_specified Sample.svr_store (visibilities Sample.svr_store) 0 0 2.
Proof.
  intros H.
  destruct (H _ _ [] eq_refl eq_refl eq_refl) as [_ Hmem].
  assert (0 ∈ @nil Z) as Hin.
  { apply Hmem. split; [lia|]. split.
    - exists 1. split; [reflexivity | lia].
    - left. reflexivity. }
  inversion Hin.
Qed.

(** C2 at the sample CEN store: frontal view, three landmarks of which 2 is
    the placeholder of 1; the list is [0; 1]. *)
Lemma Collect_visible_landmarks_members_witness :
  StronglySorted Z.lt [0; 1] /\
  (3 = 3 -> forall i, i ∈ [0; 1] <->
     0 <= i < 3 /\
     needs_response Sample.cen_store (column [1; 1; 1]) 0 0 i).
Proof.
  exact (Collect_visible_landmarks_members Sample.cen_store
           (visibilities Sample.cen_store) 0 0 3 _ _ [0; 1]
           eq_refl eq_refl eq_refl).
Defined.

(** C3 at the store of three views, the first at distance 1 and the other
    two at the frontal pose: no rounding occurs, views 1 and 2 both have
    the least distance, and view 1 is selected. *)
Lemma GetViewIdx_closest_first_witness :
  GetViewIdx Sample.grid_store Sample.pose0 0 = Ok 1 /\
  squared_distance Sample.pose0 Vec3d_zero = Some 0%Q /\
  forall j c' d', vec_at Sample.grid_views j = Ok c' ->
    squared_distance Sample.pose0 c' = Some d' ->
    (0 <= d')%Q /\ (j < 1 -> (0 < d')%Q).
Proof.
  destruct (GetViewIdx_closest_first Sample.grid_store Sample.pose0 0
              Sample.grid_views eq_refl ltac:(discriminate))
    as (idx & c & Hrun & _ & Hc & _ & _ & Hexact & _).
  pose proof Hrun as Hidx. vm_compute in Hidx. injection Hidx as <-.
  pose proof Hc as Hc0. vm_compute in Hc0. injection Hc0 as <-.
  destruct Hexact as (d & Hd & Hmin & Hfirst).
  { intros j c' Hc'. apply vec_at_Ok in Hc' as [Hj Hc'].
    destruct (Z.to_nat j) as [|[|[|n]]]; simpl in Hc'; try discriminate;
      injection Hc' as <-; vm_compute; reflexivity. }
  pose proof Hd as Hd0. vm_compute in Hd0. injection Hd0 as <-.
  split; [exact Hrun|]. split; [exact Hd|].
  intros j c' d' Hc' Hd'. split.
  - exact (Hmin j c' d' Hc' Hd').
  - intros Hj. exact (Hfirst j c' d' Hc' Hj Hd').
Defined.

(** The squared distance of view 0 is [2 ^ -200], which no [float] holds:
    it is rounded to zero and ties with the distance of view 1, which is
    zero. View 0 is selected although view 1 is closer. *)
Lemma GetViewIdx_as_specified_fails :
  ~ GetViewIdx_as_specified Sample.tiny_store Sample.pose0 0.
Proof.
  intros H.
  destruct (H Sample.tiny_views eq_refl ltac:(discriminate))
    as (idx & c & d & Hrun & _ & Hc & Hd & Hmin & _).
  vm_compute in Hrun. injection Hrun as <-.
  vm_compute in Hc. injection Hc as <-.
  vm_compute in Hd. injection Hd as <-.
  specialize (Hmin 1 Vec3d_zero 0%Q eq_refl eq_refl).
  vm_compute in Hmin. apply Hmin. reflexivity.
Qed.

(* ================================================================= *)
(** ** The per-landmark loop of [Response] *)

Section Loop.
Context `{Ex : Externals}.

Lemma active_CEN (this : Patch_experts) :
  vec_empty (cen_expert_intensity this) = false -> active_representation this = CEN.
Proof. unfold active_representation. intros ->. reflexivity. Qed.

Lemma active_CCNF (this : Patch_experts) :
  vec_empty (cen_expert_intensity this) = true ->
  vec_empty (ccnf_expert_intensity this) = false ->
  active_representation this = CCNF.
Proof. unfold active_representation. intros -> ->. reflexivity. Qed.

Lemma active_SVR (this : Patch_experts) :
  vec_empty (cen_expert_intensity this) = true ->
  vec_empty (ccnf_expert_intensity this) = true ->
  active_representation this = SVR.
Proof. unfold active_representation. intros -> ->. reflexivity. Qed.

(** Whatever branch is taken, the dispatch extends the trace by events the
    loop may produce. *)
Lemma dispatch_trace (env : Response_env) (ind w h : Z) (aoi : MatF)
    (st st' : Response_state) :
  dispatch env ind w h aoi st = Ok st' ->
  exists evs, trace st' = trace st ++ evs /\
              Forall (loop_event (env_this env) (env_interp_mat env)) evs.
Proof.
  unfold dispatch. intros H.
  destruct (vec_empty (cen_expert_intensity (env_this env))) eqn:Hcen;
    [destruct (vec_empty (ccnf_expert_intensity (env_this env))) eqn:Hccnf|];
    res_inv H; injection H as <-; simpl;
    try (exists []; split; [symmetry; apply app_nil_r | constructor]);
    try (eexists; split; [reflexivity|];
         repeat constructor; simpl;
         auto using active_CEN, active_CCNF, active_SVR).
Qed.

Lemma Response_body_trace (env : Response_env) (ind : Z) (st st' : Response_state) :
  Response_body env ind st = Ok st' ->
  exists evs, trace st' = trace st ++ evs /\
              Forall (loop_event (env_this env) (env_interp_mat env)) evs.
Proof.
  unfold Response_body. intros H.
  apply bind_Ok in H as ([w h] & Hsize & H).
  apply bind_Ok in H as (sim & Hsim & H).
  apply dispatch_trace in H as (evs & Htr & Hall). simpl in Htr.
  exists (E_GetQuadrangleSubPix h w sim :: evs). split.
  - rewrite Htr, <- app_assoc. reflexivity.
  - constructor; [exact I | exact Hall].
Qed.

Lemma Response_loop_trace (env : Response_env) (vis_lmk : list Z)
    (st st' : Response_state) :
  forM vis_lmk (Response_body env) st = Ok st' ->
  exists evs, trace st' = trace st ++ evs /\
              Forall (loop_event (env_this env) (env_interp_mat env)) evs.
Proof.
  revert st. induction vis_lmk as [|ind l IH]; simpl; intros st H.
  - injection H as <-. exists []. split; [symmetry; apply app_nil_r | constructor].
  - apply bind_Ok in H as (st1 & Hb & H).
    apply Response_body_trace in Hb as (evs1 & Ht1 & Ha1).
    apply IH in H as (evs2 & Ht2 & Ha2).
    exists (evs1 ++ evs2). split.
    + rewrite Ht2, Ht1, <- app_assoc. reflexivity.
    + apply Forall_app. split; assumption.
Qed.

(** The sampling transform of a landmark: rotation and scale are those of
    the reference-to-image similarity, the translation is the landmark's
    own location. *)
Lemma sampling_transform_spec (env : Response_env) (ind : Z) (sim : Mat23f) :
  sampling_transform env ind = Ok sim ->
  s00 sim = env_a1 env /\ s01 sim = SFopp (env_b1 env) /\
  s10 sim = env_b1 env /\ s11 sim = env_a1 env /\
  MatF_at (env_landmark_locations env) ind 0 = Ok (s02 sim) /\
  MatF_at (env_landmark_locations env) (ind + env_n env) 0 = Ok (s12 sim).
Proof.
  unfold sampling_transform, int_add. intros H.
  apply bind_Ok in H as (x & Hx & H).
  apply bind_Ok in H as (indn & Hn & H).
  apply bind_Ok in H as (y & Hy & H).
  apply int_of_Ok in Hn as [-> _].
  injection H as <-. simpl. auto 10.
Qed.

End Loop.

Section Dispatch.
Context `{Ex : Externals}.

Lemma vec_set_defined {A : Type} (v : list A) (i : Z) (r x : A) :
  vec_at v i = Ok r -> vec_set v i x = Ok (<[Z.to_nat i := x]> v).
Proof.
  intros H. apply vec_at_lt in H. apply vec_set_Ok. split; [exact H | reflexivity].
Qed.

Lemma vec_at_insert {A : Type} (v : list A) (i : Z) (r x : A) :
  vec_at v i = Ok r -> vec_at (<[Z.to_nat i := x]> v) i = Ok x.
Proof.
  intros H. apply vec_at_lt in H. apply vec_at_Ok. split; [lia|].
  apply list_lookup_insert_eq. lia.
Qed.

Lemma vec_at_insert_ne {A : Type} (v : list A) (i j : Z) (r x : A) :
  0 <= i -> i <> j -> vec_at v j = Ok r ->
  vec_at (<[Z.to_nat i := x]> v) j = Ok r.
Proof.
  intros Hi Hij [Hj Hl]%vec_at_Ok. apply vec_at_Ok. split; [exact Hj|].
  rewrite list_lookup_insert_ne by lia. exact Hl.
Qed.

(** One iteration at the frontal view of the CEN experts, for a
    landmark [ind] whose own expert has bias vectors: if the landmark is
    its own mirror the iteration extracts its neighbourhood, calls
    [ResponseSparse] once and writes [responses[ind]] only; otherwise it
    extracts a second neighbourhood with the same rotation and scale,
    anchored at the current location of [mirror_id], and calls
    [ResponseSparse_mirror_joint] once, which fills [responses[ind]] and
    [responses[mirror_id]]. Both calls receive the one interpolation
    matrix. *)
Lemma Response_body_frontal_CEN (env : Response_env) (ind : Z)
    (st : Response_state) (w h : Z) (sim : Mat23f) (ex : CEN_patch_expert)
    (mirror_id : Z) (r : MatF) :
  cen_expert_intensity (env_this env) <> [] ->
  env_view_id env = 0 ->
  area_of_interest_size env ind = Ok (w, h) ->
  sampling_transform env ind = Ok sim ->
  at3 (cen_expert_intensity (env_this env)) (env_scale env) 0 ind = Ok ex ->
  biases ex <> [] ->
  Mat_at1 (mirror_inds (env_this env)) ind = Ok mirror_id ->
  vec_at (patch_expert_responses st) ind = Ok r ->
  let aoi := extract env h w sim in
  let interp := env_interp_mat env in
  (mirror_id = ind ->
     Response_body env ind st =
     Ok {| patch_expert_responses :=
             <[Z.to_nat ind := CEN_ResponseSparse ex aoi r interp]>
               (patch_expert_responses st);
           trace := trace st ++
             [E_GetQuadrangleSubPix h w sim;
              E_CEN_ResponseSparse 0 ind aoi ind interp] |}) /\
  (mirror_id <> ind ->
     forall (sim_r : Mat23f) (r_m : MatF),
       sampling_transform env mirror_id = Ok sim_r ->
       vec_at (patch_expert_responses st) mirror_id = Ok r_m ->
       let aoi_r := extract env h w sim_r in
       let rr := CEN_ResponseSparse_mirror_joint ex aoi aoi_r r r_m interp in
       let resp' := <[Z.to_nat mirror_id := rr.2]>
                      (<[Z.to_nat ind := rr.1]> (patch_expert_responses st)) in
       Response_body env ind st =
       Ok {| patch_expert_responses := resp';
             trace := trace st ++
               [E_GetQuadrangleSubPix h w sim;
                E_GetQuadrangleSubPix h w sim_r;
                E_CEN_ResponseSparse_mirror_joint 0 ind aoi aoi_r
                  ind mirror_id interp] |} /\
       vec_at resp' ind = Ok rr.1 /\
       vec_at resp' mirror_id = Ok rr.2 /\
       s00 sim_r = s00 sim /\ s01 sim_r = s01 sim /\
       s10 sim_r = s10 sim /\ s11 sim_r = s11 sim /\
       MatF_at (env_landmark_locations env) mirror_id 0 = Ok (s02 sim_r) /\
       MatF_at (env_landmark_locations env) (mirror_id + env_n env) 0
       = Ok (s12 sim_r)).
Proof.
  intros Hcen Hview Hsize Hsim Hex Hb Hmirror Hr aoi interp.
  apply vec_empty_false in Hcen. apply vec_empty_false in Hb.
  assert (forall st0, patch_expert_responses st0 = patch_expert_responses st ->
            dispatch env ind w h aoi st0 =
            (if mirror_id =? ind then
               Ok {| patch_expert_responses :=
                       <[Z.to_nat ind := CEN_ResponseSparse ex aoi r interp]>
                         (patch_expert_responses st);
                     trace := trace st0 ++
                       [E_CEN_ResponseSparse 0 ind aoi ind interp] |}
             else
               sim_r ← sampling_transform env mirror_id;
               r_m ← vec_at (patch_expert_responses st) mirror_id;
               let rr := CEN_ResponseSparse_mirror_joint ex aoi
                           (extract env h w sim_r) r r_m interp in
               resp2 ← vec_set (<[Z.to_nat ind := rr.1]> (patch_expert_responses st))
                         mirror_id rr.2;
               Ok {| patch_expert_responses := resp2;
                     trace := trace st0 ++
                       [E_GetQuadrangleSubPix h w sim_r;
                        E_CEN_ResponseSparse_mirror_joint 0 ind aoi
                          (extract env h w sim_r) ind mirror_id interp] |}))
    as Hdispatch.
  { intros st0 Hst0. unfold dispatch. rewrite Hcen, Hview, Hst0. simpl.
    rewrite Hex. simpl. rewrite Hb. simpl. rewrite Hmirror. simpl.
    destruct (mirror_id =? ind).
    - rewrite Hr. simpl. rewrite (vec_set_defined _ _ _ _ Hr). reflexivity.
    - destruct (sampling_transform env mirror_id) as [sim_r|]; simpl; [|reflexivity].
      rewrite Hr. simpl.
      destruct (vec_at (patch_expert_responses st) mirror_id) as [r_m|]; simpl;
        [|reflexivity].
      rewrite (vec_set_defined _ _ _ _ Hr). reflexivity. }
  assert (Response_body env ind st =
          dispatch env ind w h aoi
            {| patch_expert_responses := patch_expert_responses st;
               trace := trace st ++ [E_GetQuadrangleSubPix h w sim] |}) as Hbody.
  { unfold Response_body. rewrite Hsize. simpl. rewrite Hsim. reflexivity. }
  rewrite Hbody, Hdispatch by reflexivity. split.
  - intros ->. simpl. rewrite Z.eqb_refl, <- app_assoc. reflexivity.
  - intros Hne sim_r r_m Hsim_r Hr_m aoi_r rr resp'. simpl.
    destruct (Z.eqb_spec mirror_id ind) as [?|_]; [contradiction|].
    rewrite Hsim_r. simpl. rewrite Hr_m. simpl.
    pose proof (vec_at_lt _ _ _ Hr) as Hind.
    pose proof (vec_at_lt _ _ _ Hr_m) as Hmid.
    assert (vec_at (<[Z.to_nat ind := rr.1]> (patch_expert_responses st)) mirror_id
            = Ok r_m) as Hr_m'.
    { apply (vec_at_insert_ne _ ind mirror_id); [lia | congruence | exact Hr_m]. }
    rewrite (vec_set_defined _ _ _ _ Hr_m'). simpl. rewrite <- app_assoc. simpl.
    split; [reflexivity|].
    split.
    { unfold resp'. apply (vec_at_insert_ne _ mirror_id ind); [lia | exact Hne |].
      apply (vec_at_insert _ _ r). exact Hr. }
    split.
    { unfold resp'. apply (vec_at_insert _ _ r_m). exact Hr_m'. }
    apply sampling_transform_spec in Hsim as (-> & -> & -> & -> & _).
    apply sampling_transform_spec in Hsim_r as (-> & -> & -> & -> & Hx & Hy).
    auto 10.
Qed.

(** C10. In the CCNF branch the iteration leaves in [responses[ind]] the
    result of [Response] on the landmark's neighbourhood and a fresh
    window-sized matrix, and changes no other entry; what [ResponseOB]
    computes goes to a local matrix and, through the norm of the
    difference, to the standard output only. *)
Theorem Response_body_CCNF (env : Response_env) (ind : Z)
    (st : Response_state) (w h : Z) (sim : Mat23f) (ex : CCNF_patch_expert)
    (r0 : MatF) :
  cen_expert_intensity (env_this env) = [] ->
  ccnf_expert_intensity (env_this env) <> [] ->
  area_of_interest_size env ind = Ok (w, h) ->
  sampling_transform env ind = Ok sim ->
  at3 (ccnf_expert_intensity (env_this env)) (env_scale env) (env_view_id env) ind
  = Ok ex ->
  vec_at (patch_expert_responses st) ind = Ok r0 ->
  let aoi := extract env h w sim in
  let fresh := MatF_create (env_window_size env) (env_window_size env) in
  Response_body env ind st =
  Ok {| patch_expert_responses :=
          <[Z.to_nat ind := CCNF_Response ex aoi fresh]> (patch_expert_responses st);
        trace := trace st ++
          [E_GetQuadrangleSubPix h w sim;
           E_CCNF_Response ind aoi ind;
           E_CCNF_ResponseOB ind aoi;
           E_cout_double
             (norm_diff (CCNF_ResponseOB ex aoi fresh)
                        (CCNF_Response ex aoi fresh))] |}.
Proof.
  intros Hcen Hccnf Hsize Hsim Hex Hr aoi fresh.
  apply vec_empty_false in Hccnf.
  unfold Response_body. rewrite Hsize. simpl. rewrite Hsim. simpl.
  unfold dispatch. simpl. rewrite Hcen, Hccnf. simpl.
  rewrite (vec_set_defined _ _ _ _ Hr). simpl. rewrite Hex. simpl.
  rewrite (vec_at_insert _ _ _ _ Hr). simpl.
  assert (vec_at (<[Z.to_nat ind := fresh]> (patch_expert_responses st)) ind
          = Ok fresh) as Hfresh by (apply (vec_at_insert _ _ r0); exact Hr).
  rewrite (vec_set_defined _ _ _ _ Hfresh). simpl.
  rewrite list_insert_insert_eq.
  rewrite (vec_at_insert _ _ _ _ Hr). simpl.
  rewrite <- app_assoc. reflexivity.
Qed.

End Dispatch.

(* ================================================================= *)
(** ** The whole of [Response] *)

(** A property of the loop state that every iteration preserves holds when
    the loop is over, however many iterations there were. *)
Lemma for_range_preserves {S : Type} (P : S -> Prop) (lo hi : Z)
    (body : Z -> S -> res S) (s0 s : S) :
  P s0 ->
  (forall i s s', P s -> body i s = Ok s' -> P s') ->
  for_range lo hi body s0 = Ok s -> P s.
Proof.
  intros H0 Hstep Hrun. destruct (Z.le_gt_cases lo hi) as [Hle|Hgt].
  - apply (for_range_inv (fun _ => P) lo hi body s0 s Hle H0); [|exact Hrun].
    intros i s1 s2 _. apply Hstep.
  - rewrite for_range_empty in Hrun by lia. injection Hrun as <-. exact H0.
Qed.

Section Whole.
Context `{Ex : Externals}.

Lemma vec_set_empty {A : Type} (v v' : list A) (i : Z) (x : A) :
  vec_set v i x = Ok v' -> vec_empty v' = vec_empty v.
Proof.
  intros [Hi ->]%vec_set_Ok. destruct v as [|a v]; [simpl in Hi; lia|].
  destruct (Z.to_nat i); reflexivity.
Qed.

Lemma set3_empty {A : Type} (vvv vvv' : list (list (list A))) (a b c : Z) (x : A) :
  set3 vvv a b c x = Ok vvv' -> vec_empty vvv' = vec_empty vvv.
Proof.
  unfold set3. intros H. res_inv H. eapply vec_set_empty. exact H.
Qed.

(** The CCNF precomputation touches the CCNF experts only, keeps their
    collection non-empty, and calls nothing but [ComputeSigmas]. *)
Lemma precompute_sigmas_spec (this this1 : Patch_experts) (use_ccnf : bool)
    (scale view_id n window_size : Z) (evs : list event) :
  precompute_sigmas this use_ccnf scale view_id n window_size = Ok (this1, evs) ->
  cen_expert_intensity this1 = cen_expert_intensity this /\
  vec_empty (ccnf_expert_intensity this1) = vec_empty (ccnf_expert_intensity this) /\
  Forall sigma_event evs.
Proof.
  unfold precompute_sigmas. destruct use_ccnf.
  - intros H. apply bind_Ok in H as (sigma & _ & H).
    apply (for_range_preserves
             (fun st : Patch_experts * list event =>
                cen_expert_intensity st.1 = cen_expert_intensity this /\
                vec_empty (ccnf_expert_intensity st.1)
                = vec_empty (ccnf_expert_intensity this) /\
                Forall sigma_event st.2)) in H; [exact H | simpl; auto |].
    intros i [t e] [t' e'] (Hc & He & Hf) Hb. unfold compute_sigmas_body in Hb.
    simpl in *. res_inv Hb; injection Hb as <- <-; simpl; auto.
    repeat split; [exact Hc | | ].
    + rewrite <- He. eapply set3_empty. eassumption.
    + apply Forall_app. split; [exact Hf | repeat constructor].
  - intros [= <- <-]. auto.
Qed.

Lemma precompute_interp_mat_spec (use_cen : bool) (window_size : Z)
    (interp_mat : MatF) (evs : list event) :
  precompute_interp_mat use_cen window_size = Ok (interp_mat, evs) ->
  if use_cen then
    interp_mat = interpolationMatrix MatF_default window_size window_size
                   (window_size + 10) (window_size + 10) /\
    evs = [E_interpolationMatrix window_size window_size
             (window_size + 10) (window_size + 10)]
  else interp_mat = MatF_default /\ evs = [].
Proof.
  unfold precompute_interp_mat, int_add, int_sub. destruct use_cen.
  - intros H.
    apply bind_Ok in H as (w0 & [-> _]%int_of_Ok & H).
    apply bind_Ok in H as (w & [-> _]%int_of_Ok & H).
    apply bind_Ok in H as (h0 & [-> _]%int_of_Ok & H).
    apply bind_Ok in H as (h & [-> _]%int_of_Ok & H).
    apply bind_Ok in H as (r0 & [-> _]%int_of_Ok & H).
    apply bind_Ok in H as (rs & [-> _]%int_of_Ok & H).
    injection H as <- <-.
    replace (window_size + 11 - 1) with (window_size + 10) by lia.
    replace (window_size + 10 - 11 + 1) with window_size by lia.
    auto.
  - intros [= <- <-]. auto.
Qed.

(** The trace of a completed [Response]: the CCNF precomputation, then the
    interpolation matrix if CEN experts are loaded, then the loop. *)
Lemma Response_trace_shape (this : Patch_experts) (responses0 : list MatF)
    (grayscale_image : Image) (pdm : PDM) (params_global : Vec6f)
    (params_local : MatF) (window_size scale : Z) (r : Response_result) :
  Response this responses0 grayscale_image pdm params_global params_local
    window_size scale = Ok r ->
  exists before interp_mat during loop,
    res_trace r = before ++ during ++ loop /\
    Forall sigma_event before /\
    (if negb (vec_empty (cen_expert_intensity this)) then
       interp_mat = interpolationMatrix MatF_default window_size window_size
                      (window_size + 10) (window_size + 10) /\
       during = [E_interpolationMatrix window_size window_size
                   (window_size + 10) (window_size + 10)]
     else interp_mat = MatF_default /\ during = []) /\
    Forall (loop_event (res_this r) interp_mat) loop /\
    active_representation (res_this r) = active_representation this.
Proof.
  unfold Response. intros H.
  apply bind_Ok in H as (view_id & _ & H).
  apply bind_Ok in H as (ps & _ & H).
  apply bind_Ok in H as ([this1 ev_sigma] & Hsig & H).
  apply bind_Ok in H as ([interp_mat ev_interp] & Hint & H).
  apply bind_Ok in H as (vis_lmk & _ & H).
  apply bind_Ok in H as (st & Hloop & H).
  injection H as <-. simpl.
  apply precompute_sigmas_spec in Hsig as (Hcen & Hccnf & Hsigma).
  apply precompute_interp_mat_spec in Hint.
  apply Response_loop_trace in Hloop as (loop & Htrace & Hall). simpl in *.
  exists ev_sigma, interp_mat, ev_interp, loop. repeat split; auto.
  - rewrite Htrace, <- app_assoc. reflexivity.
  - unfold active_representation. rewrite Hcen, Hccnf. reflexivity.
Qed.

Lemma loop_event_representation (this : Patch_experts) (interp_mat : MatF)
    (e : event) (k : representation) :
  loop_event this interp_mat e -> event_representation e = Some k ->
  k = active_representation this.
Proof.
  destruct e; simpl; try discriminate; intros H [= <-];
    solve [symmetry; exact H | symmetry; exact (proj2 H)].
Qed.

Lemma sigma_event_representation (e : event) :
  sigma_event e -> event_representation e = None.
Proof. destruct e; simpl; intros H; try contradiction; reflexivity. Qed.

(** Every response call of a completed [Response] belongs to the
    representation the priority order selects. *)
Lemma Response_dispatch_active (this : Patch_experts) (responses0 : list MatF)
    (grayscale_image : Image) (pdm : PDM) (params_global : Vec6f)
    (params_local : MatF) (window_size scale : Z) (r : Response_result)
    (e : event) (k : representation) :
  Response this responses0 grayscale_image pdm params_global params_local
    window_size scale = Ok r ->
  e ∈ res_trace r -> event_representation e = Some k ->
  k = active_representation this.
Proof.
  intros H He Hk.
  apply Response_trace_shape in H
    as (before & interp_mat & during & loop & Htr & Hb & Hd & Hl & Hact).
  rewrite <- Hact. rewrite Htr, !elem_of_app in He. destruct He as [He|[He|He]].
  - rewrite Forall_forall in Hb. apply Hb, sigma_event_representation in He.
    congruence.
  - destruct (negb _); destruct Hd as [_ ->].
    + apply list_elem_of_singleton in He as ->. discriminate.
    + inversion He.
  - rewrite Forall_forall in Hl. eapply loop_event_representation; eauto.
Qed.

(** C8. When CEN experts are loaded, a completed [Response] has computed
    exactly one interpolation matrix, after the CCNF precomputation and
    before the first landmark, for an area of interest of
    [window_size + 11 - 1] by [window_size + 11 - 1] and a response of
    [window_size] by [window_size]; and every sparse response call of the
    loop received that matrix. *)
Theorem Response_one_interpolation_matrix (this : Patch_experts)
    (responses0 : list MatF) (grayscale_image : Image) (pdm : PDM)
    (params_global : Vec6f) (params_local : MatF) (window_size scale : Z)
    (r : Response_result) :
  cen_expert_intensity this <> [] ->
  Response this responses0 grayscale_image pdm params_global params_local
    window_size scale = Ok r ->
  let area := window_size + 11 - 1 in
  let interp_mat :=
    interpolationMatrix MatF_default (area - 10) (area - 10) area area in
  area - 10 = window_size /\
  exists before loop,
    res_trace r =
      before ++ [E_interpolationMatrix (area - 10) (area - 10) area area] ++ loop /\
    Forall sigma_event before /\
    Forall (loop_event (res_this r) interp_mat) loop.
Proof.
  intros Hcen H area interp_mat.
  apply Response_trace_shape in H
    as (before & im & during & loop & Htr & Hb & Hd & Hl & _).
  apply vec_empty_false in Hcen. rewrite Hcen in Hd. simpl in Hd.
  destruct Hd as [-> ->].
  assert (area = window_size + 10) as Harea by (unfold area; lia).
  assert (area - 10 = window_size) as Hresp by lia.
  split; [exact Hresp|].
  exists before, loop. unfold interp_mat. rewrite Hresp, Harea. auto.
Qed.

End Whole.

(* ================================================================= *)
(** ** Loading *)

Section Loading.
Context `{Ex : Externals}.

Lemma vec_set_length {A : Type} (v v' : list A) (i : Z) (x : A) :
  vec_set v i x = Ok v' -> length v' = length v.
Proof. intros [_ ->]%vec_set_Ok. apply length_insert. Qed.

Lemma vec_resize_length {A : Type} (d : A) (v v' : list A) (n : Z) :
  vec_resize d v n = Ok v' -> length v' = Z.to_nat n.
Proof.
  unfold vec_resize. destruct (n <? 0); [discriminate|]. intros [= <-].
  rewrite length_app, length_take, length_replicate. lia.
Qed.

Lemma untouched_refl (this : Patch_experts) : untouched this this.
Proof. split; reflexivity. Qed.

Lemma untouched_trans (a b c : Patch_experts) :
  untouched a b -> untouched b c -> untouched a c.
Proof. intros [H1 H2] [H3 H4]. split; congruence. Qed.

Lemma resize_scales_untouched (this this' : Patch_experts) (n : Z) :
  resize_scales this n = Ok this' -> untouched this this'.
Proof.
  unfold resize_scales. intros H. res_inv H. injection H as <-.
  split; reflexivity.
Qed.

Lemma io_store_untouched {P : Type} (this this' : Patch_experts) (scale : Z)
    (io : loader_io P) :
  io_store this scale io = Ok this' -> untouched this this'.
Proof.
  unfold io_store. intros H. res_inv H. injection H as <-. split; reflexivity.
Qed.

Lemma Read_svr_scale_untouched (locations : list string) (scale : Z)
    (st st' : Patch_experts * list event) :
  Read_svr_scale locations scale st = Ok st' -> untouched st.1 st'.1.
Proof.
  unfold Read_svr_scale. intros H. res_inv H. injection H as <-. simpl.
  match goal with Hs : io_store _ _ _ = Ok _ |- _ =>
    apply io_store_untouched in Hs as [Hc He] end.
  match goal with Hv : vec_set _ _ _ = Ok _ |- _ => apply vec_set_length in Hv end.
  unfold untouched, collections, early_term in *. simpl.
  split; [|exact He]. injection Hc as ? ? ?. congruence.
Qed.

Lemma Read_ccnf_scale_untouched (locations : list string) (scale : Z)
    (st st' : Patch_experts * list event) :
  Read_ccnf_scale locations scale st = Ok st' -> untouched st.1 st'.1.
Proof.
  unfold Read_ccnf_scale. intros H. res_inv H. injection H as <-. simpl.
  match goal with Hs : io_store _ _ _ = Ok _ |- _ =>
    apply io_store_untouched in Hs as [Hc He] end.
  match goal with Hv : vec_set _ _ _ = Ok _ |- _ => apply vec_set_length in Hv end.
  unfold untouched, collections, early_term in *. simpl.
  split; [|exact He]. injection Hc as ? ? ?. congruence.
Qed.

Lemma Read_cen_scale_untouched (locations : list string) (scale : Z)
    (st st' : Patch_experts * list event) :
  Read_cen_scale locations scale st = Ok st' -> untouched st.1 st'.1.
Proof.
  unfold Read_cen_scale. intros H. res_inv H. injection H as <-. simpl.
  match goal with Hs : io_store _ _ _ = Ok _ |- _ =>
    apply io_store_untouched in Hs as [Hc He] end.
  match goal with Hv : vec_set _ _ _ = Ok _ |- _ => apply vec_set_length in Hv end.
  unfold untouched, collections, early_term in *. simpl.
  split; [|exact He]. injection Hc as ? ? ?. congruence.
Qed.

Lemma scales_untouched (step : Z -> Patch_experts * list event ->
                               res (Patch_experts * list event))
    (n : Z) (st st' : Patch_experts * list event) :
  (forall i s s', step i s = Ok s' -> untouched s.1 s'.1) ->
  for_range 0 n step st = Ok st' -> untouched st.1 st'.1.
Proof.
  intros Hstep. apply (for_range_preserves (fun s => untouched st.1 s.1)).
  - apply untouched_refl.
  - intros i s s' Hs Hb. eapply untouched_trans; [exact Hs | eauto].
Qed.

Lemma read_doubles_S (k : nat) (f : Stream) :
  read_doubles (S k) f =
  ((read_double f).1 :: (read_doubles k (read_double f).2).1,
   (read_doubles k (read_double f).2).2).
Proof. reflexivity. Qed.

Lemma read_doubles_snoc (k : nat) (f : Stream) :
  read_doubles (S k) f =
  ((read_doubles k f).1 ++ [(read_double (read_doubles k f).2).1],
   (read_double (read_doubles k f).2).2).
Proof.
  revert f. induction k as [|k IH]; intros f; [reflexivity|].
  rewrite read_doubles_S, IH, (read_doubles_S k f). reflexivity.
Qed.

Lemma read_doubles_length (k : nat) (f : Stream) :
  length (read_doubles k f).1 = k.
Proof. revert f. induction k as [|k IH]; intros f; simpl; [|rewrite IH]; reflexivity. Qed.

(** One loop of the early termination block pushes as many values as
    [centers[0]] has entries, in the order they are read. *)
Lemma read_early_term_spec (this : Patch_experts) (acc : list double) (f : Stream)
    (c0 : list Vec3d) :
  vec_at (centers this) 0 = Ok c0 ->
  read_early_term this acc f =
  Ok (acc ++ (read_doubles (length c0) f).1, (read_doubles (length c0) f).2).
Proof.
  intros Hc0. unfold read_early_term. rewrite Hc0. simpl.
  destruct (for_range_total
              (fun i (st : list double * Stream) =>
                 st = (acc ++ (read_doubles (Z.to_nat i) f).1,
                       (read_doubles (Z.to_nat i) f).2))
              0 (Z.of_nat (length c0))
              (fun _ st => let xf := read_double st.2 in Ok (st.1 ++ [xf.1], xf.2))
              (acc, f)) as (st & Hrun & Hst).
  - lia.
  - simpl. rewrite app_nil_r. reflexivity.
  - intros i s Hi ->. eexists. split; [reflexivity|]. simpl.
    replace (Z.to_nat (i + 1)) with (S (Z.to_nat i)) by lia.
    rewrite read_doubles_snoc. simpl. rewrite <- app_assoc. reflexivity.
  - rewrite Hst, Nat2Z.id in Hrun. exact Hrun.
Qed.

Lemma Read_early_term_spec (this this' : Patch_experts) (early_term_loc : string) :
  Read_early_term this early_term_loc = Ok this' ->
  collections this' = collections this /\
  centers this' = centers this /\
  (string_empty early_term_loc = true -> this' = this) /\
  (string_empty early_term_loc = false ->
   exists c0, vec_at (centers this) 0 = Ok c0 /\
     let k := length c0 in
     let w := read_doubles k (ifstream_open early_term_loc) in
     let b := read_doubles k w.2 in
     let c := read_doubles k b.2 in
     early_term this' =
       (early_term_weights this ++ w.1,
        early_term_biases this ++ b.1,
        early_term_cutoffs this ++ c.1)).
Proof.
  unfold Read_early_term. destruct (string_empty early_term_loc); simpl.
  { intros [= <-]. repeat split; auto. discriminate. }
  intros H.
  destruct (vec_at (centers this) 0) as [c0|] eqn:Hc0.
  2:{ unfold read_early_term in H. rewrite Hc0 in H. discriminate. }
  rewrite !(read_early_term_spec this _ _ c0 Hc0) in H. simpl in H.
  rewrite !(read_early_term_spec this _ _ c0 Hc0) in H. simpl in H.
  rewrite !(read_early_term_spec this _ _ c0 Hc0) in H. simpl in H.
  injection H as <-. repeat split; try discriminate.
  intros _. exists c0. split; reflexivity.
Qed.

(** The loading part of [Read]: every expert collection named by a
    non-empty path list ends with one slot per path, whether or not the
    files could be opened; the other collections and the early
    termination arrays are as they were. *)
Lemma Read_loads (this this' : Patch_experts) (svr ccnf cen : list string)
    (early : string) (out out' : list event) :
  Read this svr ccnf cen early out = Ok (this', out') ->
  exists loaded,
    Read_early_term loaded early = Ok this' /\
    early_term loaded = early_term this /\
    collections loaded =
      (length svr,
       match ccnf with [] => length (ccnf_expert_intensity this) | _ => length ccnf end,
       match cen with [] => length (cen_expert_intensity this) | _ => length cen end).
Proof.
  unfold Read. intros H.
  apply bind_Ok in H as (t1 & [Hc1 He1]%resize_scales_untouched & H).
  apply bind_Ok in H as (svr1 & Hsvr%vec_resize_length & H).
  apply bind_Ok in H as ([t2 o2] & Hl2 & H).
  apply scales_untouched in Hl2 as [Hc2 He2];
    [|intros; eapply Read_svr_scale_untouched; eauto].
  apply bind_Ok in H as (t3 & H3 & H).
  apply bind_Ok in H as ([t4 o4] & Hl4 & H).
  apply scales_untouched in Hl4 as [Hc4 He4];
    [|intros; eapply Read_ccnf_scale_untouched; eauto].
  apply bind_Ok in H as (t5 & H5 & H).
  apply bind_Ok in H as ([t6 o6] & Hl6 & H).
  apply scales_untouched in Hl6 as [Hc6 He6];
    [|intros; eapply Read_cen_scale_untouched; eauto].
  apply bind_Ok in H as (t7 & H7 & H). injection H as <- <-.
  exists t6. split; [exact H7|]. simpl in *.
  assert (collections t3 =
          (length svr,
           match ccnf with [] => length (ccnf_expert_intensity this) | _ => length ccnf end,
           length (cen_expert_intensity this)) /\ early_term t3 = early_term this)
    as [Hc3 He3].
  { unfold collections, early_term in *. simpl in *.
    injection Hc1 as ? ? ?. injection Hc2 as ? ? ?.
    destruct ccnf as [|loc ccnf'].
    - simpl in H3. injection H3 as <-. split; [|congruence].
      rewrite Nat2Z.id in Hsvr. congruence.
    - change (0 <? Z.of_nat (length (loc :: ccnf'))) with true in H3.
      apply bind_Ok in H3 as (ta & [Hca Hea]%resize_scales_untouched & H3).
      apply bind_Ok in H3 as (ccnf1 & Hccnf%vec_resize_length & H3).
      injection H3 as <-. unfold collections, early_term in *. simpl in *.
      injection Hca as ? ? ?. rewrite Nat2Z.id in Hsvr, Hccnf.
      split; [|congruence]. f_equal; [f_equal|]; congruence. }
  assert (collections t5 =
          (length svr,
           match ccnf with [] => length (ccnf_expert_intensity this) | _ => length ccnf end,
           match cen with [] => length (cen_expert_intensity this) | _ => length cen end)
          /\ early_term t5 = early_term this)
    as [Hc5 He5].
  { destruct cen as [|loc cen'].
    - simpl in H5. injection H5 as <-. split; congruence.
    - change (0 <? Z.of_nat (length (loc :: cen'))) with true in H5.
      apply bind_Ok in H5 as (ta & [Hca Hea]%resize_scales_untouched & H5).
      apply bind_Ok in H5 as (cen1 & Hcen%vec_resize_length & H5).
      injection H5 as <-. unfold collections, early_term in *. simpl in *.
      injection Hca as ? ? ?. injection Hc4 as ? ? ?. injection Hc3 as ? ? ?.
      rewrite Nat2Z.id in Hcen.
      split; [|congruence]. f_equal; [f_equal|]; congruence. }
  split; congruence.
Qed.

End Loading.

Section Priority.
Context `{Ex : Externals}.

Lemma vec_empty_length {A : Type} (v : list A) :
  vec_empty v = match length v with O => true | S _ => false end.
Proof. destruct v; reflexivity. Qed.

(** [Read] with a non-empty list of CEN paths makes the representation in
    use CEN, whatever SVR and CCNF data is resident; with CCNF paths and
    no CEN expert it is CCNF, and with neither it is SVR. *)
Lemma Read_active_representation (this this' : Patch_experts)
    (svr ccnf cen : list string) (early : string) (out out' : list event) :
  Read this svr ccnf cen early out = Ok (this', out') ->
  (cen <> [] -> active_representation this' = CEN) /\
  (cen = [] -> cen_expert_intensity this = [] -> ccnf <> [] ->
     active_representation this' = CCNF) /\
  (cen = [] -> cen_expert_intensity this = [] ->
   ccnf = [] -> ccnf_expert_intensity this = [] ->
     active_representation this' = SVR).
Proof.
  intros Hread.
  apply Read_loads in Hread as (loaded & Hearly & _ & Hc).
  apply Read_early_term_spec in Hearly as (Hc' & _).
  rewrite Hc in Hc'. unfold collections in Hc'. injection Hc' as _ Hccnf Hcen.
  unfold active_representation. rewrite !vec_empty_length, Hccnf, Hcen.
  repeat split.
  - intros Hne. destruct cen; [contradiction | reflexivity].
  - intros -> -> Hne. destruct ccnf; [contradiction | reflexivity].
  - intros -> -> -> ->. reflexivity.
Qed.

(** C5, as the code has it. A loader whose file cannot be opened prints
    the diagnostic and returns its four output arguments, and the members
    of [this] it assigns, as they were on entry. The collection it loads
    into was sized by [Read] beforehand, one slot per path, and stays so:
    after [Read] each collection with a non-empty path list is non-empty,
    whether or not its files could be opened. *)
Theorem loaders_unopened (location : string)
    (io_svr : loader_io Multi_SVR_patch_expert)
    (io_ccnf : loader_io CCNF_patch_expert) (io_cen : loader_io CEN_patch_expert)
    (this_sigma : list (list MatF)) (this_mirror : Mat_int * Mat_int)
    (log : list event) :
  is_open (ifstream_open location) = false ->
  Read_SVR_patch_experts location io_svr log
  = Ok (io_svr, log ++ [E_cout cant_open]) /\
  Read_CCNF_patch_experts location this_sigma io_ccnf log
  = Ok (io_ccnf, this_sigma, log ++ [E_cout cant_open]) /\
  Read_CEN_patch_experts location this_mirror io_cen log
  = Ok (io_cen, this_mirror, log ++ [E_cout cant_open]) /\
  (forall this this' svr ccnf cen early out out',
     Read this svr ccnf cen early out = Ok (this', out') ->
     collections this' =
       (length svr,
        match ccnf with [] => length (ccnf_expert_intensity this) | _ => length ccnf end,
        match cen with [] => length (cen_expert_intensity this) | _ => length cen end)).
Proof.
  intros Hclosed.
  unfold Read_SVR_patch_experts, Read_CCNF_patch_experts, Read_CEN_patch_experts.
  rewrite Hclosed. repeat split.
  intros this this' svr ccnf cen early out out' Hread.
  apply Read_loads in Hread as (loaded & Hearly & _ & Hc).
  apply Read_early_term_spec in Hearly as (Hc' & _). congruence.
Qed.

(** C7, as the code has it. [Read] leaves the early termination arrays as
    they were when the path is empty. Otherwise it appends to each of them
    one value per view center of scale 0, that is [centers[0].size()]
    values: first all the weights, then all the biases, then all the
    cutoffs, in the order the file has them. *)
Theorem Read_early_termination (this this' : Patch_experts)
    (svr ccnf cen : list string) (early : string) (out out' : list event) :
  Read this svr ccnf cen early out = Ok (this', out') ->
  (string_empty early = true -> early_term this' = early_term this) /\
  (string_empty early = false ->
   exists c0, vec_at (centers this') 0 = Ok c0 /\
     let k := length c0 in
     let w := read_doubles k (ifstream_open early) in
     let b := read_doubles k w.2 in
     let c := read_doubles k b.2 in
     early_term this' =
       (early_term_weights this ++ w.1,
        early_term_biases this ++ b.1,
        early_term_cutoffs this ++ c.1) /\
     length w.1 = k /\ length b.1 = k /\ length c.1 = k).
Proof.
  intros Hread.
  apply Read_loads in Hread as (loaded & Hearly & He & _).
  apply Read_early_term_spec in Hearly as (_ & Hcenters & Hempty & Hfull).
  split.
  - intros Hs. rewrite (Hempty Hs). exact He.
  - intros Hs. destruct (Hfull Hs) as (c0 & Hc0 & Hterm).
    exists c0. rewrite Hcenters. split; [exact Hc0|].
    simpl in *. rewrite Hterm. unfold early_term in He. injection He as -> -> ->.
    rewrite !read_doubles_length. auto.
Qed.

End Priority.

(* ================================================================= *)
(** ** The copy constructor *)

Section CopyConstructor.
Import Heap.
Variables SVR_obj CCNF_obj CEN_obj : Type.
Variable SVR_copy : SVR_obj -> heap -> SVR_obj * heap.
Variable CCNF_copy : CCNF_obj -> heap -> CCNF_obj * heap.
Variable CEN_copy : CEN_obj -> heap -> CEN_obj * heap.

Lemma clone_spec (m : Mat) (h : heap) :
  h `prefix_of` (clone m h).2 /\ fresh h (clone m h).1 /\
  rows (clone m h).1 = rows m /\ cols (clone m h).1 = cols m.
Proof.
  unfold clone, fresh. destruct (data m) as [l|] eqn:Hd; simpl.
  - repeat split; [eexists; reflexivity|]. intros l' [= <-]. lia.
  - repeat split; [reflexivity|]. rewrite Hd. discriminate.
Qed.

Lemma fresh_mono (h h' : heap) (m : Mat) :
  h `prefix_of` h' -> fresh h' m -> fresh h m.
Proof.
  intros Hp Hf l Hl. apply prefix_length in Hp. specialize (Hf l Hl). lia.
Qed.

Lemma fresh_all_mono (h h' : heap) (mss : list (list Mat)) :
  h `prefix_of` h' -> Forall (Forall (fresh h')) mss -> Forall (Forall (fresh h)) mss.
Proof.
  intros Hp H. eapply Forall_impl; [exact H|]. intros ms Hms.
  eapply Forall_impl; [exact Hms|]. intros m. apply fresh_mono. exact Hp.
Qed.

(** Copying a vector element by element only allocates, when copying an
    element does. *)
Lemma mapS_prefix {A B : Type} (f : A -> heap -> B * heap) (l : list A) (h : heap) :
  (forall x h, h `prefix_of` (f x h).2) -> h `prefix_of` (mapS f l h).2.
Proof.
  intros Hf. revert h. induction l as [|x l IH]; intros h; simpl; [reflexivity|].
  etransitivity; [apply (Hf x) | apply IH].
Qed.

Lemma mapS3_prefix {A B : Type} (f : A -> heap -> B * heap)
    (l : list (list (list A))) (h : heap) :
  (forall x h, h `prefix_of` (f x h).2) ->
  h `prefix_of` (mapS (mapS (mapS f)) l h).2.
Proof.
  intros Hf. apply mapS_prefix. intros l2 h2. apply mapS_prefix.
  intros l1 h1. apply mapS_prefix. exact Hf.
Qed.

Lemma mapS_clone_fresh (ms : list Mat) (h : heap) :
  h `prefix_of` (mapS clone ms h).2 /\ Forall (fresh h) (mapS clone ms h).1.
Proof.
  revert h. induction ms as [|m ms IH]; intros h; simpl.
  - split; [reflexivity | constructor].
  - destruct (clone_spec m h) as (Hp & Hf & _).
    destruct (IH (clone m h).2) as [Hp' Hf']. split.
    + etransitivity; eassumption.
    + constructor; [exact Hf|].
      eapply Forall_impl; [exact Hf'|]. intros m'. apply fresh_mono. exact Hp.
Qed.

Lemma mapS_mapS_clone_fresh (mss : list (list Mat)) (h : heap) :
  h `prefix_of` (mapS (mapS clone) mss h).2 /\
  Forall (Forall (fresh h)) (mapS (mapS clone) mss h).1.
Proof.
  revert h. induction mss as [|ms mss IH]; intros h; simpl.
  - split; [reflexivity | constructor].
  - destruct (mapS_clone_fresh ms h) as [Hp Hf].
    destruct (IH (mapS clone ms h).2) as [Hp' Hf']. split.
    + etransitivity; eassumption.
    + constructor; [exact Hf|]. eapply fresh_all_mono; eassumption.
Qed.

(** What the body of the copy constructor achieves: provided the copy
    constructors of the experts only allocate, every matrix of
    [sigma_components] and of [visibilities] in the copy has a buffer that
    did not exist before the copy. *)
Lemma copy_constructor_clones (other : Patch_experts SVR_obj CCNF_obj CEN_obj)
    (h : heap) :
  (forall e h, h `prefix_of` (SVR_copy e h).2) ->
  (forall e h, h `prefix_of` (CCNF_copy e h).2) ->
  (forall e h, h `prefix_of` (CEN_copy e h).2) ->
  let copy := copy_constructor SVR_copy CCNF_copy CEN_copy other h in
  Forall (Forall (fresh h)) (sigma_components copy.1) /\
  Forall (Forall (fresh h)) (visibilities copy.1).
Proof.
  intros Hsvr Hccnf Hcen. unfold copy_constructor. simpl.
  set (h1 := (mapS (mapS (mapS SVR_copy)) (svr_expert_intensity other) h).2).
  set (h2 := (mapS (mapS (mapS CCNF_copy)) (ccnf_expert_intensity other) h1).2).
  set (h3 := (mapS (mapS (mapS CEN_copy)) (cen_expert_intensity other) h2).2).
  assert (h `prefix_of` h3) as Hp.
  { transitivity h1; [apply mapS3_prefix; exact Hsvr|].
    transitivity h2; [apply mapS3_prefix; exact Hccnf|].
    apply mapS3_prefix; exact Hcen. }
  destruct (mapS_mapS_clone_fresh (sigma_components other) h3) as [Hp4 Hf4].
  destruct (mapS_mapS_clone_fresh (visibilities other)
              (mapS (mapS clone) (sigma_components other) h3).2) as [_ Hf5].
  split.
  - eapply fresh_all_mono; eassumption.
  - eapply fresh_all_mono; [|exact Hf5]. etransitivity; eassumption.
Qed.

(** What it misses: the two mirror tables are copied by the member
    initialisers, header for header, and keep the buffers of [other]. *)
Lemma copy_constructor_aliases (other : Patch_experts SVR_obj CCNF_obj CEN_obj)
    (h : heap) :
  let copy := copy_constructor SVR_copy CCNF_copy CEN_copy other h in
  data (mirror_inds copy.1) = data (mirror_inds other) /\
  data (mirror_views copy.1) = data (mirror_views other).
Proof. split; reflexivity. Qed.

End CopyConstructor.

(** C6 fails on the code. The copy of [Heap.store0] has its own buffers
    for the basis matrix and the visibility, but its [mirror_inds] and
    [mirror_views] point at the buffers of the original: an assignment
    to [mirror_inds.at<int>(1)] of the copy is read back through the
    original, while an assignment to the visibility of the copy is not. *)
Theorem copy_constructor_shares_mirror_storage :
  let copy := Heap.copy0.1 in
  let h := Heap.copy0.2 in
  Heap.copy_constructor Heap.keep Heap.keep Heap.keep Heap.store0 Heap.heap0
  = Heap.copy0 /\
  Heap.data (Heap.mirror_inds copy) = Heap.data (Heap.mirror_inds Heap.store0) /\
  Heap.data (Heap.mirror_views copy) = Heap.data (Heap.mirror_views Heap.store0) /\
  Heap.Mat_read h (Heap.mirror_inds Heap.store0) 1 = Some 2 /\
  Heap.Mat_read (Heap.Mat_write h (Heap.mirror_inds copy) 1 7)
    (Heap.mirror_inds Heap.store0) 1 = Some 7 /\
  (forall v v0, Heap.visibilities copy = [[v]] ->
     Heap.visibilities Heap.store0 = [[v0]] ->
     Heap.Mat_read h v0 0 = Some 1 /\
     Heap.Mat_read (Heap.Mat_write h v 0 0) v0 0 = Some 1).
Proof.
  do 5 (split; [reflexivity|]).
  intros v v0 [= <-] [= <-]. split; reflexivity.
Qed.

(* ================================================================= *)
(** ** The properties at the sample files *)

Section AtSample.
Import Sample.

(** The file "missing.dat" is not there: the CEN loader leaves its
    arguments alone, yet the CEN collection has its one slot. *)
Lemma loaders_unopened_witness :
  is_open (ifstream_open "missing.dat") = false /\
  Read_CEN_patch_experts "missing.dat" (Mat_int_empty, Mat_int_empty)
    {| io_centers := []; io_visibility := []; io_patches := [];
       io_scale := S754_zero false |} []
  = Ok ({| io_centers := []; io_visibility := []; io_patches := [];
           io_scale := S754_zero false |},
        (Mat_int_empty, Mat_int_empty), [E_cout cant_open]).
Proof.
  split; [reflexivity|].
  apply (loaders_unopened "missing.dat"
           {| io_centers := []; io_visibility := []; io_patches := [];
              io_scale := S754_zero false |}
           {| io_centers := []; io_visibility := []; io_patches := [];
              io_scale := S754_zero false |}
           {| io_centers := []; io_visibility := []; io_patches := [];
              io_scale := S754_zero false |} [] (Mat_int_empty, Mat_int_empty) []).
  reflexivity.
Defined.

(** With an SVR file that loads and a CEN file that cannot be opened the
    CEN collection is not empty and the dispatch does not fall through to
    SVR. *)
Lemma unopened_falls_through_fails :
  ~ unopened_falls_through_as_specified Sample.empty_store
      ["svr.txt"] [] ["missing.dat"] EmptyString.
Proof.
  intros H.
  destruct (H Sample.cen_missing_store
              [reading "SVR" "svr.txt"; E_cout "Done";
               reading "CEN" "missing.dat"; E_cout cant_open]) as [Hcen _].
  - reflexivity.
  - repeat constructor.
  - vm_compute. reflexivity.
  - discriminate Hcen.
Qed.

(** There [Response] selects CEN and runs off the end of the empty slot. *)
Example unopened_Response_faults :
  active_representation Sample.cen_missing_store = CEN /\
  Response Sample.cen_missing_store [[]; []; []] tt Sample.pdm3 Sample.pose0 [] 3 0
  = Fault OutOfRange.
Proof. split; vm_compute; reflexivity. Qed.

(** C7 at the sample files: two views at scale 0, so two weights, two
    biases and two cutoffs, taken from the file in that order. *)
Lemma Read_early_termination_witness :
  exists c0, vec_at (centers Sample.cen_store) 0 = Ok c0 /\
    let k := length c0 in
    let w := read_doubles k (ifstream_open "early.txt") in
    let b := read_doubles k w.2 in
    let c := read_doubles k b.2 in
    early_term Sample.cen_store = ([] ++ w.1, [] ++ b.1, [] ++ c.1) /\
    length w.1 = k /\ length b.1 = k /\ length c.1 = k.
Proof.
  assert (Read Sample.empty_store ["svr.txt"] [] ["cen.dat"] "early.txt" []
          = Ok (Sample.cen_store,
                [reading "SVR" "svr.txt"; E_cout "Done";
                 reading "CEN" "cen.dat"; E_cout "Done"])) as Hread
    by (vm_compute; reflexivity).
  apply (Read_early_termination _ _ _ _ _ _ _ _ Hread). reflexivity.
Defined.

(** The sample model has three landmarks and two views: the arrays have two
    entries each, not three. *)
Lemma early_term_per_landmark_fails :
  ~ early_term_per_landmark_as_specified Sample.empty_store
      ["svr.txt"] [] ["cen.dat"] "early.txt".
Proof.
  intros H.
  destruct (H Sample.cen_store
              [reading "SVR" "svr.txt"; E_cout "Done";
               reading "CEN" "cen.dat"; E_cout "Done"]
              [column [1; 1; 1]; column [1; 1; 0]] (column [1; 1; 1]))
    as (Hw & _); try (vm_compute; reflexivity).
  vm_compute in Hw. discriminate Hw.
Qed.

End AtSample.

(* ================================================================= *)
(** ** The loop at the sample files *)

Section LoopAtSample.
Import Sample.

(** The iteration for landmark 1 of the sample CEN store, whose mirror is
    landmark 2: one joint call fills both slots. *)
Example Response_body_joint_mirror :
  Response_body cen_env 1 state0 =
  Ok {| patch_expert_responses := [[]; [6; 100; 13; 13]; [7; 100; 13; 13]];
        trace :=
          [E_GetQuadrangleSubPix 13 13
             {| s00 := of_Z 1; s01 := SFopp (SFopp (of_Z 0)); s02 := of_Z 20;
                s10 := SFopp (of_Z 0); s11 := of_Z 1; s12 := of_Z 10 |};
           E_GetQuadrangleSubPix 13 13
             {| s00 := of_Z 1; s01 := SFopp (SFopp (of_Z 0)); s02 := of_Z 30;
                s10 := SFopp (of_Z 0); s11 := of_Z 1; s12 := of_Z 10 |};
           E_CEN_ResponseSparse_mirror_joint 0 1 [100; 13; 13] [100; 13; 13]
             1 2 [7; 3; 3; 13; 13]] |}.
Proof.
  edestruct (Response_body_frontal_CEN cen_env 1 state0) as [_ Hjoint];
    [discriminate | reflexivity | reflexivity | reflexivity | reflexivity
    | discriminate | reflexivity | reflexivity |].
  edestruct Hjoint as [Hrun _]; [discriminate | reflexivity | reflexivity |].
  exact Hrun.
Defined.

(** Landmark 0 is its own mirror: one sparse call, one slot. *)
Example Response_body_self_mirror :
  Response_body cen_env 0 state0 =
  Ok {| patch_expert_responses := [[4; 100; 13; 13]; []; []];
        trace :=
          [E_GetQuadrangleSubPix 13 13
             {| s00 := of_Z 1; s01 := SFopp (SFopp (of_Z 0)); s02 := of_Z 10;
                s10 := SFopp (of_Z 0); s11 := of_Z 1; s12 := of_Z 10 |};
           E_CEN_ResponseSparse 0 0 [100; 13; 13] 0 [7; 3; 3; 13; 13]] |}.
Proof. vm_compute. reflexivity. Qed.

(** C10 at landmark 0 of the sample CCNF store. *)
Lemma Response_body_CCNF_witness :
  Response_body ccnf_env 0 state0 =
  Ok {| patch_expert_responses := [[2; 100; 13; 13]; []; []];
        trace :=
          [E_GetQuadrangleSubPix 13 13
             {| s00 := of_Z 1; s01 := SFopp (SFopp (of_Z 0)); s02 := of_Z 10;
                s10 := SFopp (of_Z 0); s11 := of_Z 1; s12 := of_Z 10 |};
           E_CCNF_Response 0 [100; 13; 13] 0;
           E_CCNF_ResponseOB 0 [100; 13; 13];
           E_cout_double (S754_zero false)] |}.
Proof.
  erewrite (Response_body_CCNF ccnf_env 0 state0);
    [reflexivity | reflexivity | discriminate | reflexivity | reflexivity
    | reflexivity | reflexivity].
Defined.

(** C8 at the sample CEN store with window size 3: one interpolation
    matrix, for a 13 x 13 area and a 3 x 3 response. *)
Lemma Response_one_interpolation_matrix_witness :
  let area := 3 + 11 - 1 in
  let interp_mat :=
    interpolationMatrix MatF_default (area - 10) (area - 10) area area in
  area - 10 = 3 /\
  exists before loop,
    res_trace cen_response =
      before ++ [E_interpolationMatrix (area - 10) (area - 10) area area] ++ loop /\
    Forall sigma_event before /\
    Forall (loop_event (res_this cen_response) interp_mat) loop.
Proof.
  apply (Response_one_interpolation_matrix cen_store [[]; []; []] tt pdm3 pose0 [] 3 0).
  - discriminate.
  - vm_compute. reflexivity.
Defined.

(** A pose half a radian to the side is closer to the profile view, and of
    two views with the same center the first is selected. *)
Example GetViewIdx_profile :
  GetViewIdx cen_store
    {| v6_0 := of_Z 1; v6_1 := fzero; v6_2 := binary_normalize 24 128 1 (-1) false;
       v6_3 := fzero; v6_4 := fzero; v6_5 := fzero |} 0 = Ok 1.
Proof. vm_compute. reflexivity. Qed.

Example GetViewIdx_tie :
  GetViewIdx (with_scales empty_store [[Vec3d_zero; Vec3d_zero; Vec3d_zero]] [] [])
    pose0 0 = Ok 0.
Proof. vm_compute. reflexivity. Qed.

(** A distance that is not a number is never below the running best and
    nothing is below it: a NaN in the pose leaves view 0 selected. *)
Example GetViewIdx_nan :
  GetViewIdx cen_store
    {| v6_0 := of_Z 1; v6_1 := fzero; v6_2 := S754_nan;
       v6_3 := fzero; v6_4 := fzero; v6_5 := fzero |} 0 = Ok 0.
Proof. vm_compute. reflexivity. Qed.

End LoopAtSample.

(* ================================================================= *)
(** * Further properties *)

(** ** View selection at the edges *)

Section FewViews.
Context `{Ty : Types}.

(** X1. At a scale with no view or a single view [GetViewIdx] returns 0 for
    every pose; for a scale with no view at all this 0 is not the index of
    a view. *)
Theorem GetViewIdx_few_views (this : Patch_experts) (params_global : Vec6f)
    (scale : Z) (cs : list Vec3d) :
  vec_at (centers this) scale = Ok cs ->
  (length cs <= 1)%nat ->
  GetViewIdx this params_global scale = Ok 0 /\
  (cs = [] -> vec_at cs 0 = Fault OutOfRange).
Proof.
  intros Hcs Hlen. split; [|intros ->; reflexivity].
  unfold GetViewIdx, nViews. rewrite Hcs. simpl.
  destruct cs as [|c [|c' cs]]; [| |simpl in Hlen; lia].
  - rewrite for_range_empty by (simpl; lia). reflexivity.
  - unfold for_range. simpl length. change (Z.of_nat 1 - 0) with 1.
    rewrite seqZ_cons, seqZ_nil by lia. simpl.
    unfold GetViewIdx_body. rewrite Hcs. reflexivity.
Qed.

End FewViews.

(** ** The remaining branches of the dispatch *)

Section OtherBranches.
Context `{Ex : Externals}.

(** X2. With CEN experts loaded and a view other than the frontal one, the
    iteration for landmark [ind] makes one extraction and one call, which
    rewrites [responses[ind]] only: [ResponseSparse] of the landmark's own
    expert when that has bias vectors, and otherwise
    [ResponseSparse_mirror] of the expert stored at view
    [mirror_views[view_id]] for landmark [mirror_inds[ind]], on the
    landmark's own neighbourhood. *)
Theorem Response_body_nonfrontal_CEN (env : Response_env) (ind : Z)
    (st : Response_state) (w h : Z) (sim : Mat23f) (ex : CEN_patch_expert)
    (r : MatF) :
  cen_expert_intensity (env_this env) <> [] ->
  env_view_id env <> 0 ->
  area_of_interest_size env ind = Ok (w, h) ->
  sampling_transform env ind = Ok sim ->
  at3 (cen_expert_intensity (env_this env)) (env_scale env) (env_view_id env) ind
  = Ok ex ->
  vec_at (patch_expert_responses st) ind = Ok r ->
  let aoi := extract env h w sim in
  let interp := env_interp_mat env in
  (biases ex <> [] ->
     Response_body env ind st =
     Ok {| patch_expert_responses :=
             <[Z.to_nat ind := CEN_ResponseSparse ex aoi r interp]>
               (patch_expert_responses st);
           trace := trace st ++
             [E_GetQuadrangleSubPix h w sim;
              E_CEN_ResponseSparse (env_view_id env) ind aoi ind interp] |}) /\
  (biases ex = [] ->
     forall (mv mi : Z) (ex_m : CEN_patch_expert),
       Mat_at1 (mirror_views (env_this env)) (env_view_id env) = Ok mv ->
       Mat_at1 (mirror_inds (env_this env)) ind = Ok mi ->
       at3 (cen_expert_intensity (env_this env)) (env_scale env) mv mi = Ok ex_m ->
       Response_body env ind st =
       Ok {| patch_expert_responses :=
               <[Z.to_nat ind := CEN_ResponseSparse_mirror ex_m aoi r interp]>
                 (patch_expert_responses st);
             trace := trace st ++
               [E_GetQuadrangleSubPix h w sim;
                E_CEN_ResponseSparse_mirror mv mi aoi ind interp] |}).
Proof.
  intros Hcen Hview Hsize Hsim Hex Hr aoi interp.
  apply vec_empty_false in Hcen. apply Z.eqb_neq in Hview.
  assert (Response_body env ind st =
          dispatch env ind w h aoi
            {| patch_expert_responses := patch_expert_responses st;
               trace := trace st ++ [E_GetQuadrangleSubPix h w sim] |}) as ->.
  { unfold Response_body. rewrite Hsize. simpl. rewrite Hsim. reflexivity. }
  unfold dispatch. simpl. rewrite Hcen, Hview. simpl. rewrite Hex. simpl. split.
  - intros Hb%vec_empty_false. rewrite Hb. simpl. rewrite Hr. simpl.
    rewrite (vec_set_defined _ _ _ _ Hr). simpl. rewrite <- app_assoc. reflexivity.
  - intros Hb%vec_empty_true mv mi ex_m Hmv Hmi Hexm. rewrite Hb. simpl.
    rewrite Hmv. simpl. rewrite Hmi. simpl. rewrite Hexm. simpl. rewrite Hr. simpl.
    rewrite (vec_set_defined _ _ _ _ Hr). simpl. rewrite <- app_assoc. reflexivity.
Qed.

(** X3. With neither CEN nor CCNF experts loaded the iteration for
    landmark [ind] replaces [responses[ind]] by the [Response] of the
    landmark's SVR expert on its neighbourhood and a fresh matrix of
    [window_size] by [window_size], and changes no other slot. *)
Theorem Response_body_SVR (env : Response_env) (ind : Z)
    (st : Response_state) (w h : Z) (sim : Mat23f) (ex : Multi_SVR_patch_expert)
    (r0 : MatF) :
  cen_expert_intensity (env_this env) = [] ->
  ccnf_expert_intensity (env_this env) = [] ->
  area_of_interest_size env ind = Ok (w, h) ->
  sampling_transform env ind = Ok sim ->
  at3 (svr_expert_intensity (env_this env)) (env_scale env) (env_view_id env) ind
  = Ok ex ->
  vec_at (patch_expert_responses st) ind = Ok r0 ->
  let aoi := extract env h w sim in
  let fresh := MatF_create (env_window_size env) (env_window_size env) in
  Response_body env ind st =
  Ok {| patch_expert_responses :=
          <[Z.to_nat ind := SVR_Response ex aoi fresh]> (patch_expert_responses st);
        trace := trace st ++
          [E_GetQuadrangleSubPix h w sim; E_SVR_Response ind aoi ind] |}.
Proof.
  intros Hcen Hccnf Hsize Hsim Hex Hr aoi fresh.
  unfold Response_body. rewrite Hsize. simpl. rewrite Hsim. simpl.
  unfold dispatch. simpl. rewrite Hcen, Hccnf. simpl.
  rewrite (vec_set_defined _ _ _ _ Hr). simpl. rewrite Hex. simpl.
  rewrite (vec_at_insert _ _ _ _ Hr). simpl.
  assert (vec_at (<[Z.to_nat ind := fresh]> (patch_expert_responses st)) ind
          = Ok fresh) as Hfresh by (apply (vec_at_insert _ _ r0); exact Hr).
  rewrite (vec_set_defined _ _ _ _ Hfresh). simpl.
  rewrite list_insert_insert_eq, <- app_assoc. reflexivity.
Qed.

End OtherBranches.

(** ** What a call of [Response] writes *)

Section Frame.
Context `{Ex : Externals}.

Lemma writes_refl (resp : list MatF) : writes resp resp [].
Proof.
  split; [reflexivity|]. split; [|reflexivity]. intros s Hs. inversion Hs.
Qed.

Lemma writes_set (resp resp' : list MatF) (i : Z) (x : MatF) :
  vec_set resp i x = Ok resp' -> writes resp resp' [i].
Proof.
  intros [Hi ->]%vec_set_Ok. split; [apply length_insert|]. split.
  - intros s ->%list_elem_of_singleton. exact Hi.
  - intros j Hj. apply list_lookup_insert_ne. intros <-. apply Hj.
    apply list_elem_of_singleton. lia.
Qed.

Lemma writes_app (a b c : list MatF) (S1 S2 : list Z) :
  writes a b S1 -> writes b c S2 -> writes a c (S1 ++ S2).
Proof.
  intros (Hl1 & Hr1 & Hf1) (Hl2 & Hr2 & Hf2). split; [congruence|]. split.
  - intros s [Hs|Hs]%elem_of_app; [auto|]. rewrite <- Hl1. auto.
  - intros j Hj. rewrite Hf2, Hf1; [reflexivity| |];
      intros Hin; apply Hj, elem_of_app; auto.
Qed.

Lemma writes_same (a b : list MatF) (S S' : list Z) :
  (forall s, s ∈ S <-> s ∈ S') -> writes a b S -> writes a b S'.
Proof.
  intros Heq (Hl & Hr & Hf). split; [exact Hl|]. split.
  - intros s Hs. apply Hr, Heq, Hs.
  - intros j Hj. apply Hf. intros Hin. apply Hj, Heq, Hin.
Qed.

Lemma slots_written_app (evs1 evs2 : list event) :
  slots_written (evs1 ++ evs2) = slots_written evs1 ++ slots_written evs2.
Proof. unfold slots_written. rewrite map_app, concat_app. reflexivity. Qed.

(** What one dispatch writes, and where. *)
Lemma dispatch_writes (env : Response_env) (ind w h : Z) (aoi : MatF)
    (st st' : Response_state) :
  dispatch env ind w h aoi st = Ok st' ->
  exists evs, trace st' = trace st ++ evs /\
    writes (patch_expert_responses st) (patch_expert_responses st')
      (slots_written evs) /\
    Forall (slot_of env ind) (slots_written evs) /\
    NoDup (slots_written evs).
Proof.
  unfold dispatch. intros H.
  destruct (vec_empty (cen_expert_intensity (env_this env))) eqn:Hcen; simpl in H.
  - (* CCNF and SVR: the slot is allocated, then filled *)
    assert (exists resp0 x e,
              vec_set (patch_expert_responses st) ind
                (MatF_create (env_window_size env) (env_window_size env)) = Ok resp0 /\
              vec_set resp0 ind x = Ok (patch_expert_responses st') /\
              trace st' = trace st ++ e /\ slots_written e = [ind])
      as (resp0 & x & e & H0 & H1 & Ht & Hs).
    { destruct (vec_empty (ccnf_expert_intensity (env_this env))); simpl in H;
        res_inv H; injection H as <-; simpl.
      all: eauto 10. }
    exists e. rewrite Hs. split; [exact Ht|]. split; [|split].
    + apply (writes_same _ _ ([ind] ++ [ind])).
      * intros s. rewrite elem_of_app. tauto.
      * eapply writes_app; eapply writes_set; eassumption.
    + repeat constructor.
    + apply NoDup_singleton.
  - apply vec_empty_false in Hcen.
    destruct (Z.eqb_spec (env_view_id env) 0) as [Hview|Hview].
    + apply bind_Ok in H as (ex & Hex & H).
      destruct (vec_empty (biases ex)); simpl in H.
      { injection H as <-. exists []. rewrite app_nil_r.
        split; [reflexivity|]. split; [apply writes_refl|]. split; constructor. }
      apply bind_Ok in H as (mirror_id & Hm & H).
      destruct (Z.eqb_spec mirror_id ind) as [->|Hne].
      * apply bind_Ok in H as (r & Hr & H). apply bind_Ok in H as (resp' & Hset & H).
        injection H as <-. simpl. eexists. split; [reflexivity|]. simpl.
        split; [eapply writes_set; eassumption|].
        split; [repeat constructor | apply NoDup_singleton].
      * apply bind_Ok in H as (sim_r & Hsim & H).
        apply bind_Ok in H as (r & Hr & H). apply bind_Ok in H as (r_m & Hrm & H).
        apply bind_Ok in H as (resp1 & Hset1 & H).
        apply bind_Ok in H as (resp2 & Hset2 & H).
        injection H as <-. simpl. eexists. split; [reflexivity|]. simpl.
        split; [|split].
        -- apply (writes_app _ resp1 _ [ind] [mirror_id]);
             eapply writes_set; eassumption.
        -- constructor; [left; reflexivity|]. constructor; [|constructor].
           right. auto.
        -- apply NoDup_cons. split; [|apply NoDup_singleton].
           intros ->%list_elem_of_singleton. congruence.
    + apply bind_Ok in H as (ex & Hex & H).
      assert (exists x e,
                vec_set (patch_expert_responses st) ind x
                = Ok (patch_expert_responses st') /\
                trace st' = trace st ++ e /\ slots_written e = [ind])
        as (x & e & Hset & Ht & Hs).
      { destruct (vec_empty (biases ex)); simpl in H;
          res_inv H; injection H as <-; simpl.
        all: eauto 10. }
      exists e. rewrite Hs. split; [exact Ht|].
      split; [eapply writes_set; eassumption|].
      split; [repeat constructor | apply NoDup_singleton].
Qed.

Lemma Response_body_writes (env : Response_env) (ind : Z)
    (st st' : Response_state) :
  Response_body env ind st = Ok st' ->
  exists evs, trace st' = trace st ++ evs /\
    writes (patch_expert_responses st) (patch_expert_responses st')
      (slots_written evs) /\
    Forall (slot_of env ind) (slots_written evs) /\
    NoDup (slots_written evs).
Proof.
  unfold Response_body. intros H.
  apply bind_Ok in H as ([w h] & Hsize & H).
  apply bind_Ok in H as (sim & Hsim & H).
  apply dispatch_writes in H as (evs & Htr & Hw & Hs & Hn). simpl in *.
  exists (E_GetQuadrangleSubPix h w sim :: evs). split.
  - rewrite Htr, <- app_assoc. reflexivity.
  - change (slots_written (E_GetQuadrangleSubPix h w sim :: evs))
      with (slots_written evs). auto.
Qed.

(** Over the loop: every slot written belongs to the iteration of some
    landmark of the list. *)
Lemma Response_loop_writes (env : Response_env) (vis_lmk : list Z)
    (st st' : Response_state) :
  forM vis_lmk (Response_body env) st = Ok st' ->
  exists evs, trace st' = trace st ++ evs /\
    writes (patch_expert_responses st) (patch_expert_responses st')
      (slots_written evs) /\
    Forall (fun s => exists ind, ind ∈ vis_lmk /\ slot_of env ind s)
      (slots_written evs).
Proof.
  revert st. induction vis_lmk as [|ind l IH]; simpl; intros st H.
  - injection H as <-. exists []. rewrite app_nil_r.
    split; [reflexivity|]. split; [apply writes_refl | constructor].
  - apply bind_Ok in H as (st1 & Hb & H).
    apply Response_body_writes in Hb as (evs1 & Ht1 & Hw1 & Hs1 & _).
    apply IH in H as (evs2 & Ht2 & Hw2 & Hs2).
    exists (evs1 ++ evs2). rewrite slots_written_app. split; [|split].
    + rewrite Ht2, Ht1, <- app_assoc. reflexivity.
    + eapply writes_app; eassumption.
    + apply Forall_app. split.
      * eapply Forall_impl; [exact Hs1|]. intros s Hs. exists ind.
        split; [left | exact Hs].
      * eapply Forall_impl; [exact Hs2|]. intros s (i & Hi & Hs). exists i.
        split; [right; exact Hi | exact Hs].
Qed.

End Frame.

Section WholeFrame.
Context `{Ex : Externals}.

(** [Collect_visible_landmarks] reads the CEN experts of [this], nothing
    else of it. *)
Lemma Collect_visible_landmarks_ext (this this1 : Patch_experts)
    (visibilities : list (list Mat_int)) (scale view_id n : Z) :
  cen_expert_intensity this1 = cen_expert_intensity this ->
  Collect_visible_landmarks this1 visibilities scale view_id n
  = Collect_visible_landmarks this visibilities scale view_id n.
Proof.
  intros Hcen. unfold Collect_visible_landmarks, for_range. apply forM_ext.
  intros i l. unfold Collect_visible_landmarks_body. rewrite Hcen. reflexivity.
Qed.

Lemma Collect_visible_landmarks_NoDup (this : Patch_experts)
    (visibilities : list (list Mat_int)) (scale view_id n : Z) (l : list Z) :
  Collect_visible_landmarks this visibilities scale view_id n = Ok l -> NoDup l.
Proof.
  intros Hrun. destruct (Z.le_gt_cases n 0) as [Hn|Hn].
  { unfold Collect_visible_landmarks in Hrun. rewrite for_range_empty in Hrun by lia.
    injection Hrun as <-. constructor. }
  enough (NoDup l /\ forall y, y ∈ l -> 0 <= y < n) as [H _] by exact H.
  apply (for_range_inv (fun k l => NoDup l /\ forall y, y ∈ l -> 0 <= y < k) 0 n
           (Collect_visible_landmarks_body this visibilities scale view_id n) [] l);
    [lia| | |exact Hrun].
  - split; [constructor|]. intros y Hy. inversion Hy.
  - intros k l0 l1 Hk [Hnd Hr] Hbody.
    destruct (Collect_body_cases _ _ _ _ _ _ _ _ Hbody) as [-> | ->]; split.
    + apply NoDup_app. split; [exact Hnd|]. split; [|apply NoDup_singleton].
      intros y Hy%Hr ->%list_elem_of_singleton. lia.
    + intros y [Hy%Hr | ->%list_elem_of_singleton]%elem_of_app; lia.
    + exact Hnd.
    + intros y Hy%Hr. lia.
Qed.

(** The CCNF precomputation changes the CCNF experts and nothing else. *)
Lemma precompute_sigmas_frame (this this1 : Patch_experts) (use_ccnf : bool)
    (scale view_id n window_size : Z) (evs : list event) :
  precompute_sigmas this use_ccnf scale view_id n window_size = Ok (this1, evs) ->
  cen_expert_intensity this1 = cen_expert_intensity this /\
  visibilities this1 = visibilities this /\
  mirror_inds this1 = mirror_inds this /\
  slots_written evs = [].
Proof.
  unfold precompute_sigmas. destruct use_ccnf.
  - intros H. apply bind_Ok in H as (sigma & _ & H).
    apply (for_range_preserves
             (fun st : Patch_experts * list event =>
                cen_expert_intensity st.1 = cen_expert_intensity this /\
                visibilities st.1 = visibilities this /\
                mirror_inds st.1 = mirror_inds this /\
                slots_written st.2 = [])) in H; [exact H | simpl; auto |].
    intros i [t e] [t' e'] (Hc & Hv & Hm & Hs) Hb. unfold compute_sigmas_body in Hb.
    simpl in *. res_inv Hb; injection Hb as <- <-; simpl; auto.
    rewrite slots_written_app, Hs. auto.
  - intros [= <- <-]. auto.
Qed.

(** The parts of a completed [Response]: the view, the visible landmarks,
    and the loop over them. *)
Lemma Response_parts (this : Patch_experts) (responses0 : list MatF)
    (grayscale_image : Image) (pdm : PDM) (params_global : Vec6f)
    (params_local : MatF) (window_size scale : Z) (r : Response_result) :
  Response this responses0 grayscale_image pdm params_global params_local
    window_size scale = Ok r ->
  exists view_id vis_lmk env before st,
    GetViewIdx this params_global scale = Ok view_id /\
    Collect_visible_landmarks this (visibilities this) scale view_id
      (NumberOfPoints pdm) = Ok vis_lmk /\
    forM vis_lmk (Response_body env)
      {| patch_expert_responses := responses0; trace := before |} = Ok st /\
    slots_written before = [] /\
    env_view_id env = view_id /\
    cen_expert_intensity (env_this env) = cen_expert_intensity this /\
    mirror_inds (env_this env) = mirror_inds this /\
    res_responses r = patch_expert_responses st /\
    res_trace r = trace st.
Proof.
  unfold Response. intros H.
  apply bind_Ok in H as (view_id & Hview & H).
  apply bind_Ok in H as (ps & _ & H).
  apply bind_Ok in H as ([this1 ev_sigma] & Hsig & H).
  apply bind_Ok in H as ([interp_mat ev_interp] & Hint & H).
  apply bind_Ok in H as (vis_lmk & Hvis & H).
  apply bind_Ok in H as (st & Hloop & H).
  injection H as <-. simpl.
  apply precompute_sigmas_frame in Hsig as (Hcen & Hv & Hm & Hs).
  apply precompute_interp_mat_spec in Hint.
  rewrite Hv, (Collect_visible_landmarks_ext this this1 _ _ _ _ Hcen) in Hvis.
  eexists view_id, vis_lmk, _, (ev_sigma ++ ev_interp), st.
  split; [exact Hview|]. split; [exact Hvis|]. split; [exact Hloop|].
  simpl. repeat split; auto.
  rewrite slots_written_app, Hs.
  destruct (negb _); destruct Hint as [_ ->]; reflexivity.
Qed.

(** X4. A completed [Response] returns a vector as long as the one it was
    given; every slot a response call was given to fill lies inside the
    vector, and every other slot is returned as it was. *)
Theorem Response_frame (this : Patch_experts) (responses0 : list MatF)
    (grayscale_image : Image) (pdm : PDM) (params_global : Vec6f)
    (params_local : MatF) (window_size scale : Z) (r : Response_result) :
  Response this responses0 grayscale_image pdm params_global params_local
    window_size scale = Ok r ->
  length (res_responses r) = length responses0 /\
  (forall s, s ∈ slots_written (res_trace r) ->
     0 <= s < Z.of_nat (length responses0)) /\
  (forall j : nat, Z.of_nat j ∉ slots_written (res_trace r) ->
     res_responses r !! j = responses0 !! j).
Proof.
  intros H.
  apply Response_parts in H
    as (view_id & vis_lmk & env & before & st & _ & _ & Hloop & Hb & _ & _ & _
        & -> & ->).
  apply Response_loop_writes in Hloop as (evs & Ht & Hw & _). simpl in *.
  rewrite Ht, slots_written_app, Hb. exact Hw.
Qed.

(** X5. Every slot a completed [Response] fills is one of the landmarks
    [Collect_visible_landmarks] returned for the selected view, or, with
    CEN experts at the frontal view, the mirror of one of them. *)
Theorem Response_writes_visible (this : Patch_experts) (responses0 : list MatF)
    (grayscale_image : Image) (pdm : PDM) (params_global : Vec6f)
    (params_local : MatF) (window_size scale : Z) (r : Response_result) :
  Response this responses0 grayscale_image pdm params_global params_local
    window_size scale = Ok r ->
  exists view_id vis_lmk,
    GetViewIdx this params_global scale = Ok view_id /\
    Collect_visible_landmarks this (visibilities this) scale view_id
      (NumberOfPoints pdm) = Ok vis_lmk /\
    forall s, s ∈ slots_written (res_trace r) ->
      s ∈ vis_lmk \/
      (cen_expert_intensity this <> [] /\ view_id = 0 /\
       exists ind, ind ∈ vis_lmk /\ Mat_at1 (mirror_inds this) ind = Ok s).
Proof.
  intros H.
  apply Response_parts in H
    as (view_id & vis_lmk & env & before & st & Hview & Hvis & Hloop & Hb & Hv
        & Hcen & Hm & _ & ->).
  exists view_id, vis_lmk. split; [exact Hview|]. split; [exact Hvis|].
  apply Response_loop_writes in Hloop as (evs & Ht & _ & Hs). simpl in *.
  rewrite Ht, slots_written_app, Hb. simpl. intros s Hin.
  rewrite Forall_forall in Hs. destruct (Hs s Hin) as (ind & Hind & Hslot).
  destruct Hslot as [->|(Hc & Hv0 & _ & Hmirror)]; [left; exact Hind|].
  right. rewrite Hcen in Hc. rewrite Hm in Hmirror.
  split; [exact Hc|]. split; [congruence|]. eauto.
Qed.

Lemma mirror_pairs_apart_spec (m : Mat_int) (l : list Z) (i j : Z) :
  mirror_pairs_apart m l = true -> i ∈ l -> j ∈ l -> i <> j ->
  mirror_of m i <> j /\ mirror_of m i <> mirror_of m j.
Proof.
  unfold mirror_pairs_apart. rewrite forallb_forall. intros H Hi Hj Hne.
  apply list_elem_of_In in Hi, Hj. specialize (H i Hi).
  rewrite forallb_forall in H. specialize (H j Hj).
  apply orb_true_iff in H as [H|H]; [apply Z.eqb_eq in H; contradiction|].
  apply andb_true_iff in H as [H1 H2].
  apply negb_true_iff in H1, H2. apply Z.eqb_neq in H1, H2. auto.
Qed.

Lemma slot_of_mirror (env : Response_env) (ind s : Z) :
  slot_of env ind s -> s = ind \/ s = mirror_of (mirror_inds (env_this env)) ind.
Proof.
  intros [->|(_ & _ & _ & H)]; [left; reflexivity|].
  right. unfold mirror_of. rewrite H. reflexivity.
Qed.

(** Over the loop no slot is filled twice, when the landmarks of the list
    are distinct and, where mirrors are filled, their mirrors are apart. *)
Lemma Response_loop_writes_once (env : Response_env) (vis_lmk : list Z)
    (st st' : Response_state) :
  NoDup vis_lmk ->
  (cen_expert_intensity (env_this env) <> [] -> env_view_id env = 0 ->
   forall i j, i ∈ vis_lmk -> j ∈ vis_lmk -> i <> j ->
     mirror_of (mirror_inds (env_this env)) i <> j /\
     mirror_of (mirror_inds (env_this env)) i
     <> mirror_of (mirror_inds (env_this env)) j) ->
  forM vis_lmk (Response_body env) st = Ok st' ->
  exists evs, trace st' = trace st ++ evs /\ NoDup (slots_written evs).
Proof.
  revert st. induction vis_lmk as [|ind l IH]; simpl; intros st Hnd Hapart H.
  - injection H as <-. exists []. rewrite app_nil_r. split; [reflexivity|constructor].
  - apply bind_Ok in H as (st1 & Hb & H).
    apply NoDup_cons in Hnd as [Hind Hnd].
    apply Response_body_writes in Hb as (evs1 & Ht1 & _ & Hs1 & Hn1).
    pose proof (Response_loop_writes env l st1 st' H) as (evs2' & Ht2' & _ & Hs2).
    apply IH in H as (evs2 & Ht2 & Hn2); [|exact Hnd|].
    2:{ intros Hc Hv i j Hi Hj. apply Hapart; auto; right; assumption. }
    assert (evs2' = evs2) as -> by (rewrite Ht2 in Ht2'; eapply app_inv_head; eauto).
    exists (evs1 ++ evs2). rewrite slots_written_app. split.
    + rewrite Ht2, Ht1, <- app_assoc. reflexivity.
    + apply NoDup_app. split; [exact Hn1|]. split; [|exact Hn2].
      intros s Hin1 Hin2.
      rewrite Forall_forall in Hs1, Hs2.
      specialize (Hs1 s Hin1). destruct (Hs2 s Hin2) as (j & Hj & Hsj).
      assert (ind <> j) as Hne by (intros ->; contradiction).
      assert (ind ∈ ind :: l) as Hi by left.
      assert (j ∈ ind :: l) as Hj' by (right; exact Hj).
      destruct Hs1 as [->|(Hc & Hv & _ & Hm1)].
      * destruct Hsj as [->|(Hc & Hv & _ & Hm2)]; [contradiction|].
        destruct (Hapart Hc Hv j ind Hj' Hi (not_eq_sym Hne)) as [Hx _].
        apply Hx. unfold mirror_of. rewrite Hm2. reflexivity.
      * destruct (Hapart Hc Hv ind j Hi Hj' Hne) as [Hx Hy].
        unfold mirror_of in Hx, Hy. rewrite Hm1 in Hx, Hy.
        destruct Hsj as [->|(_ & _ & _ & Hm2)]; [contradiction|].
        rewrite Hm2 in Hy. contradiction.
Qed.

(** X6. A completed [Response] gives no slot to two response calls, provided
    that among the landmarks collected for the frontal view, where the
    mirror-joint path applies, none is the mirror of another and no two
    have the same mirror. *)
Theorem Response_writes_once (this : Patch_experts) (responses0 : list MatF)
    (grayscale_image : Image) (pdm : PDM) (params_global : Vec6f)
    (params_local : MatF) (window_size scale : Z) (r : Response_result)
    (vis_lmk : list Z) :
  Response this responses0 grayscale_image pdm params_global params_local
    window_size scale = Ok r ->
  Collect_visible_landmarks this (visibilities this) scale 0
    (NumberOfPoints pdm) = Ok vis_lmk ->
  mirror_pairs_apart (mirror_inds this) vis_lmk = true ->
  NoDup (slots_written (res_trace r)).
Proof.
  intros H Hvis0 Hapart.
  apply Response_parts in H
    as (view_id & l & env & before & st & Hview & Hvis & Hloop & Hb & Hv
        & Hcen & Hm & _ & ->).
  destruct (Response_loop_writes_once env l
              {| patch_expert_responses := responses0; trace := before |} st)
    as (evs & Ht & Hn); [| |exact Hloop|].
  - eapply Collect_visible_landmarks_NoDup. exact Hvis.
  - intros _ Hv0 i j Hi Hj Hne. rewrite Hm.
    assert (view_id = 0) as Hz by congruence. rewrite Hz in Hvis.
    rewrite Hvis0 in Hvis. injection Hvis as <-.
    eapply mirror_pairs_apart_spec; eauto.
  - simpl in Ht. rewrite Ht, slots_written_app, Hb. exact Hn.
Qed.

End WholeFrame.

(** ** The CCNF precomputation *)

Section Sigmas.
Context `{Ex : Externals}.

Lemma seqZ_snoc (k : Z) : 0 <= k -> seqZ 0 (k + 1) = seqZ 0 k ++ [k].
Proof.
  intros Hk. rewrite seqZ_app by lia. f_equal.
Qed.

(** X7. When CCNF experts are loaded, the precomputation calls
    [ComputeSigmas] once for each landmark below [n] whose visibility is
    nonzero, in ascending order, and for no other; and it has no guard on
    the row count: it completes only if the visibility has at least [n]
    rows. *)
Theorem precompute_sigmas_calls (this this1 : Patch_experts)
    (scale view_id n window_size : Z) (vs : list Mat_int) (vis : Mat_int)
    (evs : list event) :
  vec_at (visibilities this) scale = Ok vs ->
  vec_at vs view_id = Ok vis ->
  precompute_sigmas this true scale view_id n window_size = Ok (this1, evs) ->
  evs = map (fun lmark => E_ComputeSigmas lmark window_size)
          (List.filter (is_visible vis) (seqZ 0 n)) /\
  (0 < n -> n <= Mat_rows vis).
Proof.
  intros Hvs Hvis H. unfold precompute_sigmas in H.
  apply bind_Ok in H as (sigma & _ & H).
  destruct (Z.le_gt_cases n 0) as [Hn|Hn].
  { rewrite for_range_empty in H by lia. injection H as <- <-.
    rewrite seqZ_nil by lia. split; [reflexivity | lia]. }
  apply (for_range_inv
           (fun k (st : Patch_experts * list event) =>
              visibilities st.1 = visibilities this /\
              st.2 = map (fun lmark => E_ComputeSigmas lmark window_size)
                       (List.filter (is_visible vis) (seqZ 0 k)) /\
              (0 < k -> k <= Mat_rows vis))) in H; [|lia| |].
  - simpl in H. destruct H as (_ & -> & Hrows). auto.
  - simpl. repeat split. lia.
  - intros k [t e] [t' e'] Hk (Hv & He & Hrows) Hb. simpl in *.
    unfold compute_sigmas_body in Hb. simpl in Hb. rewrite Hv, Hvs in Hb.
    simpl in Hb. rewrite Hvis in Hb. simpl in Hb.
    destruct (Mat_at vis k 0) as [v|] eqn:Hat; simpl in Hb; [|discriminate].
    assert (k + 1 <= Mat_rows vis) as Hk1.
    { unfold Mat_at in Hat.
      destruct (0 <=? k); [|discriminate].
      destruct (Z.ltb_spec k (Mat_rows vis)); [lia | discriminate]. }
    rewrite seqZ_snoc, List.filter_app, map_app by lia. simpl.
    unfold is_visible at 2. rewrite Hat.
    destruct (negb (v =? 0)); simpl in *.
    + res_inv Hb. injection Hb as <- <-. simpl. rewrite He. auto.
    + injection Hb as <- <-. rewrite app_nil_r. auto.
Qed.

(** X8. The basis set handed to [ComputeSigmas] is the last entry of
    [this->sigma_components] that is not empty and whose first matrix has
    [window_size * window_size] rows; when no entry is, it is empty. *)
Theorem select_sigma_components_last (this : Patch_experts) (window_size : Z)
    (sigma : list MatF) :
  for_range 0 (Z.of_nat (length (sigma_components this)))
    (select_sigma_components this window_size) [] = Ok sigma ->
  (sigma = [] /\
   forall (w : nat) sc, sigma_components this !! w = Some sc ->
     ~ sigma_matches window_size sc) \/
  (exists w : nat,
     sigma_components this !! w = Some sigma /\
     sigma_matches window_size sigma /\
     forall (w' : nat) sc, (w < w')%nat -> sigma_components this !! w' = Some sc ->
       ~ sigma_matches window_size sc).
Proof.
  intros H.
  pose (P := fun (k : Z) (sigma : list MatF) =>
    (sigma = [] /\
     forall (w : nat) sc, Z.of_nat w < k -> sigma_components this !! w = Some sc ->
       ~ sigma_matches window_size sc) \/
    (exists w : nat, Z.of_nat w < k /\
       sigma_components this !! w = Some sigma /\
       sigma_matches window_size sigma /\
       forall (w' : nat) sc, (w < w')%nat -> Z.of_nat w' < k ->
         sigma_components this !! w' = Some sc ->
         ~ sigma_matches window_size sc)).
  assert (P (Z.of_nat (length (sigma_components this))) sigma) as HP.
  { apply (for_range_inv P 0 _ (select_sigma_components this window_size) []);
      [lia| | |exact H].
    - left. split; [reflexivity|]. intros w sc Hw. lia.
    - intros k s s' Hk HPk Hb. unfold select_sigma_components in Hb.
      apply bind_Ok in Hb as (sc & [_ Hsc]%vec_at_Ok & Hb).
      assert (forall (w : nat) sc0, Z.of_nat w < k + 1 ->
                sigma_components this !! w = Some sc0 ->
                Z.of_nat w < k \/ (w = Z.to_nat k /\ sc0 = sc)) as Hsplit.
      { intros w sc0 Hw Hl. destruct (Z.eq_dec (Z.of_nat w) k) as [<-|]; [|lia].
        right. rewrite Nat2Z.id in Hsc. split; [lia | congruence]. }
      assert (~ sigma_matches window_size sc -> s' = s -> P (k + 1) s') as Hkeep.
      { intros Hno ->. destruct HPk as [[-> Hall]|(w & Hw & Hl & Hm & Hafter)].
        - left. split; [reflexivity|]. intros w sc0 Hw Hl.
          destruct (Hsplit w sc0 Hw Hl) as [?|[_ ->]]; eauto.
        - right. exists w. split; [lia|]. repeat split; auto.
          intros w' sc0 Hlt Hw' Hl'.
          destruct (Hsplit w' sc0 Hw' Hl') as [?|[_ ->]]; eauto. }
      destruct (vec_empty sc) eqn:Hempty; simpl in Hb.
      { injection Hb as <-. apply Hkeep; [|reflexivity].
        apply vec_empty_true in Hempty. subst sc. intros (m0 & Hm0 & _).
        discriminate. }
      apply bind_Ok in Hb as (ww & [-> _]%int_of_Ok & Hb).
      apply bind_Ok in Hb as (m0 & [_ Hm0]%vec_at_Ok & Hb).
      destruct (Z.eqb_spec (window_size * window_size) (MatF_rows m0)) as [Heq|Hne];
        injection Hb as <-.
      + right. exists (Z.to_nat k). split; [lia|]. split; [exact Hsc|].
        split; [exists m0; split; [exact Hm0 | congruence]|].
        intros w' sc0 Hlt Hw'. lia.
      + apply Hkeep; [|reflexivity]. intros (m1 & Hm1 & Hrows).
        change (Z.to_nat 0) with 0%nat in Hm0. congruence. }
  destruct HP as [[-> Hall]|(w & Hw & Hl & Hm & Hafter)].
  - left. split; [reflexivity|]. intros w sc Hl. apply (Hall w sc); [|exact Hl].
    apply lookup_lt_Some in Hl. lia.
  - right. exists w. repeat split; auto. intros w' sc Hlt Hl'.
    apply (Hafter w' sc Hlt); [|exact Hl']. apply lookup_lt_Some in Hl'. lia.
Qed.

End Sigmas.

(** ** How many scales [Read] leaves *)

Section ScaleCount.
Context `{Ex : Externals}.

Lemma resize_scales_scales (this this' : Patch_experts) (n : Z) :
  resize_scales this n = Ok this' ->
  scales this' = (Z.to_nat n, Z.to_nat n, Z.to_nat n).
Proof.
  unfold resize_scales, scales. intros H.
  apply bind_Ok in H as (c & Hc%vec_resize_length & H).
  apply bind_Ok in H as (v & Hv%vec_resize_length & H).
  apply bind_Ok in H as (ps & Hps%vec_resize_length & H).
  injection H as <-. simpl. congruence.
Qed.

Lemma io_store_scales {P : Type} (this this' : Patch_experts) (scale : Z)
    (io : loader_io P) :
  io_store this scale io = Ok this' -> scales this' = scales this.
Proof.
  unfold io_store, scales. intros H.
  apply bind_Ok in H as (c & Hc%vec_set_length & H).
  apply bind_Ok in H as (v & Hv%vec_set_length & H).
  apply bind_Ok in H as (ps & Hps%vec_set_length & H).
  injection H as <-. simpl. congruence.
Qed.

Lemma Read_svr_scale_scales (locations : list string) (scale : Z)
    (st st' : Patch_experts * list event) :
  Read_svr_scale locations scale st = Ok st' -> scales st'.1 = scales st.1.
Proof.
  unfold Read_svr_scale. intros H. res_inv H. injection H as <-. simpl.
  match goal with Hs : io_store _ _ _ = Ok _ |- _ =>
    apply io_store_scales in Hs; exact Hs end.
Qed.

Lemma Read_ccnf_scale_scales (locations : list string) (scale : Z)
    (st st' : Patch_experts * list event) :
  Read_ccnf_scale locations scale st = Ok st' -> scales st'.1 = scales st.1.
Proof.
  unfold Read_ccnf_scale. intros H. res_inv H. injection H as <-. simpl.
  match goal with Hs : io_store _ _ _ = Ok _ |- _ =>
    apply io_store_scales in Hs; exact Hs end.
Qed.

Lemma Read_cen_scale_scales (locations : list string) (scale : Z)
    (st st' : Patch_experts * list event) :
  Read_cen_scale locations scale st = Ok st' -> scales st'.1 = scales st.1.
Proof.
  unfold Read_cen_scale. intros H. res_inv H. injection H as <-. simpl.
  match goal with Hs : io_store _ _ _ = Ok _ |- _ =>
    apply io_store_scales in Hs; exact Hs end.
Qed.

Lemma loop_scales (step : Z -> Patch_experts * list event ->
                          res (Patch_experts * list event))
    (n : Z) (st st' : Patch_experts * list event) :
  (forall i s s', step i s = Ok s' -> scales s'.1 = scales s.1) ->
  for_range 0 n step st = Ok st' -> scales st'.1 = scales st.1.
Proof.
  intros Hstep. apply (for_range_preserves (fun s => scales s.1 = scales st.1)).
  - reflexivity.
  - intros i s s' Hs Hb. rewrite <- Hs. eauto.
Qed.

Lemma Read_early_term_scales (this this' : Patch_experts) (early : string) :
  Read_early_term this early = Ok this' -> scales this' = scales this.
Proof.
  unfold Read_early_term. destruct (negb (string_empty early)).
  - intros H. res_inv H. injection H as <-. reflexivity.
  - intros [= <-]. reflexivity.
Qed.

(** X9. After [Read] the per-scale members [centers], [visibilities] and
    [patch_scaling] have as many scales as the last non-empty path list in
    the order SVR, CCNF, CEN has paths: a later representation with fewer
    paths truncates what an earlier one loaded, and one with more paths
    extends it. *)
Theorem Read_scale_count (this this' : Patch_experts)
    (svr ccnf cen : list string) (early : string) (out out' : list event) :
  Read this svr ccnf cen early out = Ok (this', out') ->
  let k := match cen with
           | [] => match ccnf with [] => length svr | _ => length ccnf end
           | _ => length cen
           end in
  length (centers this') = k /\
  length (visibilities this') = k /\
  length (patch_scaling this') = k.
Proof.
  unfold Read. intros H.
  apply bind_Ok in H as (t1 & H1%resize_scales_scales & H).
  apply bind_Ok in H as (svr1 & _ & H).
  apply bind_Ok in H as ([t2 o2] & Hl2 & H).
  apply loop_scales in Hl2; [|intros; eapply Read_svr_scale_scales; eauto].
  apply bind_Ok in H as (t3 & H3 & H).
  apply bind_Ok in H as ([t4 o4] & Hl4 & H).
  apply loop_scales in Hl4; [|intros; eapply Read_ccnf_scale_scales; eauto].
  apply bind_Ok in H as (t5 & H5 & H).
  apply bind_Ok in H as ([t6 o6] & Hl6 & H).
  apply loop_scales in Hl6; [|intros; eapply Read_cen_scale_scales; eauto].
  apply bind_Ok in H as (t7 & H7%Read_early_term_scales & H). injection H as <- <-.
  simpl in *. rewrite Nat2Z.id in H1.
  assert (scales t3 =
          (let k := match ccnf with [] => length svr | _ => length ccnf end in
           (k, k, k))) as H3'.
  { destruct ccnf as [|loc ccnf'].
    - simpl in H3. injection H3 as <-. rewrite Hl2. exact H1.
    - change (0 <? Z.of_nat (length (loc :: ccnf'))) with true in H3.
      apply bind_Ok in H3 as (ta & Ha%resize_scales_scales & H3).
      apply bind_Ok in H3 as (x & _ & H3). injection H3 as <-.
      rewrite Nat2Z.id in Ha. exact Ha. }
  assert (scales t5 =
          (let k := match cen with
                    | [] => match ccnf with [] => length svr | _ => length ccnf end
                    | _ => length cen
                    end in (k, k, k))) as H5'.
  { destruct cen as [|loc cen'].
    - simpl in H5. injection H5 as <-. rewrite Hl4. exact H3'.
    - change (0 <? Z.of_nat (length (loc :: cen'))) with true in H5.
      apply bind_Ok in H5 as (ta & Ha%resize_scales_scales & H5).
      apply bind_Ok in H5 as (x & _ & H5). injection H5 as <-.
      rewrite Nat2Z.id in Ha. exact Ha. }
  rewrite Hl6, H5' in H7. unfold scales in H7. simpl in H7.
  injection H7 as -> -> ->. auto.
Qed.

(** X10. [Read] with no model path at all and an early termination path
    faults, whatever the store held before: the three resizes to zero
    empty [centers], and the early termination loops ask for
    [centers[0].size()]. *)
Theorem Read_early_term_without_model (this : Patch_experts) (early : string)
    (out : list event) :
  string_empty early = false ->
  Read this [] [] [] early out = Fault OutOfRange.
Proof.
  intros Hearly. unfold Read, resize_scales, vec_resize. simpl.
  unfold Read_early_term. rewrite Hearly. reflexivity.
Qed.

End ScaleCount.

(** ** The loaders on an open file *)

Section Loaders.
Context `{Ex : Externals}.

Lemma bind_intro {A B : Type} (m : res A) (k : A -> res B) (a : A) (y : B) :
  m = Ok a -> k a = Ok y -> (m ≫= k) = Ok y.
Proof. intros -> H. exact H. Qed.

Lemma read_list_S {A : Type} (rd : Stream -> A * Stream) (k : nat) (f : Stream) :
  read_list rd (S k) f =
  ((rd f).1 :: (read_list rd k (rd f).2).1, (read_list rd k (rd f).2).2).
Proof. reflexivity. Qed.

Lemma read_list_snoc {A : Type} (rd : Stream -> A * Stream) (k : nat) (f : Stream) :
  read_list rd (S k) f =
  ((read_list rd k f).1 ++ [(rd (read_list rd k f).2).1],
   (rd (read_list rd k f).2).2).
Proof.
  revert f. induction k as [|k IH]; intros f; [reflexivity|].
  rewrite read_list_S, IH, (read_list_S rd k f). reflexivity.
Qed.

Lemma read_list_length {A : Type} (rd : Stream -> A * Stream) (k : nat) (f : Stream) :
  length (read_list rd k f).1 = k.
Proof. revert f. induction k as [|k IH]; intros f; simpl; [|rewrite IH]; reflexivity. Qed.

(** The loop that reads into the slots of a vector never faults: it
    replaces the whole vector by what it reads, in order. *)
Lemma read_slots_spec {A : Type} (rd : Stream -> A * Stream) (v : list A)
    (f : Stream) :
  read_slots rd v f = Ok (read_list rd (length v) f).
Proof.
  unfold read_slots.
  destruct (for_range_total
              (fun i (st : list A * Stream) =>
                 st = ((read_list rd (Z.to_nat i) f).1 ++ drop (Z.to_nat i) v,
                       (read_list rd (Z.to_nat i) f).2))
              0 (Z.of_nat (length v))
              (fun i st => let xf := rd st.2 in
                           v' ← vec_set st.1 i xf.1; Ok (v', xf.2))
              (v, f)) as (st & Hrun & Hst).
  - lia.
  - reflexivity.
  - intros i s Hi ->. simpl.
    set (r := read_list rd (Z.to_nat i) f).
    assert (length r.1 = Z.to_nat i) as Hlen by apply read_list_length.
    destruct (lookup_lt_is_Some_2 v (Z.to_nat i)) as [y Hy]; [lia|].
    rewrite (drop_S _ _ _ Hy).
    assert (vec_set (r.1 ++ y :: drop (S (Z.to_nat i)) v) i (rd r.2).1
            = Ok (r.1 ++ (rd r.2).1 :: drop (S (Z.to_nat i)) v)) as ->.
    { apply vec_set_Ok. rewrite length_app. simpl. split; [lia|].
      rewrite insert_app_r_alt by lia. rewrite Hlen, Nat.sub_diag. reflexivity. }
    simpl. eexists. split; [reflexivity|].
    replace (Z.to_nat (i + 1)) with (S (Z.to_nat i)) by lia.
    rewrite read_list_snoc. fold r. simpl. rewrite <- app_assoc. reflexivity.
  - etransitivity; [exact Hrun|].
    rewrite Hst, Nat2Z.id, drop_all, app_nil_r. clear Hst Hrun.
    destruct (read_list rd (length v) f). reflexivity.
Qed.

Lemma read_slots_length {A : Type} (rd : Stream -> A * Stream) (v v' : list A)
    (f f' : Stream) :
  read_slots rd v f = Ok (v', f') -> length v' = length v.
Proof.
  rewrite read_slots_spec. intros [= H].
  rewrite <- (read_list_length rd (length v) f), H. reflexivity.
Qed.

(** The loop that reads the experts of one view keeps their number. *)
Lemma read_view_total {P : Type} (rd : P -> Stream -> P * Stream)
    (numberOfPoints : Z) (p0 : list P) (f : Stream) :
  length p0 = Z.to_nat numberOfPoints ->
  exists pf,
    for_range 0 numberOfPoints
      (fun j st2 =>
         e ← vec_at st2.1 j;
         let ef := rd e st2.2 in
         p' ← vec_set st2.1 j ef.1;
         Ok (p', ef.2))
      (p0, f) = Ok pf /\
    length pf.1 = Z.to_nat numberOfPoints.
Proof.
  intros Hlen. destruct (Z.le_gt_cases numberOfPoints 0) as [Hn|Hn].
  { exists (p0, f). split; [apply for_range_empty; exact Hn | exact Hlen]. }
  apply (for_range_total
           (fun _ (st : list P * Stream) => length st.1 = Z.to_nat numberOfPoints));
    [lia | exact Hlen |].
  intros j [p g] Hj Hp. simpl in *.
  destruct (vec_at_defined p j) as [e He]; [lia|]. rewrite He. simpl.
  rewrite (vec_set_defined _ _ _ _ He). simpl. eexists. split; [reflexivity|].
  simpl. rewrite length_insert. exact Hp.
Qed.

(** With a landmark count that is not negative the loop over the views
    never faults, keeps the number of views and leaves that many experts
    in every view. *)
Lemma read_patches_total {P : Type} (dflt : P) (rd : P -> Stream -> P * Stream)
    (numberOfPoints : Z) (patches : list (list P)) (f : Stream) :
  0 <= numberOfPoints ->
  exists r, read_patches dflt rd numberOfPoints patches f = Ok r /\
    length r.1 = length patches /\
    Forall (fun p => Z.of_nat (length p) = numberOfPoints) r.1.
Proof.
  intros Hnp. unfold read_patches.
  destruct (for_range_total
              (fun i (st : list (list P) * Stream) =>
                 length st.1 = length patches /\
                 forall (j : nat) p, Z.of_nat j < i -> st.1 !! j = Some p ->
                   Z.of_nat (length p) = numberOfPoints)
              0 (Z.of_nat (length patches))
              (fun i st =>
                 p ← vec_at st.1 i;
                 p0 ← vec_resize dflt p numberOfPoints;
                 pf ← for_range 0 numberOfPoints
                         (fun j st2 =>
                            e ← vec_at st2.1 j;
                            let ef := rd e st2.2 in
                            p' ← vec_set st2.1 j ef.1;
                            Ok (p', ef.2))
                         (p0, st.2);
                 ps ← vec_set st.1 i pf.1;
                 Ok (ps, pf.2))
              (patches, f)) as (r & Hrun & Hlen & Hall).
  - lia.
  - split; [reflexivity|]. intros j p Hj. lia.
  - intros i [ps g] Hi [Hlen Hall]. simpl in Hlen, Hall.
    destruct (vec_at_defined ps i) as [p Hp]; [lia|].
    assert (vec_resize dflt p numberOfPoints =
            Ok (take (Z.to_nat numberOfPoints) p ++
                replicate (Z.to_nat numberOfPoints - length p) dflt)) as Hres.
    { unfold vec_resize. destruct (Z.ltb_spec numberOfPoints 0); [lia|reflexivity]. }
    destruct (read_view_total rd numberOfPoints
                (take (Z.to_nat numberOfPoints) p ++
                 replicate (Z.to_nat numberOfPoints - length p) dflt) g)
      as (pf & Hpf & Hpflen).
    { rewrite length_app, length_take, length_replicate. lia. }
    eexists. split.
    { eapply bind_intro; [exact Hp|]. eapply bind_intro; [exact Hres|].
      eapply bind_intro; [exact Hpf|].
      eapply bind_intro; [exact (vec_set_defined _ _ _ _ Hp)|]. reflexivity. }
    simpl. split; [rewrite length_insert; exact Hlen|].
    intros j q Hj Hq. destruct (decide (j = Z.to_nat i)) as [->|Hne].
    + rewrite list_lookup_insert_eq in Hq by lia. injection Hq as <-. lia.
    + rewrite list_lookup_insert_ne in Hq by congruence. apply (Hall j q); [lia|exact Hq].
  - exists r. split; [exact Hrun|]. split; [exact Hlen|].
    apply Forall_forall. intros p [j Hj]%list_elem_of_lookup.
    apply (Hall j p); [|exact Hj]. apply lookup_lt_Some in Hj. lia.
Qed.

(** With a negative landmark count the first view's [resize] throws. *)
Lemma read_patches_negative {P : Type} (dflt : P) (rd : P -> Stream -> P * Stream)
    (numberOfPoints : Z) (patches : list (list P)) (f : Stream) :
  numberOfPoints < 0 -> patches <> [] ->
  read_patches dflt rd numberOfPoints patches f = Fault LengthError.
Proof.
  intros Hnp Hne. unfold read_patches, for_range.
  destruct patches as [|p ps]; [contradiction|].
  rewrite seqZ_cons by (simpl; lia). simpl. unfold vec_resize.
  destruct (Z.ltb_spec numberOfPoints 0); [reflexivity | lia].
Qed.

Lemma read_patches_shape {P : Type} (dflt : P) (rd : P -> Stream -> P * Stream)
    (numberOfPoints : Z) (patches : list (list P)) (f : Stream)
    (r : list (list P) * Stream) :
  read_patches dflt rd numberOfPoints patches f = Ok r ->
  length r.1 = length patches /\
  Forall (fun p => Z.of_nat (length p) = numberOfPoints) r.1.
Proof.
  intros H. destruct (Z.le_gt_cases 0 numberOfPoints) as [Hnp|Hnp].
  - destruct (read_patches_total dflt rd numberOfPoints patches f Hnp)
      as (r' & Hr' & Hs). rewrite H in Hr'. injection Hr' as <-. exact Hs.
  - destruct patches as [|p ps].
    + unfold read_patches in H. rewrite for_range_empty in H by (simpl; lia).
      injection H as <-. split; [reflexivity | constructor].
    + rewrite read_patches_negative in H by (lia || discriminate). discriminate.
Qed.

Lemma vec_resize_defined {A : Type} (d : A) (v : list A) (n : Z) :
  0 <= n -> exists v', vec_resize d v n = Ok v' /\ length v' = Z.to_nat n.
Proof.
  intros Hn. unfold vec_resize. destruct (Z.ltb_spec n 0); [lia|].
  eexists. split; [reflexivity|].
  rewrite length_app, length_take, length_replicate. lia.
Qed.

Lemma loaded_shape_intro {P : Type} (nv : Z) (c : list Vec3d) (v : list Mat_int)
    (p : list (list P)) (vis0 : Mat_int) (s : double) :
  length c = Z.to_nat nv -> length v = Z.to_nat nv -> length p = Z.to_nat nv ->
  vec_at v 0 = Ok vis0 ->
  Forall (fun q => Z.of_nat (length q) = Mat_rows vis0) p ->
  loaded_shape {| io_centers := c; io_visibility := v; io_patches := p;
                  io_scale := s |}.
Proof.
  intros Hc Hv Hp [_ Hvis]%vec_at_Ok Hall. unfold loaded_shape. simpl.
  split; [congruence|]. split; [congruence|]. exists vis0. auto.
Qed.

(** X11. Whichever loader returns normally from a file it could open
    leaves as many centers, visibilities and views of experts as the file
    declares views, at least one; and every view has as many experts as
    the first view's visibility has rows: the landmark count is taken
    from the first view and applied to all of them. *)
Theorem loaders_shape (location : string) (log : list event) :
  is_open (ifstream_open location) = true ->
  (forall io io' out',
     Read_SVR_patch_experts location io log = Ok (io', out') -> loaded_shape io') /\
  (forall sigma io io' sigma' out',
     Read_CCNF_patch_experts location sigma io log = Ok (io', sigma', out') ->
     loaded_shape io') /\
  (forall mirror io io' mirror' out',
     Read_CEN_patch_experts location mirror io log = Ok (io', mirror', out') ->
     loaded_shape io').
Proof.
  intros Hopen. split; [|split].
  - intros io io' out' H. unfold Read_SVR_patch_experts in H.
    rewrite Hopen in H. cbv zeta in H.
    apply bind_Ok in H as (c0 & Hc0%vec_resize_length & H).
    apply bind_Ok in H as (v0 & Hv0%vec_resize_length & H).
    apply bind_Ok in H as (p0 & Hp0%vec_resize_length & H).
    apply bind_Ok in H as ([c f1] & Hc%read_slots_length & H).
    apply bind_Ok in H as ([v f2] & Hv%read_slots_length & H).
    apply bind_Ok in H as (vis0 & Hvis0 & H).
    apply bind_Ok in H as ([p f3] & [Hp Hall]%read_patches_shape & H).
    injection H as <- _. simpl in Hp, Hall.
    eapply loaded_shape_intro;
      [rewrite Hc; exact Hc0 | rewrite Hv; exact Hv0 | rewrite Hp; exact Hp0
      | exact Hvis0 | exact Hall].
  - intros sigma io io' sigma' out' H. unfold Read_CCNF_patch_experts in H.
    rewrite Hopen in H. cbv zeta in H.
    apply bind_Ok in H as (c0 & Hc0%vec_resize_length & H).
    apply bind_Ok in H as (v0 & Hv0%vec_resize_length & H).
    apply bind_Ok in H as (p0 & Hp0%vec_resize_length & H).
    apply bind_Ok in H as ([c f1] & Hc%read_slots_length & H).
    apply bind_Ok in H as ([v f2] & Hv%read_slots_length & H).
    apply bind_Ok in H as (vis0 & Hvis0 & H).
    apply bind_Ok in H as (w0 & _ & H).
    apply bind_Ok in H as (s0 & _ & H).
    apply bind_Ok in H as ([[ws sc] f3] & _ & H).
    apply bind_Ok in H as ([p f4] & [Hp Hall]%read_patches_shape & H).
    injection H as <- _ _. simpl in Hp, Hall.
    eapply loaded_shape_intro;
      [rewrite Hc; exact Hc0 | rewrite Hv; exact Hv0 | rewrite Hp; exact Hp0
      | exact Hvis0 | exact Hall].
  - intros mirror io io' mirror' out' H. unfold Read_CEN_patch_experts in H.
    rewrite Hopen in H. cbv zeta in H.
    apply bind_Ok in H as (c0 & Hc0%vec_resize_length & H).
    apply bind_Ok in H as (v0 & Hv0%vec_resize_length & H).
    apply bind_Ok in H as (p0 & Hp0%vec_resize_length & H).
    apply bind_Ok in H as ([c f1] & Hc%read_slots_length & H).
    apply bind_Ok in H as ([v f2] & Hv%read_slots_length & H).
    apply bind_Ok in H as (vis0 & Hvis0 & H).
    apply bind_Ok in H as ([p f3] & [Hp Hall]%read_patches_shape & H).
    injection H as <- _ _. simpl in Hp, Hall.
    eapply loaded_shape_intro;
      [rewrite Hc; exact Hc0 | rewrite Hv; exact Hv0 | rewrite Hp; exact Hp0
      | exact Hvis0 | exact Hall].
Qed.

(** X12. The CEN loader on a file it could open. A negative view count
    makes the first [resize] throw; a view count of zero makes the read of
    [visibility[0].rows] run off the empty vector; with at least one view, a
    first visibility with a negative row count makes the [resize] of the
    experts throw. Otherwise the loader returns normally: the centers and
    visibilities are the ones read from the file in order, the centers
    converted from degrees, the mirror tables of [this] are the two
    matrices that follow the visibilities, and nothing of the previous
    centers, visibilities, scale or mirror tables is left. *)
Theorem Read_CEN_patch_experts_opened (location : string)
    (this_mirror : Mat_int * Mat_int) (io : loader_io CEN_patch_expert)
    (log : list event) :
  is_open (ifstream_open location) = true ->
  let sf := read_double_bin (ifstream_open location) in
  let nf := read_int_bin sf.2 in
  let numberViews := nf.1 in
  let cs := read_list (read_center ReadMatBin_center) (Z.to_nat numberViews) nf.2 in
  let vs := read_list ReadMatBin_int (Z.to_nat numberViews) cs.2 in
  let mi := ReadMatBin_int vs.2 in
  let mv := ReadMatBin_int mi.2 in
  let loaded := Read_CEN_patch_experts location this_mirror io log in
  (numberViews < 0 -> loaded = Fault LengthError) /\
  (numberViews = 0 -> loaded = Fault OutOfRange) /\
  (0 < numberViews ->
   forall vis0, vs.1 !! 0%nat = Some vis0 ->
     (Mat_rows vis0 < 0 -> loaded = Fault LengthError) /\
     (0 <= Mat_rows vis0 ->
      exists patches,
        loaded = Ok ({| io_centers := cs.1; io_visibility := vs.1;
                        io_patches := patches; io_scale := sf.1 |},
                     (mi.1, mv.1), log ++ [E_cout "Done"]) /\
        length patches = Z.to_nat numberViews /\
        Forall (fun p => Z.of_nat (length p) = Mat_rows vis0) patches)).
Proof.
  intros Hopen. cbv zeta. unfold Read_CEN_patch_experts. rewrite Hopen. cbv zeta.
  set (sf := read_double_bin (ifstream_open location)).
  set (nv := (read_int_bin sf.2).1).
  destruct (Z.ltb_spec nv 0) as [Hneg|Hnn].
  { split; [|split; intros; lia]. intros _. unfold vec_resize.
    destruct (Z.ltb_spec nv 0); [reflexivity | lia]. }
  split; [intros; lia|].
  destruct (vec_resize_defined Vec3d_zero (io_centers _ io) nv Hnn) as (c0 & -> & Hc0).
  destruct (vec_resize_defined Mat_int_empty (io_visibility _ io) nv Hnn)
    as (v0 & -> & Hv0).
  destruct (vec_resize_defined [] (io_patches _ io) nv Hnn) as (p0 & -> & Hp0).
  simpl. rewrite read_slots_spec, Hc0.
  destruct (read_list (read_center ReadMatBin_center) (Z.to_nat nv) (read_int_bin sf.2).2)
    as [c f1]. simpl.
  rewrite read_slots_spec, Hv0.
  destruct (read_list ReadMatBin_int (Z.to_nat nv) f1) as [v f2] eqn:Hv. simpl.
  split.
  - intros Hz. assert (v = []) as ->.
    { rewrite Hz in Hv. simpl in Hv. injection Hv as <- _. reflexivity. }
    reflexivity.
  - intros Hpos vis0 Hvis0.
    assert (vec_at v 0 = Ok vis0) as -> by (apply vec_at_Ok; split; [lia|exact Hvis0]).
    simpl. split.
    + intros Hrows. rewrite read_patches_negative; [reflexivity | exact Hrows |].
      intros ->. simpl in Hp0. lia.
    + intros Hrows.
      destruct (read_patches_total CEN_new CEN_Read (Mat_rows vis0) p0
                  (ReadMatBin_int (ReadMatBin_int f2).2).2 Hrows)
        as ([p f3] & -> & Hlen & Hall). simpl in *.
      exists p. split; [reflexivity|]. split; [congruence | exact Hall].
Qed.

End Loaders.

(** ** What the copy constructor does copy *)

Section Clones.
Import Heap.
Variables SVR_obj CCNF_obj CEN_obj : Type.
Variable SVR_copy : SVR_obj -> heap -> SVR_obj * heap.
Variable CCNF_copy : CCNF_obj -> heap -> CCNF_obj * heap.
Variable CEN_copy : CEN_obj -> heap -> CEN_obj * heap.

Lemma Mat_contents_prefix (h h' : heap) (m : Mat) :
  h `prefix_of` h' -> valid h m -> Mat_contents h' m = Mat_contents h m.
Proof.
  intros [k ->] Hv. unfold Mat_contents. destruct (data m) as [l|] eqn:Hd;
    [|reflexivity].
  apply lookup_app_l. apply Hv. exact Hd.
Qed.

Lemma valid_prefix (h h' : heap) (m : Mat) :
  h `prefix_of` h' -> valid h m -> valid h' m.
Proof.
  intros Hp Hv l Hl. apply prefix_length in Hp. specialize (Hv l Hl). lia.
Qed.

Lemma clone_of_later (h h1 h2 : heap) (m m' : Mat) :
  h1 `prefix_of` h2 -> clone_of h h1 m m' -> clone_of h h2 m m'.
Proof.
  intros Hp (Hr & Hc & Hv & Hm). repeat split; auto.
  - eapply valid_prefix; eassumption.
  - rewrite <- Hm. apply Mat_contents_prefix; assumption.
Qed.

Lemma clone_of_earlier (h0 h h' : heap) (m m' : Mat) :
  h0 `prefix_of` h -> valid h0 m -> clone_of h h' m m' -> clone_of h0 h' m m'.
Proof.
  intros Hp Hv (Hr & Hc & Hv' & Hm). repeat split; auto.
  rewrite Hm. apply Mat_contents_prefix; assumption.
Qed.

Lemma clone_clone_of (m : Mat) (h : heap) :
  valid h m -> clone_of h (clone m h).2 m (clone m h).1.
Proof.
  intros Hv. unfold clone, clone_of, valid, Mat_contents in *. unfold heap, loc.
  destruct (data m) as [l|] eqn:Hd; simpl.
  - repeat split.
    + intros l' [= <-]. rewrite length_app. simpl. lia.
    + etransitivity; [apply list_lookup_middle; reflexivity|].
      destruct (lookup_lt_is_Some_2 h l) as [buf Hb]; [apply Hv; reflexivity|].
      rewrite Hb. reflexivity.
  - rewrite Hd. repeat split. intros l' [=].
Qed.

Lemma mapS_clone_of (ms : list Mat) (h0 h : heap) :
  h0 `prefix_of` h -> Forall (valid h0) ms ->
  Forall2 (clone_of h0 (mapS clone ms h).2) ms (mapS clone ms h).1.
Proof.
  revert h. induction ms as [|m ms IH]; intros h Hp Hv; simpl; [constructor|].
  apply Forall_cons in Hv as [Hm Hms].
  destruct (clone_spec m h) as (Hp1 & _).
  destruct (mapS_clone_fresh ms (clone m h).2) as [Hp2 _].
  constructor.
  - eapply clone_of_later; [exact Hp2|].
    eapply clone_of_earlier; [exact Hp | exact Hm |].
    apply clone_clone_of. eapply valid_prefix; eassumption.
  - apply IH; [etransitivity; eassumption | exact Hms].
Qed.

Lemma mapS_mapS_clone_of (mss : list (list Mat)) (h0 h : heap) :
  h0 `prefix_of` h -> Forall (Forall (valid h0)) mss ->
  Forall2 (Forall2 (clone_of h0 (mapS (mapS clone) mss h).2))
    mss (mapS (mapS clone) mss h).1.
Proof.
  revert h. induction mss as [|ms mss IH]; intros h Hp Hv; simpl; [constructor|].
  apply Forall_cons in Hv as [Hms Hmss].
  destruct (mapS_clone_fresh ms h) as [Hp1 _].
  destruct (mapS_mapS_clone_fresh mss (mapS clone ms h).2) as [Hp2 _].
  constructor.
  - eapply Forall2_impl; [apply mapS_clone_of; eassumption|].
    intros m m'. apply clone_of_later. exact Hp2.
  - apply IH; [etransitivity; eassumption | exact Hmss].
Qed.

Lemma Forall2_clone_of_later (h0 h1 h2 : heap) (mss mss' : list (list Mat)) :
  h1 `prefix_of` h2 ->
  Forall2 (Forall2 (clone_of h0 h1)) mss mss' ->
  Forall2 (Forall2 (clone_of h0 h2)) mss mss'.
Proof.
  intros Hp H. eapply Forall2_impl; [exact H|]. intros ms ms' Hms.
  eapply Forall2_impl; [exact Hms|]. intros m m'. apply clone_of_later. exact Hp.
Qed.

(** X13. Provided the copy constructors of the experts only allocate, the
    copy constructor only allocates: every buffer that existed keeps its
    contents. And every matrix of [sigma_components] and [visibilities] of
    the copy has the shape of its original and, in a buffer of its own,
    the contents the original had. *)
Theorem copy_constructor_contents (other : Patch_experts SVR_obj CCNF_obj CEN_obj)
    (h : heap) :
  (forall e h, h `prefix_of` (SVR_copy e h).2) ->
  (forall e h, h `prefix_of` (CCNF_copy e h).2) ->
  (forall e h, h `prefix_of` (CEN_copy e h).2) ->
  Forall (Forall (valid h)) (sigma_components other) ->
  Forall (Forall (valid h)) (visibilities other) ->
  let copy := copy_constructor SVR_copy CCNF_copy CEN_copy other h in
  h `prefix_of` copy.2 /\
  Forall2 (Forall2 (clone_of h copy.2))
    (sigma_components other) (sigma_components copy.1) /\
  Forall2 (Forall2 (clone_of h copy.2))
    (visibilities other) (visibilities copy.1).
Proof.
  intros Hsvr Hccnf Hcen Hvs Hvv. unfold copy_constructor. simpl.
  set (h1 := (mapS (mapS (mapS SVR_copy)) (svr_expert_intensity other) h).2).
  set (h2 := (mapS (mapS (mapS CCNF_copy)) (ccnf_expert_intensity other) h1).2).
  set (h3 := (mapS (mapS (mapS CEN_copy)) (cen_expert_intensity other) h2).2).
  assert (h `prefix_of` h3) as Hp.
  { transitivity h1; [apply mapS3_prefix; exact Hsvr|].
    transitivity h2; [apply mapS3_prefix; exact Hccnf|].
    apply mapS3_prefix; exact Hcen. }
  destruct (mapS_mapS_clone_fresh (sigma_components other) h3) as [Hp4 _].
  set (h4 := (mapS (mapS clone) (sigma_components other) h3).2) in *.
  destruct (mapS_mapS_clone_fresh (visibilities other) h4) as [Hp5 _].
  split; [|split].
  - etransitivity; [exact Hp|]. etransitivity; eassumption.
  - eapply Forall2_clone_of_later; [exact Hp5|].
    apply mapS_mapS_clone_of; assumption.
  - apply mapS_mapS_clone_of; [|exact Hvv]. etransitivity; eassumption.
Qed.

(** An assignment through a matrix whose buffer is new leaves every matrix
    that existed before as it reads. *)
Lemma write_fresh_apart (h h' : heap) (m' m0 : Mat) (i k : nat) (v : Z) :
  fresh h m' -> valid h m0 ->
  Mat_read (Mat_write h' m' i v) m0 k = Mat_read h' m0 k.
Proof.
  intros Hf Hv. unfold Mat_read, Mat_write.
  destruct (data m0) as [l0|] eqn:H0; [|reflexivity].
  destruct (data m') as [l'|] eqn:H'; [|reflexivity].
  specialize (Hf l' H'). specialize (Hv l0 H0). unfold heap, loc.
  rewrite list_lookup_alter_ne by lia. reflexivity.
Qed.

(** X14. Provided the copy constructors of the experts only allocate, an
    assignment to an element of any matrix of [sigma_components] or
    [visibilities] of the copy changes what no matrix that existed before
    the copy reads, those of the original included. *)
Theorem copy_constructor_writes_apart
    (other : Patch_experts SVR_obj CCNF_obj CEN_obj) (h : heap)
    (ms : list Mat) (m' m0 : Mat) (i k : nat) (v : Z) :
  (forall e h, h `prefix_of` (SVR_copy e h).2) ->
  (forall e h, h `prefix_of` (CCNF_copy e h).2) ->
  (forall e h, h `prefix_of` (CEN_copy e h).2) ->
  let copy := copy_constructor SVR_copy CCNF_copy CEN_copy other h in
  ms ∈ sigma_components copy.1 \/ ms ∈ visibilities copy.1 ->
  m' ∈ ms ->
  valid h m0 ->
  Mat_read (Mat_write copy.2 m' i v) m0 k = Mat_read copy.2 m0 k.
Proof.
  intros Hsvr Hccnf Hcen copy Hms Hm' Hv0.
  destruct (copy_constructor_clones SVR_obj CCNF_obj CEN_obj SVR_copy CCNF_copy
              CEN_copy other h Hsvr Hccnf Hcen) as [Hs Hv].
  apply write_fresh_apart with (h := h); [|exact Hv0].
  rewrite Forall_forall in Hs, Hv.
  destruct Hms as [Hms|Hms]; [specialize (Hs ms Hms) | specialize (Hv ms Hms)].
  - rewrite Forall_forall in Hs. apply Hs. exact Hm'.
  - rewrite Forall_forall in Hv. apply Hv. exact Hm'.
Qed.

End Clones.

(* ================================================================= *)
(** ** The further properties at the sample files *)

Section FurtherAtSample.
Import Sample.

(** X1 at the sample SVR store, which has one view. *)
Lemma GetViewIdx_few_views_witness :
  GetViewIdx svr_store pose0 0 = Ok 0 /\
  ([Vec3d_zero] = [] -> vec_at [Vec3d_zero] 0 = Fault OutOfRange).
Proof.
  apply (GetViewIdx_few_views svr_store pose0 0 [Vec3d_zero]);
    [reflexivity | simpl; lia].
Defined.

(** X2 at landmark 2 of the profile view, a placeholder whose mirror is
    landmark 1 of the same view. *)
Lemma Response_body_nonfrontal_CEN_witness :
  Response_body profile_env 2 state0 =
  Ok {| patch_expert_responses := [[]; []; [5; 100; 13; 13]];
        trace :=
          [E_GetQuadrangleSubPix 13 13
             {| s00 := S754_finite false 8388608 (-23); s01 := S754_zero false;
                s02 := S754_finite false 15728640 (-19);
                s10 := S754_zero true; s11 := S754_finite false 8388608 (-23);
                s12 := S754_finite false 10485760 (-20) |};
           E_CEN_ResponseSparse_mirror 1 1 [100; 13; 13] 2 [7; 3; 3; 13; 13]] |}.
Proof.
  edestruct (Response_body_nonfrontal_CEN profile_env 2 state0) as [_ Hmirror];
    [discriminate | discriminate | reflexivity | reflexivity | reflexivity
    | reflexivity |].
  eapply eq_trans;
    [eapply (Hmirror eq_refl 1 1); reflexivity | reflexivity].
Defined.

(** X3 at landmark 0 of the sample SVR store. *)
Lemma Response_body_SVR_witness :
  Response_body svr_env 0 state0 =
  Ok {| patch_expert_responses := [[1; 100; 13; 13]; []; []];
        trace :=
          [E_GetQuadrangleSubPix 13 13
             {| s00 := S754_finite false 8388608 (-23); s01 := S754_zero false;
                s02 := S754_finite false 10485760 (-20);
                s10 := S754_zero true; s11 := S754_finite false 8388608 (-23);
                s12 := S754_finite false 10485760 (-20) |};
           E_SVR_Response 0 [100; 13; 13] 0] |}.
Proof.
  eapply eq_trans;
    [eapply (Response_body_SVR svr_env 0 state0); reflexivity | reflexivity].
Defined.

Lemma cen_run :
  Response cen_store [[]; []; []] tt pdm3 pose0 [] 3 0 = Ok cen_response.
Proof. vm_compute. reflexivity. Qed.

(** X4 at the run of the sample CEN store. *)
Lemma Response_frame_witness :
  length (res_responses cen_response) = 3%nat /\
  (forall s, s ∈ slots_written (res_trace cen_response) -> 0 <= s < 3) /\
  (forall j : nat, Z.of_nat j ∉ slots_written (res_trace cen_response) ->
     res_responses cen_response !! j = [[]; []; []] !! j).
Proof.
  exact (Response_frame cen_store [[]; []; []] tt pdm3 pose0 [] 3 0 cen_response
           cen_run).
Defined.

(** X5 at the same run: the slots filled are 0, 1 and 2, of which 2 is the
    mirror of the collected landmark 1. *)
Lemma Response_writes_visible_witness :
  exists view_id vis_lmk,
    GetViewIdx cen_store pose0 0 = Ok view_id /\
    Collect_visible_landmarks cen_store (visibilities cen_store) 0 view_id
      (NumberOfPoints pdm3) = Ok vis_lmk /\
    forall s, s ∈ slots_written (res_trace cen_response) ->
      s ∈ vis_lmk \/
      (cen_expert_intensity cen_store <> [] /\ view_id = 0 /\
       exists ind, ind ∈ vis_lmk /\ Mat_at1 (mirror_inds cen_store) ind = Ok s).
Proof.
  exact (Response_writes_visible cen_store [[]; []; []] tt pdm3 pose0 [] 3 0
           cen_response cen_run).
Defined.

(** X6 at the same run: landmarks 0 and 1 are collected, their mirrors 0
    and 2 are apart. *)
Lemma Response_writes_once_witness :
  NoDup (slots_written (res_trace cen_response)).
Proof.
  apply (Response_writes_once cen_store [[]; []; []] tt pdm3 pose0 [] 3 0
           cen_response [0; 1] cen_run); reflexivity.
Defined.

(** X7 at the sample CCNF store: all three landmarks are visible. *)
Lemma precompute_sigmas_calls_witness :
  [E_ComputeSigmas 0 3; E_ComputeSigmas 1 3; E_ComputeSigmas 2 3] =
  map (fun lmark => E_ComputeSigmas lmark 3)
    (List.filter (is_visible (column [1; 1; 1])) (seqZ 0 3)) /\
  (0 < 3 -> 3 <= Mat_rows (column [1; 1; 1])).
Proof.
  apply (precompute_sigmas_calls ccnf_store ccnf_store 0 0 3 3
           [column [1; 1; 1]]); reflexivity.
Defined.

(** X8 at the sample CCNF store: its one basis set has nine rows and is
    selected for window size 3. *)
Lemma select_sigma_components_last_witness :
  ([[0; 0; 0; 0; 0; 0; 0; 0; 0]] = [] /\
   forall (w : nat) sc, sigma_components ccnf_store !! w = Some sc ->
     ~ sigma_matches 3 sc) \/
  (exists w : nat,
     sigma_components ccnf_store !! w = Some [[0; 0; 0; 0; 0; 0; 0; 0; 0]] /\
     sigma_matches 3 [[0; 0; 0; 0; 0; 0; 0; 0; 0]] /\
     forall (w' : nat) sc, (w < w')%nat ->
       sigma_components ccnf_store !! w' = Some sc -> ~ sigma_matches 3 sc).
Proof.
  apply (select_sigma_components_last ccnf_store 3). reflexivity.
Defined.

Lemma cen_read :
  Read empty_store ["svr.txt"] [] ["cen.dat"] "early.txt" []
  = Ok (cen_store,
        [reading "SVR" "svr.txt"; E_cout "Done";
         reading "CEN" "cen.dat"; E_cout "Done"]).
Proof. vm_compute. reflexivity. Qed.

(** X9 at the sample files: one SVR path, one CEN path, one scale. *)
Lemma Read_scale_count_witness :
  length (centers cen_store) = 1%nat /\
  length (visibilities cen_store) = 1%nat /\
  length (patch_scaling cen_store) = 1%nat.
Proof.
  exact (Read_scale_count _ _ _ _ _ _ _ _ cen_read).
Defined.

(** X10 with the sample early termination file and no model. *)
Lemma Read_early_term_without_model_witness :
  Read cen_store [] [] [] "early.txt" [] = Fault OutOfRange.
Proof.
  apply Read_early_term_without_model. reflexivity.
Defined.

(** X11 at the sample CEN file: two views of three experts each. *)
Lemma loaders_shape_witness :
  loaded_shape
    {| io_centers := cen_views;
       io_visibility := [column [1; 1; 1]; column [1; 1; 0]];
       io_patches := default [] (cen_expert_intensity cen_store !! 0%nat);
       io_scale := double_of_Z 1 |}.
Proof.
  destruct (loaders_shape "cen.dat" []) as (_ & _ & H); [reflexivity |].
  eapply (H (Mat_int_empty, Mat_int_empty)
            {| io_centers := []; io_visibility := []; io_patches := [];
               io_scale := S754_zero false |}).
  vm_compute. reflexivity.
Defined.

(** X12 at the sample CEN file, which declares two views. *)
Lemma Read_CEN_patch_experts_opened_witness :
  exists patches,
    Read_CEN_patch_experts "cen.dat" (Mat_int_empty, Mat_int_empty)
      {| io_centers := []; io_visibility := []; io_patches := [];
         io_scale := S754_zero false |} []
    = Ok ({| io_centers := cen_views;
             io_visibility := [column [1; 1; 1]; column [1; 1; 0]];
             io_patches := patches; io_scale := double_of_Z 1 |},
          (column [0; 2; 1], column [0; 1]), [E_cout "Done"]) /\
    length patches = 2%nat /\
    Forall (fun p => Z.of_nat (length p) = 3) patches.
Proof.
  destruct (Read_CEN_patch_experts_opened "cen.dat" (Mat_int_empty, Mat_int_empty)
              {| io_centers := []; io_visibility := []; io_patches := [];
                 io_scale := S754_zero false |} [])
    as (_ & _ & H); [reflexivity |].
  edestruct H as [_ Hok]; [vm_compute; reflexivity | vm_compute; reflexivity |].
  destruct Hok as (patches & Hrun & Hlen & Hall); [vm_compute; discriminate |].
  exists patches. split; [exact Hrun | split; [exact Hlen | exact Hall]].
Defined.

(** X13 at the store [Heap.store0] with no experts. *)
Lemma copy_constructor_contents_witness :
  Heap.heap0 `prefix_of` Heap.copy0.2 /\
  Forall2 (Forall2 (Heap.clone_of Heap.heap0 Heap.copy0.2))
    (Heap.sigma_components Heap.store0) (Heap.sigma_components Heap.copy0.1) /\
  Forall2 (Forall2 (Heap.clone_of Heap.heap0 Heap.copy0.2))
    (Heap.visibilities Heap.store0) (Heap.visibilities Heap.copy0.1).
Proof.
  apply (copy_constructor_contents unit unit unit Heap.keep Heap.keep Heap.keep
           Heap.store0 Heap.heap0); try (intros e h; reflexivity);
    do 2 (constructor; [|constructor]); intros l [= <-]; simpl; lia.
Defined.

(** X14 at the same store: a write through the copy's visibility, in
    buffer 5, leaves the read of the original's, in buffer 3, as it was. *)
Lemma copy_constructor_writes_apart_witness :
  Heap.Mat_read
    (Heap.Mat_write Heap.copy0.2
       {| Heap.rows := 3; Heap.cols := 1; Heap.data := Some 5%nat |} 0 0)
    {| Heap.rows := 3; Heap.cols := 1; Heap.data := Some 3%nat |} 0
  = Heap.Mat_read Heap.copy0.2
      {| Heap.rows := 3; Heap.cols := 1; Heap.data := Some 3%nat |} 0.
Proof.
  apply (copy_constructor_writes_apart unit unit unit Heap.keep Heap.keep Heap.keep
           Heap.store0 Heap.heap0
           [{| Heap.rows := 3; Heap.cols := 1; Heap.data := Some 5%nat |}]);
    try (intros e h; reflexivity).
  - right. left.
  - left.
  - intros l [= <-]. simpl. lia.
Defined.

End FurtherAtSample.

(* ================================================================= *)
(** ** What [Response] leaves of the store *)

Section StoreFrame.
Context `{Ex : Externals}.

Lemma set_ccnf_expert_intensity_same (this : Patch_experts) :
  set_ccnf_expert_intensity this (ccnf_expert_intensity this) = this.
Proof. destruct this; reflexivity. Qed.

Lemma vec_at_set_ne {A : Type} (v v' : list A) (i j : Z) (x : A) :
  vec_set v i x = Ok v' -> j <> i -> vec_at v' j = vec_at v j.
Proof.
  intros [Hi ->]%vec_set_Ok Hne. unfold vec_at.
  destruct (Z.ltb_spec j 0); [reflexivity|].
  rewrite list_lookup_insert_ne by lia. reflexivity.
Qed.

Lemma vec_at_set_eq {A : Type} (v v' : list A) (i : Z) (x : A) :
  vec_set v i x = Ok v' -> vec_at v' i = Ok x.
Proof.
  intros [Hi ->]%vec_set_Ok. apply vec_at_Ok. split; [lia|].
  apply list_lookup_insert_eq. lia.
Qed.

Lemma set3_shape {A : Type} (vvv vvv' : list (list (list A))) (a b c : Z) (x : A) :
  set3 vvv a b c x = Ok vvv' -> shape vvv' = shape vvv.
Proof.
  unfold set3, shape. intros H.
  apply bind_Ok in H as (vv & [Ha Hvv]%vec_at_Ok & H).
  apply bind_Ok in H as (v & [Hb Hv]%vec_at_Ok & H).
  apply bind_Ok in H as (v' & [Hc ->]%vec_set_Ok & H).
  apply bind_Ok in H as (vv' & [Hb' ->]%vec_set_Ok & H).
  apply vec_set_Ok in H as [Ha' ->].
  rewrite !list_fmap_insert, length_insert.
  rewrite (list_insert_id (length <$> vv)).
  - apply list_insert_id. rewrite list_lookup_fmap, Hvv. reflexivity.
  - rewrite list_lookup_fmap, Hv. reflexivity.
Qed.

Lemma set3_at3_other {A : Type} (vvv vvv' : list (list (list A))) (a b c : Z)
    (x : A) (s v i : Z) :
  set3 vvv a b c x = Ok vvv' -> s <> a \/ v <> b ->
  at3 vvv' s v i = at3 vvv s v i.
Proof.
  unfold set3, at3. intros H Hne.
  apply bind_Ok in H as (vv & Hvv & H).
  apply bind_Ok in H as (v0 & Hv0 & H).
  apply bind_Ok in H as (v' & Hv' & H).
  apply bind_Ok in H as (vv' & Hvv' & H).
  destruct (Z.eq_dec s a) as [->|Hs].
  - destruct Hne as [Hne|Hne]; [contradiction|].
    rewrite (vec_at_set_eq _ _ _ _ H), Hvv. simpl.
    rewrite (vec_at_set_ne _ _ _ _ _ Hvv' Hne). reflexivity.
  - rewrite (vec_at_set_ne _ _ _ _ _ H Hs). reflexivity.
Qed.

(** The CCNF precomputation replaces experts of the selected view in
    place and does nothing else to the store. *)
Lemma precompute_sigmas_store (this this1 : Patch_experts) (use_ccnf : bool)
    (scale view_id n window_size : Z) (evs : list event) :
  precompute_sigmas this use_ccnf scale view_id n window_size = Ok (this1, evs) ->
  this1 = set_ccnf_expert_intensity this (ccnf_expert_intensity this1) /\
  shape (ccnf_expert_intensity this1) = shape (ccnf_expert_intensity this) /\
  (forall s v i, s <> scale \/ v <> view_id ->
     at3 (ccnf_expert_intensity this1) s v i
     = at3 (ccnf_expert_intensity this) s v i) /\
  (use_ccnf = false -> this1 = this).
Proof.
  unfold precompute_sigmas. destruct use_ccnf.
  - intros H. apply bind_Ok in H as (sigma & _ & H).
    apply (for_range_preserves
             (fun st : Patch_experts * list event =>
                st.1 = set_ccnf_expert_intensity this (ccnf_expert_intensity st.1) /\
                shape (ccnf_expert_intensity st.1)
                = shape (ccnf_expert_intensity this) /\
                (forall s v i, s <> scale \/ v <> view_id ->
                   at3 (ccnf_expert_intensity st.1) s v i
                   = at3 (ccnf_expert_intensity this) s v i))) in H.
    + destruct H as (H1 & H2 & H3). repeat split; auto. discriminate.
    + simpl. split; [symmetry; apply set_ccnf_expert_intensity_same|]. auto.
    + intros i [t e] [t' e'] (Ht & Hsh & Hfr) Hb. unfold compute_sigmas_body in Hb.
      simpl in *. res_inv Hb; injection Hb as <- <-; simpl; auto.
      split; [|split].
      * rewrite Ht. reflexivity.
      * rewrite <- Hsh. eapply set3_shape. eassumption.
      * intros s v j Hne. rewrite <- (Hfr s v j Hne).
        eapply set3_at3_other; eassumption.
  - intros [= <- <-]. repeat split; auto.
    symmetry. apply set_ccnf_expert_intensity_same.
Qed.

(** The parts of a completed [Response]. *)
Lemma Response_run (this : Patch_experts) (responses0 : list MatF)
    (grayscale_image : Image) (pdm : PDM) (params_global : Vec6f)
    (params_local : MatF) (window_size scale : Z) (r : Response_result) :
  Response this responses0 grayscale_image pdm params_global params_local
    window_size scale = Ok r ->
  exists view_id ev_sigma interp_mat ev_interp vis_lmk env st,
    GetViewIdx this params_global scale = Ok view_id /\
    precompute_sigmas this (negb (vec_empty (ccnf_expert_intensity this)))
      scale view_id (NumberOfPoints pdm) window_size = Ok (res_this r, ev_sigma) /\
    precompute_interp_mat (negb (vec_empty (cen_expert_intensity this)))
      window_size = Ok (interp_mat, ev_interp) /\
    Collect_visible_landmarks this (visibilities this) scale view_id
      (NumberOfPoints pdm) = Ok vis_lmk /\
    env_this env = res_this r /\ env_view_id env = view_id /\
    env_scale env = scale /\
    forM vis_lmk (Response_body env)
      {| patch_expert_responses := responses0;
         trace := ev_sigma ++ ev_interp |} = Ok st /\
    res_responses r = patch_expert_responses st /\
    res_trace r = trace st.
Proof.
  unfold Response. intros H.
  apply bind_Ok in H as (view_id & Hview & H).
  apply bind_Ok in H as (ps & _ & H).
  apply bind_Ok in H as ([this1 ev_sigma] & Hsig & H).
  apply bind_Ok in H as ([interp_mat ev_interp] & Hint & H).
  apply bind_Ok in H as (vis_lmk & Hvis & H).
  apply bind_Ok in H as (st & Hloop & H).
  injection H as <-. simpl.
  destruct (precompute_sigmas_frame _ _ _ _ _ _ _ _ Hsig) as (Hcen & Hv & _ & _).
  rewrite Hv, (Collect_visible_landmarks_ext this this1 _ _ _ _ Hcen) in Hvis.
  match type of Hloop with
  | forM _ (Response_body ?e) _ = _ =>
      exists view_id, ev_sigma, interp_mat, ev_interp, vis_lmk, e, st
  end.
  split; [exact Hview|]. split; [exact Hsig|]. split; [exact Hint|].
  split; [exact Hvis|]. do 3 (split; [reflexivity|]).
  split; [exact Hloop|]. split; reflexivity.
Qed.

Lemma set3_at3_same {A : Type} (vvv vvv' : list (list (list A))) (a b c : Z)
    (x : A) :
  set3 vvv a b c x = Ok vvv' -> at3 vvv' a b c = Ok x.
Proof.
  unfold set3, at3. intros H.
  apply bind_Ok in H as (vv & Hvv & H).
  apply bind_Ok in H as (v0 & Hv0 & H).
  apply bind_Ok in H as (v' & Hv' & H).
  apply bind_Ok in H as (vv' & Hvv' & H).
  rewrite (vec_at_set_eq _ _ _ _ H). simpl.
  rewrite (vec_at_set_eq _ _ _ _ Hvv'). simpl.
  exact (vec_at_set_eq _ _ _ _ Hv').
Qed.

Lemma set3_at3_ne {A : Type} (vvv vvv' : list (list (list A))) (a b c : Z)
    (x : A) (i : Z) :
  set3 vvv a b c x = Ok vvv' -> i <> c -> at3 vvv' a b i = at3 vvv a b i.
Proof.
  unfold set3, at3. intros H Hne.
  apply bind_Ok in H as (vv & Hvv & H).
  apply bind_Ok in H as (v0 & Hv0 & H).
  apply bind_Ok in H as (v' & Hv' & H).
  apply bind_Ok in H as (vv' & Hvv' & H).
  rewrite (vec_at_set_eq _ _ _ _ H), Hvv. simpl.
  rewrite (vec_at_set_eq _ _ _ _ Hvv'), Hv0. simpl.
  exact (vec_at_set_ne _ _ _ _ _ Hv' Hne).
Qed.

(** X15. What the CCNF precomputation of lines 170 to 198 leaves in the
    store when it completes: at the given scale and the selected view,
    the expert of every landmark below [n] whose visibility is nonzero is
    what [ComputeSigmas] made of the expert that was there, given the
    basis set the first loop selected and the window size; every other
    CCNF expert, of whatever scale, view and landmark, is the one the
    store had; no expert is added or removed, and no other member of the
    store changes. What [ComputeSigmas] does inside an expert is code
    outside this file: it is the function [CCNF_ComputeSigmas] here, of
    which nothing is assumed. *)
Theorem precompute_sigmas_experts (this this1 : Patch_experts)
    (scale view_id n window_size : Z) (vs : list Mat_int) (vis : Mat_int)
    (evs : list event) :
  vec_at (visibilities this) scale = Ok vs ->
  vec_at vs view_id = Ok vis ->
  precompute_sigmas this true scale view_id n window_size = Ok (this1, evs) ->
  exists sigma,
    for_range 0 (Z.of_nat (length (sigma_components this)))
      (select_sigma_components this window_size) [] = Ok sigma /\
    (forall i, 0 <= i < n -> is_visible vis i = true ->
       exists ex,
         at3 (ccnf_expert_intensity this) scale view_id i = Ok ex /\
         at3 (ccnf_expert_intensity this1) scale view_id i
         = Ok (CCNF_ComputeSigmas ex sigma window_size)) /\
    (forall s v i,
       s <> scale \/ v <> view_id \/ ~ 0 <= i < n \/ is_visible vis i = false ->
       at3 (ccnf_expert_intensity this1) s v i
       = at3 (ccnf_expert_intensity this) s v i) /\
    shape (ccnf_expert_intensity this1) = shape (ccnf_expert_intensity this) /\
    this1 = set_ccnf_expert_intensity this (ccnf_expert_intensity this1).
Proof.
  intros Hvs Hvis H.
  destruct (precompute_sigmas_store _ _ _ _ _ _ _ _ H) as (Hset & Hshape & Hother & _).
  unfold precompute_sigmas in H.
  apply bind_Ok in H as (sigma & Hsigma & H).
  exists sigma. split; [exact Hsigma|].
  cut ((forall i, 0 <= i < n -> is_visible vis i = true ->
          exists ex,
            at3 (ccnf_expert_intensity this) scale view_id i = Ok ex /\
            at3 (ccnf_expert_intensity this1) scale view_id i
            = Ok (CCNF_ComputeSigmas ex sigma window_size)) /\
       (forall i, ~ 0 <= i < n \/ is_visible vis i = false ->
          at3 (ccnf_expert_intensity this1) scale view_id i
          = at3 (ccnf_expert_intensity this) scale view_id i)).
  { intros [Hin Hout]. split; [exact Hin|]. split; [|split; assumption].
    intros s v i Hne.
    destruct (Z.eq_dec s scale) as [->|Hs]; [|apply Hother; auto].
    destruct (Z.eq_dec v view_id) as [->|Hv]; [|apply Hother; auto].
    apply Hout. destruct Hne as [Hne|[Hne|Hne]]; [contradiction..|exact Hne]. }
  destruct (Z.le_gt_cases n 0) as [Hn|Hn].
  { rewrite for_range_empty in H by lia. injection H as <- <-.
    split; [intros i Hi; lia | reflexivity]. }
  apply (for_range_inv
           (fun k (st : Patch_experts * list event) =>
              visibilities st.1 = visibilities this /\
              (forall i, 0 <= i < k -> is_visible vis i = true ->
                 exists ex,
                   at3 (ccnf_expert_intensity this) scale view_id i = Ok ex /\
                   at3 (ccnf_expert_intensity st.1) scale view_id i
                   = Ok (CCNF_ComputeSigmas ex sigma window_size)) /\
              (forall i, ~ 0 <= i < k \/ is_visible vis i = false ->
                 at3 (ccnf_expert_intensity st.1) scale view_id i
                 = at3 (ccnf_expert_intensity this) scale view_id i))) in H;
    [|lia| |].
  - simpl in H. destruct H as (_ & Hin & Hout). split; assumption.
  - simpl. split; [reflexivity|]. split; [intros i Hi; lia | reflexivity].
  - intros k [t e] [t' e'] Hk (Hv & Hin & Hout) Hb. simpl in *.
    unfold compute_sigmas_body in Hb. simpl in Hb. rewrite Hv, Hvs in Hb.
    simpl in Hb. rewrite Hvis in Hb. simpl in Hb.
    destruct (Mat_at vis k 0) as [x|] eqn:Hat; simpl in Hb; [|discriminate].
    assert (is_visible vis k = negb (x =? 0)) as Hk_vis
      by (unfold is_visible; rewrite Hat; reflexivity).
    destruct (negb (x =? 0)); simpl in Hb.
    + apply bind_Ok in Hb as (ex & Hex & Hb).
      apply bind_Ok in Hb as (ccnf' & Hset3 & Hb).
      injection Hb as <- <-. simpl.
      split; [exact Hv|]. split.
      * intros i Hi Hi_vis. destruct (Z.eq_dec i k) as [->|Hne].
        -- exists ex. split.
           ++ rewrite <- Hout by (left; lia). exact Hex.
           ++ exact (set3_at3_same _ _ _ _ _ _ Hset3).
        -- destruct (Hin i ltac:(lia) Hi_vis) as (ex' & Hex' & Hnew).
           exists ex'. split; [exact Hex'|].
           rewrite (set3_at3_ne _ _ _ _ _ _ _ Hset3 Hne). exact Hnew.
      * intros i Hi. assert (i <> k) as Hne.
        { intros ->. destruct Hi as [Hi|Hi]; [lia | congruence]. }
        rewrite (set3_at3_ne _ _ _ _ _ _ _ Hset3 Hne). apply Hout.
        destruct Hi as [Hi|Hi]; [left; lia | right; exact Hi].
    + injection Hb as <- <-. split; [exact Hv|]. split.
      * intros i Hi Hi_vis. apply Hin; [|exact Hi_vis].
        destruct (Z.eq_dec i k) as [->|Hne]; [congruence | lia].
      * intros i Hi. apply Hout.
        destruct (Z.eq_dec i k) as [->|Hne]; [left; lia|].
        destruct Hi as [Hi|Hi]; [left; lia | right; exact Hi].
Qed.

End StoreFrame.

(* ================================================================= *)
(** ** Which landmarks get a response, and what is printed *)

Section Coverage.
Context `{Ex : Externals}.

(** In the frontal view of the CEN experts only landmarks whose own expert
    has bias vectors are collected. *)
Lemma Collect_visible_landmarks_biased (this : Patch_experts)
    (visibilities : list (list Mat_int)) (scale view_id n : Z) (l : list Z) :
  Collect_visible_landmarks this visibilities scale view_id n = Ok l ->
  forall i, i ∈ l ->
    cen_expert_intensity this <> [] -> view_id = 0 ->
    exists ex, at3 (cen_expert_intensity this) scale view_id i = Ok ex /\
               biases ex <> [].
Proof.
  unfold Collect_visible_landmarks.
  apply (for_range_preserves
           (fun l : list Z => forall i, i ∈ l ->
              cen_expert_intensity this <> [] -> view_id = 0 ->
              exists ex, at3 (cen_expert_intensity this) scale view_id i = Ok ex /\
                         biases ex <> [])).
  - intros i Hi. inversion Hi.
  - intros k l0 l1 IH Hb. unfold Collect_visible_landmarks_body in Hb.
    apply bind_Ok in Hb as (vs & _ & Hb). apply bind_Ok in Hb as (vis & _ & Hb).
    destruct (Mat_rows vis =? n); [|injection Hb as <-; exact IH].
    apply bind_Ok in Hb as (v & _ & Hb).
    destruct (negb (v =? 0)); [|injection Hb as <-; exact IH].
    destruct (vec_empty (cen_expert_intensity this)) eqn:Hcen; simpl in Hb.
    { injection Hb as <-. intros i [Hi| ->%list_elem_of_singleton]%elem_of_app;
        [auto|]. intros Hne. apply vec_empty_true in Hcen. contradiction. }
    destruct (Z.eqb_spec view_id 0) as [Hview|Hview].
    + apply bind_Ok in Hb as (ex & Hex & Hb).
      destruct (vec_empty (biases ex)) eqn:Hbias; simpl in Hb;
        injection Hb as <-; [exact IH|].
      intros i [Hi| ->%list_elem_of_singleton]%elem_of_app; [auto|].
      intros _ _. exists ex. split; [exact Hex|]. apply vec_empty_false, Hbias.
    + injection Hb as <-.
      intros i [Hi| ->%list_elem_of_singleton]%elem_of_app; [auto|].
      intros _ Hz. contradiction.
Qed.

(** The dispatch for such a landmark fills the landmark's own slot. *)
Lemma dispatch_fills (env : Response_env) (ind w h : Z) (aoi : MatF)
    (st st' : Response_state) :
  dispatch env ind w h aoi st = Ok st' ->
  (cen_expert_intensity (env_this env) <> [] -> env_view_id env = 0 ->
   exists ex, at3 (cen_expert_intensity (env_this env)) (env_scale env)
                (env_view_id env) ind = Ok ex /\ biases ex <> []) ->
  exists evs, trace st' = trace st ++ evs /\ ind ∈ slots_written evs.
Proof.
  unfold dispatch. intros H Hb.
  destruct (vec_empty (cen_expert_intensity (env_this env))) eqn:Hcen; simpl in H.
  - destruct (vec_empty (ccnf_expert_intensity (env_this env))); simpl in H;
      res_inv H; injection H as <-; simpl;
      (eexists; split; [reflexivity|]); left.
  - apply vec_empty_false in Hcen.
    destruct (Z.eqb_spec (env_view_id env) 0) as [Hview|Hview].
    + destruct (Hb Hcen Hview) as (ex & Hex & Hbias).
      rewrite Hex in H. simpl in H.
      apply vec_empty_false in Hbias. rewrite Hbias in H. simpl in H.
      res_inv H; injection H as <-; simpl;
        (eexists; split; [reflexivity|]); left.
    + res_inv H; injection H as <-; simpl;
        (eexists; split; [reflexivity|]); left.
Qed.

Lemma Response_body_fills (env : Response_env) (ind : Z)
    (st st' : Response_state) :
  Response_body env ind st = Ok st' ->
  (cen_expert_intensity (env_this env) <> [] -> env_view_id env = 0 ->
   exists ex, at3 (cen_expert_intensity (env_this env)) (env_scale env)
                (env_view_id env) ind = Ok ex /\ biases ex <> []) ->
  exists evs, trace st' = trace st ++ evs /\ ind ∈ slots_written evs.
Proof.
  unfold Response_body. intros H Hb.
  apply bind_Ok in H as ([w h] & _ & H). apply bind_Ok in H as (sim & _ & H).
  destruct (dispatch_fills _ _ _ _ _ _ _ H Hb) as (evs & Htr & Hin).
  simpl in Htr. exists (E_GetQuadrangleSubPix h w sim :: evs). split.
  - rewrite Htr, <- app_assoc. reflexivity.
  - exact Hin.
Qed.

Lemma Response_loop_fills (env : Response_env) (vis_lmk : list Z)
    (st st' : Response_state) :
  forM vis_lmk (Response_body env) st = Ok st' ->
  (forall ind, ind ∈ vis_lmk ->
     cen_expert_intensity (env_this env) <> [] -> env_view_id env = 0 ->
     exists ex, at3 (cen_expert_intensity (env_this env)) (env_scale env)
                  (env_view_id env) ind = Ok ex /\ biases ex <> []) ->
  exists evs, trace st' = trace st ++ evs /\
    forall ind, ind ∈ vis_lmk -> ind ∈ slots_written evs.
Proof.
  revert st. induction vis_lmk as [|i l IH]; simpl; intros st H Hb.
  - injection H as <-. exists []. rewrite app_nil_r. split; [reflexivity|].
    intros ind Hin. inversion Hin.
  - apply bind_Ok in H as (st1 & H1 & H).
    destruct (Response_body_fills _ _ _ _ H1 (Hb i ltac:(left)))
      as (evs1 & Ht1 & Hin1).
    destruct (IH st1 H) as (evs2 & Ht2 & Hin2).
    { intros ind Hind. apply Hb. right. exact Hind. }
    exists (evs1 ++ evs2). split.
    + rewrite Ht2, Ht1, <- app_assoc. reflexivity.
    + rewrite slots_written_app. intros ind Hind. apply elem_of_app.
      apply elem_of_cons in Hind as [->|Hind]; auto.
Qed.

(** X16. Every landmark [Collect_visible_landmarks] returns for the
    selected view has its slot filled by a response call of a completed
    [Response]: no iteration of the loop ends without one. *)
Theorem Response_fills_visible (this : Patch_experts) (responses0 : list MatF)
    (grayscale_image : Image) (pdm : PDM) (params_global : Vec6f)
    (params_local : MatF) (window_size scale : Z) (r : Response_result) :
  Response this responses0 grayscale_image pdm params_global params_local
    window_size scale = Ok r ->
  exists view_id vis_lmk,
    GetViewIdx this params_global scale = Ok view_id /\
    Collect_visible_landmarks this (visibilities this) scale view_id
      (NumberOfPoints pdm) = Ok vis_lmk /\
    forall ind, ind ∈ vis_lmk -> ind ∈ slots_written (res_trace r).
Proof.
  intros H.
  apply Response_run in H
    as (view_id & ev_sigma & interp_mat & ev_interp & vis_lmk & env & st
        & Hview & Hsig & _ & Hvis & Hthis & Henv & Hscale & Hloop & _ & Htr).
  apply precompute_sigmas_frame in Hsig as (Hcen & _).
  exists view_id, vis_lmk. split; [exact Hview|]. split; [exact Hvis|].
  destruct (Response_loop_fills _ _ _ _ Hloop) as (evs & Ht & Hin).
  { intros ind Hind. rewrite Hthis, Hcen, Henv, Hscale.
    exact (Collect_visible_landmarks_biased _ _ _ _ _ _ Hvis ind Hind). }
  intros ind Hind. rewrite Htr, Ht, slots_written_app. apply elem_of_app.
  right. auto.
Qed.

(** A visibility that does not have [n] rows: nothing is collected. *)
Lemma Collect_visible_landmarks_mismatch (this : Patch_experts)
    (visibilities : list (list Mat_int)) (scale view_id n : Z)
    (vs : list Mat_int) (vis : Mat_int) (l : list Z) :
  vec_at visibilities scale = Ok vs ->
  vec_at vs view_id = Ok vis ->
  Mat_rows vis <> n ->
  Collect_visible_landmarks this visibilities scale view_id n = Ok l -> l = [].
Proof.
  intros Hvs Hvis Hrows. unfold Collect_visible_landmarks.
  apply (for_range_preserves (fun l0 : list Z => l0 = [])); [reflexivity|].
  intros i l0 l1 -> Hb. unfold Collect_visible_landmarks_body in Hb.
  rewrite Hvs in Hb. simpl in Hb. rewrite Hvis in Hb. simpl in Hb.
  destruct (Z.eqb_spec (Mat_rows vis) n); [contradiction|].
  injection Hb as <-. reflexivity.
Qed.

Lemma sigma_event_setup (e : event) : sigma_event e -> setup_event e.
Proof. destruct e; simpl; auto. Qed.

(** X17. When the visibility of the selected view does not have as many
    rows as the shape model has points, a completed [Response] has skipped
    every landmark: the response vector is returned as it was given, and
    nothing was called but [ComputeSigmas] and [interpolationMatrix]. *)
Theorem Response_rows_mismatch (this : Patch_experts) (responses0 : list MatF)
    (grayscale_image : Image) (pdm : PDM) (params_global : Vec6f)
    (params_local : MatF) (window_size scale : Z) (r : Response_result)
    (view_id : Z) (vs : list Mat_int) (vis : Mat_int) :
  Response this responses0 grayscale_image pdm params_global params_local
    window_size scale = Ok r ->
  GetViewIdx this params_global scale = Ok view_id ->
  vec_at (visibilities this) scale = Ok vs ->
  vec_at vs view_id = Ok vis ->
  Mat_rows vis <> NumberOfPoints pdm ->
  res_responses r = responses0 /\ Forall setup_event (res_trace r).
Proof.
  intros H Hview Hvs Hvis Hrows.
  apply Response_run in H
    as (view_id' & ev_sigma & interp_mat & ev_interp & vis_lmk & env & st
        & Hview' & Hsig & Hint & Hcol & _ & _ & _ & Hloop & Hresp & Htr).
  assert (view_id' = view_id) as -> by congruence.
  apply (Collect_visible_landmarks_mismatch _ _ _ _ _ _ _ _ Hvs Hvis Hrows) in Hcol.
  subst vis_lmk. simpl in Hloop. injection Hloop as <-. simpl in *.
  split; [exact Hresp|]. rewrite Htr. apply Forall_app. split.
  - apply precompute_sigmas_spec in Hsig as (_ & _ & Hs).
    eapply Forall_impl; [exact Hs|]. exact sigma_event_setup.
  - apply precompute_interp_mat_spec in Hint.
    destruct (negb (vec_empty (cen_expert_intensity this)));
      destruct Hint as [_ ->]; repeat constructor.
Qed.

(** What one dispatch prints. *)
Lemma dispatch_norms (env : Response_env) (ind w h : Z) (aoi : MatF)
    (st st' : Response_state) :
  dispatch env ind w h aoi st = Ok st' ->
  exists evs, trace st' = trace st ++ evs /\
    length (List.filter is_norm_output evs) =
    match active_representation (env_this env) with
    | CCNF => 1%nat
    | _ => 0%nat
    end.
Proof.
  unfold dispatch, active_representation. intros H.
  destruct (vec_empty (cen_expert_intensity (env_this env))); simpl in *.
  - destruct (vec_empty (ccnf_expert_intensity (env_this env))); simpl in *;
      res_inv H; injection H as <-; simpl; eexists; split; reflexivity.
  - res_inv H; injection H as <-; simpl;
      solve [ eexists; split; reflexivity
            | exists []; rewrite app_nil_r; split; reflexivity ].
Qed.

Lemma Response_loop_norms (env : Response_env) (vis_lmk : list Z)
    (st st' : Response_state) :
  forM vis_lmk (Response_body env) st = Ok st' ->
  exists evs, trace st' = trace st ++ evs /\
    length (List.filter is_norm_output evs) =
    match active_representation (env_this env) with
    | CCNF => length vis_lmk
    | _ => 0%nat
    end.
Proof.
  revert st. induction vis_lmk as [|i l IH]; simpl; intros st H.
  - injection H as <-. exists []. rewrite app_nil_r. split; [reflexivity|].
    destruct (active_representation _); reflexivity.
  - apply bind_Ok in H as (st1 & H1 & H).
    unfold Response_body in H1.
    apply bind_Ok in H1 as ([w h] & _ & H1). apply bind_Ok in H1 as (sim & _ & H1).
    apply dispatch_norms in H1 as (evs1 & Ht1 & Hn1). simpl in Ht1.
    apply IH in H as (evs2 & Ht2 & Hn2).
    exists (E_GetQuadrangleSubPix h w sim :: evs1 ++ evs2). split.
    + rewrite Ht2, Ht1, <- !app_assoc. reflexivity.
    + simpl. rewrite List.filter_app, length_app, Hn1, Hn2.
      destruct (active_representation _); reflexivity.
Qed.

(** X18. A completed [Response] prints one number per collected landmark
    when the CCNF experts are the ones in use, and nothing otherwise. *)
Theorem Response_console_output (this : Patch_experts) (responses0 : list MatF)
    (grayscale_image : Image) (pdm : PDM) (params_global : Vec6f)
    (params_local : MatF) (window_size scale : Z) (r : Response_result) :
  Response this responses0 grayscale_image pdm params_global params_local
    window_size scale = Ok r ->
  exists view_id vis_lmk,
    GetViewIdx this params_global scale = Ok view_id /\
    Collect_visible_landmarks this (visibilities this) scale view_id
      (NumberOfPoints pdm) = Ok vis_lmk /\
    length (List.filter is_norm_output (res_trace r)) =
    match active_representation this with
    | CCNF => length vis_lmk
    | _ => 0%nat
    end.
Proof.
  intros H.
  apply Response_run in H
    as (view_id & ev_sigma & interp_mat & ev_interp & vis_lmk & env & st
        & Hview & Hsig & Hint & Hvis & Hthis & _ & _ & Hloop & _ & Htr).
  exists view_id, vis_lmk. split; [exact Hview|]. split; [exact Hvis|].
  apply Response_loop_norms in Hloop as (evs & Ht & Hn). simpl in Ht.
  apply precompute_sigmas_spec in Hsig as (Hcen & Hccnf & Hs).
  apply precompute_interp_mat_spec in Hint.
  assert (List.filter is_norm_output (ev_sigma ++ ev_interp) = []) as Hbefore.
  { rewrite List.filter_app.
    replace (List.filter is_norm_output ev_interp) with (@nil event)
      by (destruct (negb _); destruct Hint as [_ ->]; reflexivity).
    rewrite app_nil_r. clear -Hs. induction Hs as [|e l He _ IH]; [reflexivity|].
    destruct e; simpl in *; try contradiction; exact IH. }
  rewrite Htr, Ht, List.filter_app, Hbefore. simpl. rewrite Hn, Hthis.
  unfold active_representation. rewrite Hcen, Hccnf. reflexivity.
Qed.

End Coverage.

(* ================================================================= *)
(** ** What [Read] keeps and what it prints *)

Section ReadFrame.
Context `{Ex : Externals}.








End ReadFrame.

Section ReadLog.
Context `{Ex : Externals}.

Lemma Read_SVR_patch_experts_log (location : string)
    (io io' : loader_io Multi_SVR_patch_expert) (log out' : list event) :
  Read_SVR_patch_experts location io log = Ok (io', out') ->
  out' = log ++ [E_cout (if is_open (ifstream_open location)
                         then "Done" else cant_open)].
Proof.
  unfold Read_SVR_patch_experts. intros H.
  destruct (is_open (ifstream_open location)).
  - res_inv H. injection H as _ <-. reflexivity.
  - injection H as _ <-. reflexivity.
Qed.

Lemma Read_CCNF_patch_experts_log (location : string) (sigma sigma' : list (list MatF))
    (io io' : loader_io CCNF_patch_expert) (log out' : list event) :
  Read_CCNF_patch_experts location sigma io log = Ok (io', sigma', out') ->
  out' = log ++ [E_cout (if is_open (ifstream_open location)
                         then "Done" else cant_open)].
Proof.
  unfold Read_CCNF_patch_experts. intros H.
  destruct (is_open (ifstream_open location)).
  - res_inv H. injection H as _ _ <-. reflexivity.
  - injection H as _ _ <-. reflexivity.
Qed.

Lemma Read_CEN_patch_experts_log (location : string) (mirror mirror' : Mat_int * Mat_int)
    (io io' : loader_io CEN_patch_expert) (log out' : list event) :
  Read_CEN_patch_experts location mirror io log = Ok (io', mirror', out') ->
  out' = log ++ [E_cout (if is_open (ifstream_open location)
                         then "Done" else cant_open)].
Proof.
  unfold Read_CEN_patch_experts. intros H.
  destruct (is_open (ifstream_open location)).
  - res_inv H. injection H as _ _ <-. reflexivity.
  - injection H as _ _ <-. reflexivity.
Qed.

(** A loop that announces the path at its index and appends the loader's
    verdict has printed this for every path, in order. *)
Lemma announce_loop (kind : string) (locations : list string)
    (step : Z -> Patch_experts * list event -> res (Patch_experts * list event))
    (st st' : Patch_experts * list event) :
  (forall i s s', step i s = Ok s' ->
     exists location, vec_at locations i = Ok location /\
       s'.2 = s.2 ++ announce kind location) ->
  for_range 0 (Z.of_nat (length locations)) step st = Ok st' ->
  st'.2 = st.2 ++ flat_map (announce kind) locations.
Proof.
  intros Hstep Hrun.
  assert (st'.2 = st.2 ++ flat_map (announce kind)
                    (take (Z.to_nat (Z.of_nat (length locations))) locations))
    as Hend.
  { revert Hrun.
    apply (for_range_inv
             (fun i (s : Patch_experts * list event) =>
                s.2 = st.2 ++ flat_map (announce kind) (take (Z.to_nat i) locations)));
      [lia | simpl; rewrite app_nil_r; reflexivity |].
    intros i s s' Hi Hs Hb.
    destruct (Hstep i s s' Hb) as (location & [_ Hloc]%vec_at_Ok & ->).
    replace (Z.to_nat (i + 1)) with (S (Z.to_nat i)) by lia.
    rewrite (take_S_r _ _ _ Hloc), flat_map_app, Hs, <- app_assoc.
    f_equal. }
  rewrite Nat2Z.id, firstn_all in Hend. exact Hend.
Qed.

Lemma Read_svr_scale_log (locations : list string) (i : Z)
    (s s' : Patch_experts * list event) :
  Read_svr_scale locations i s = Ok s' ->
  exists location, vec_at locations i = Ok location /\
    s'.2 = s.2 ++ announce "SVR" location.
Proof.
  unfold Read_svr_scale. intros H.
  apply bind_Ok in H as (location & Hloc & H). exists location.
  split; [exact Hloc|].
  apply bind_Ok in H as (io & _ & H).
  apply bind_Ok in H as ([io' o'] & Hlog%Read_SVR_patch_experts_log & H).
  res_inv H. injection H as <-. simpl. rewrite Hlog, <- app_assoc. reflexivity.
Qed.

Lemma Read_ccnf_scale_log (locations : list string) (i : Z)
    (s s' : Patch_experts * list event) :
  Read_ccnf_scale locations i s = Ok s' ->
  exists location, vec_at locations i = Ok location /\
    s'.2 = s.2 ++ announce "CCNF" location.
Proof.
  unfold Read_ccnf_scale. intros H.
  apply bind_Ok in H as (location & Hloc & H). exists location.
  split; [exact Hloc|].
  apply bind_Ok in H as (io & _ & H).
  apply bind_Ok in H as ([[io' sg] o'] & Hlog%Read_CCNF_patch_experts_log & H).
  res_inv H. injection H as <-. simpl. rewrite Hlog, <- app_assoc. reflexivity.
Qed.

Lemma Read_cen_scale_log (locations : list string) (i : Z)
    (s s' : Patch_experts * list event) :
  Read_cen_scale locations i s = Ok s' ->
  exists location, vec_at locations i = Ok location /\
    s'.2 = s.2 ++ announce "CEN" location.
Proof.
  unfold Read_cen_scale. intros H.
  apply bind_Ok in H as (location & Hloc & H). exists location.
  split; [exact Hloc|].
  apply bind_Ok in H as (io & _ & H).
  apply bind_Ok in H as ([[io' mr] o'] & Hlog%Read_CEN_patch_experts_log & H).
  res_inv H. injection H as <-. simpl. rewrite Hlog, <- app_assoc. reflexivity.
Qed.

(** X20. What a completed [Read] has printed: for every SVR path, then
    every CCNF path, then every CEN path, in the order given, the
    announcement of the path followed by [Done] if the file could be opened
    and by the message that it could not otherwise; and nothing about the
    early termination file. *)
Theorem Read_console_output (this this' : Patch_experts)
    (svr ccnf cen : list string) (early : string) (out out' : list event) :
  Read this svr ccnf cen early out = Ok (this', out') ->
  out' = out ++ flat_map (announce "SVR") svr
             ++ flat_map (announce "CCNF") ccnf
             ++ flat_map (announce "CEN") cen.
Proof.
  unfold Read. intros H.
  apply bind_Ok in H as (t1 & _ & H).
  apply bind_Ok in H as (svr1 & _ & H).
  apply bind_Ok in H as ([t2 o2] & Hl2 & H).
  apply bind_Ok in H as (t3 & _ & H).
  apply bind_Ok in H as ([t4 o4] & Hl4 & H).
  apply bind_Ok in H as (t5 & _ & H).
  apply bind_Ok in H as ([t6 o6] & Hl6 & H).
  apply bind_Ok in H as (t7 & _ & H). injection H as _ <-.
  apply (announce_loop "SVR") in Hl2; [|exact (Read_svr_scale_log svr)].
  apply (announce_loop "CCNF") in Hl4; [|exact (Read_ccnf_scale_log ccnf)].
  apply (announce_loop "CEN") in Hl6; [|exact (Read_cen_scale_log cen)].
  simpl in *. rewrite Hl6, Hl4, Hl2, <- !app_assoc. reflexivity.
Qed.

End ReadLog.

(* ================================================================= *)
(** ** The window-size catalogue of a CCNF file *)

Section Catalogue.
Context `{Ex : Externals}.

Lemma read_catalogue_S (k : nat) (f : Stream) :
  read_catalogue (S k) f =
  ((read_int_bin f).1
     :: (read_catalogue k
           (read_list ReadMatBin_float
              (Z.to_nat (read_int_bin (read_int_bin f).2).1)
              (read_int_bin (read_int_bin f).2).2).2).1.1,
   (read_list ReadMatBin_float
      (Z.to_nat (read_int_bin (read_int_bin f).2).1)
      (read_int_bin (read_int_bin f).2).2).1
     :: (read_catalogue k
           (read_list ReadMatBin_float
              (Z.to_nat (read_int_bin (read_int_bin f).2).1)
              (read_int_bin (read_int_bin f).2).2).2).1.2,
   (read_catalogue k
      (read_list ReadMatBin_float
         (Z.to_nat (read_int_bin (read_int_bin f).2).1)
         (read_int_bin (read_int_bin f).2).2).2).2).
Proof. reflexivity. Qed.

Lemma read_catalogue_snoc (k : nat) (f : Stream) :
  read_catalogue (S k) f =
  ((read_catalogue k f).1.1 ++ [(read_int_bin (read_catalogue k f).2).1],
   (read_catalogue k f).1.2 ++
     [(read_list ReadMatBin_float
         (Z.to_nat (read_int_bin (read_int_bin (read_catalogue k f).2).2).1)
         (read_int_bin (read_int_bin (read_catalogue k f).2).2).2).1],
   (read_list ReadMatBin_float
      (Z.to_nat (read_int_bin (read_int_bin (read_catalogue k f).2).2).1)
      (read_int_bin (read_int_bin (read_catalogue k f).2).2).2).2).
Proof.
  revert f. induction k as [|k IH]; intros f; [reflexivity|].
  rewrite read_catalogue_S, IH, (read_catalogue_S k f). reflexivity.
Qed.

Lemma read_catalogue_length (k : nat) (f : Stream) :
  length (read_catalogue k f).1.1 = k /\ length (read_catalogue k f).1.2 = k.
Proof.
  induction k as [|k [IH1 IH2]]; [split; reflexivity|].
  rewrite read_catalogue_snoc. simpl. rewrite !length_app, IH1, IH2. simpl.
  split; lia.
Qed.

Lemma catalogue_counts_snoc (k : nat) (f : Stream) :
  catalogue_counts (S k) f =
  catalogue_counts k f ++
    [(read_int_bin (read_int_bin (read_catalogue k f).2).2).1].
Proof.
  revert f. induction k as [|k IH]; intros f; [reflexivity|].
  change (catalogue_counts (S (S k)) f)
    with ((read_int_bin (read_int_bin f).2).1
            :: catalogue_counts (S k)
                 (read_list ReadMatBin_float
                    (Z.to_nat (read_int_bin (read_int_bin f).2).1)
                    (read_int_bin (read_int_bin f).2).2).2).
  rewrite IH, (read_catalogue_S k f). reflexivity.
Qed.

Lemma catalogue_counts_length (k : nat) (f : Stream) :
  length (catalogue_counts k f) = k.
Proof.
  induction k as [|k IH]; [reflexivity|].
  rewrite catalogue_counts_snoc, length_app, IH. simpl. lia.
Qed.

Lemma catalogue_counts_lookup (k i : nat) (f : Stream) :
  (i < k)%nat ->
  catalogue_counts k f !! i
  = Some (read_int_bin (read_int_bin (read_catalogue i f).2).2).1.
Proof.
  induction k as [|k IH]; [lia|]. intros Hi. rewrite catalogue_counts_snoc.
  destruct (decide (i = k)) as [->|Hne].
  - rewrite lookup_app_r by (rewrite catalogue_counts_length; lia).
    rewrite catalogue_counts_length, Nat.sub_diag. reflexivity.
  - rewrite lookup_app_l by (rewrite catalogue_counts_length; lia).
    apply IH. lia.
Qed.

(** The loop over the window sizes never faults when no count is
    negative: it fills the two vectors with the catalogue of the file, in
    order. *)
Lemma read_window_loop (k : nat) (f : Stream) (windows0 : list Z)
    (sigma0 : list (list MatF)) :
  length windows0 = k -> length sigma0 = k ->
  Forall (fun c => 0 <= c) (catalogue_counts k f) ->
  for_range 0 (Z.of_nat k) read_window (windows0, sigma0, f)
  = Ok (read_catalogue k f).
Proof.
  intros Hw Hs Hc.
  destruct (for_range_total
              (fun i (st : list Z * list (list MatF) * Stream) =>
                 st = ((read_catalogue (Z.to_nat i) f).1.1
                         ++ drop (Z.to_nat i) windows0,
                       (read_catalogue (Z.to_nat i) f).1.2
                         ++ drop (Z.to_nat i) sigma0,
                       (read_catalogue (Z.to_nat i) f).2))
              0 (Z.of_nat k) read_window (windows0, sigma0, f))
    as (st & Hrun & Hst).
  - lia.
  - reflexivity.
  - intros i s Hi ->.
    replace (Z.to_nat (i + 1)) with (S (Z.to_nat i)) by lia.
    rewrite read_catalogue_snoc.
    pose proof (catalogue_counts_lookup k (Z.to_nat i) f ltac:(lia)) as Hcount.
    destruct (read_catalogue_length (Z.to_nat i) f) as [Hl1 Hl2].
    destruct (read_catalogue (Z.to_nat i) f) as [[ws sg] g]. simpl in *.
    set (wf := read_int_bin g) in *. set (nf := read_int_bin wf.2) in *.
    assert (0 <= nf.1) as Hnn.
    { rewrite Forall_lookup in Hc. exact (Hc _ _ Hcount). }
    destruct (lookup_lt_is_Some_2 windows0 (Z.to_nat i)) as [w0 Hw0]; [lia|].
    destruct (lookup_lt_is_Some_2 sigma0 (Z.to_nat i)) as [s0 Hs0]; [lia|].
    rewrite (drop_S _ _ _ Hw0), (drop_S _ _ _ Hs0).
    assert (vec_set (ws ++ w0 :: drop (S (Z.to_nat i)) windows0) i wf.1
            = Ok (ws ++ wf.1 :: drop (S (Z.to_nat i)) windows0)) as Hset1.
    { apply vec_set_Ok. rewrite length_app. simpl. split; [lia|].
      rewrite insert_app_r_alt by lia. rewrite Hl1, Nat.sub_diag. reflexivity. }
    assert (vec_at (sg ++ s0 :: drop (S (Z.to_nat i)) sigma0) i = Ok s0) as Hat.
    { apply vec_at_Ok. split; [lia|].
      rewrite lookup_app_r by lia. rewrite Hl2, Nat.sub_diag. reflexivity. }
    destruct (vec_resize_defined MatF_default s0 nf.1 Hnn) as (sc0 & Hres & Hlen).
    assert (vec_set (sg ++ s0 :: drop (S (Z.to_nat i)) sigma0) i
              (read_list ReadMatBin_float (Z.to_nat nf.1) nf.2).1
            = Ok (sg ++ (read_list ReadMatBin_float (Z.to_nat nf.1) nf.2).1
                    :: drop (S (Z.to_nat i)) sigma0)) as Hset2.
    { apply vec_set_Ok. rewrite length_app. simpl. split; [lia|].
      rewrite insert_app_r_alt by lia. rewrite Hl2, Nat.sub_diag. reflexivity. }
    destruct (read_list ReadMatBin_float (Z.to_nat nf.1) nf.2) as [ms g'] eqn:Hms.
    simpl in Hset2. eexists. split.
    + unfold read_window. fold wf. fold nf.
      eapply bind_intro; [exact Hset1|]. cbv zeta.
      eapply bind_intro; [exact Hat|].
      eapply bind_intro; [exact Hres|].
      eapply bind_intro; [apply read_slots_spec|]. rewrite Hlen, Hms.
      eapply bind_intro; [exact Hset2|]. reflexivity.
    + rewrite <- !app_assoc. reflexivity.
  - etransitivity; [exact Hrun|]. rewrite Hst, Nat2Z.id.
    rewrite !drop_ge, !app_nil_r by lia.
    destruct (read_catalogue k f) as [[a b] c]. reflexivity.
Qed.

End Catalogue.

Section CatalogueUse.
Context `{Ex : Externals}.

(** After the loop over the landmarks of a view every expert of the view
    is one that [rd] returned. *)
Lemma read_view_read {P : Type} (rd : P -> Stream -> P * Stream)
    (numberOfPoints : Z) (p0 : list P) (f : Stream) (pf : list P * Stream) :
  length p0 = Z.to_nat numberOfPoints ->
  for_range 0 numberOfPoints
    (fun j st2 =>
       e ← vec_at st2.1 j;
       let ef := rd e st2.2 in
       p' ← vec_set st2.1 j ef.1;
       Ok (p', ef.2))
    (p0, f) = Ok pf ->
  Forall (fun e => exists e0 g, e = (rd e0 g).1) pf.1.
Proof.
  intros Hlen Hrun. destruct (Z.le_gt_cases numberOfPoints 0) as [Hn|Hn].
  { rewrite for_range_empty in Hrun by exact Hn. injection Hrun as <-. simpl.
    destruct p0; [constructor | simpl in Hlen; lia]. }
  enough (length pf.1 = Z.to_nat numberOfPoints /\
          forall (k : nat) e, Z.of_nat k < numberOfPoints -> pf.1 !! k = Some e ->
            exists e0 g, e = (rd e0 g).1) as [Hl Hall].
  { apply Forall_forall. intros e [k Hk]%list_elem_of_lookup.
    apply (Hall k e); [|exact Hk]. apply lookup_lt_Some in Hk. lia. }
  revert Hrun.
  apply (for_range_inv
           (fun j (st : list P * Stream) =>
              length st.1 = Z.to_nat numberOfPoints /\
              forall (k : nat) e, Z.of_nat k < j -> st.1 !! k = Some e ->
                exists e0 g, e = (rd e0 g).1)); [lia | |].
  - split; [exact Hlen|]. intros k e Hk. lia.
  - intros j [p g] st' Hj [Hl Hall] Hb. simpl in *.
    apply bind_Ok in Hb as (e & He & Hb).
    apply bind_Ok in Hb as (p' & [_ ->]%vec_set_Ok & Hb). injection Hb as <-.
    simpl. split; [rewrite length_insert; exact Hl|].
    intros k x Hk Hx. destruct (decide (k = Z.to_nat j)) as [->|Hne].
    + rewrite list_lookup_insert_eq in Hx by lia. injection Hx as <-. eauto.
    + rewrite list_lookup_insert_ne in Hx by congruence.
      apply (Hall k x); [lia | exact Hx].
Qed.

Lemma read_patches_read {P : Type} (dflt : P) (rd : P -> Stream -> P * Stream)
    (numberOfPoints : Z) (patches : list (list P)) (f : Stream)
    (r : list (list P) * Stream) :
  read_patches dflt rd numberOfPoints patches f = Ok r ->
  Forall (Forall (fun e => exists e0 g, e = (rd e0 g).1)) r.1.
Proof.
  unfold read_patches. intros Hrun.
  enough (length r.1 = length patches /\
          forall (k : nat) p, Z.of_nat k < Z.of_nat (length patches) ->
            r.1 !! k = Some p ->
            Forall (fun e => exists e0 g, e = (rd e0 g).1) p) as [Hl Hall].
  { apply Forall_forall. intros p [k Hk]%list_elem_of_lookup.
    apply (Hall k p); [|exact Hk]. apply lookup_lt_Some in Hk. lia. }
  revert Hrun.
  apply (for_range_inv
           (fun i (st : list (list P) * Stream) =>
              length st.1 = length patches /\
              forall (k : nat) p, Z.of_nat k < i -> st.1 !! k = Some p ->
                Forall (fun e => exists e0 g, e = (rd e0 g).1) p)); [lia | |].
  - split; [reflexivity|]. intros k p Hk. lia.
  - intros i [ps g] st' Hi [Hl Hall] Hb. simpl in *.
    apply bind_Ok in Hb as (p & Hp & Hb).
    apply bind_Ok in Hb as (p0 & Hp0%vec_resize_length & Hb).
    apply bind_Ok in Hb as (pf & Hpf & Hb).
    apply read_view_read in Hpf; [|exact Hp0].
    apply bind_Ok in Hb as (ps' & [_ ->]%vec_set_Ok & Hb). injection Hb as <-.
    simpl. split; [rewrite length_insert; exact Hl|].
    intros k q Hk Hq. destruct (decide (k = Z.to_nat i)) as [->|Hne].
    + rewrite list_lookup_insert_eq in Hq by lia. injection Hq as <-. exact Hpf.
    + rewrite list_lookup_insert_ne in Hq by congruence.
      apply (Hall k q); [lia | exact Hq].
Qed.

(** X21. The CCNF loader on a file it could open and that has at least
    one view. A negative number of window sizes makes the [resize] of the
    catalogue throw. With no negative count in the catalogue and no
    negative row count in the first visibility the loader returns
    normally: [this->sigma_components] is replaced by the catalogue of
    the file, one entry per window size in file order, whatever it held
    before, and every expert left in the output was read with the
    window sizes and the basis matrices of that catalogue. *)
Theorem Read_CCNF_patch_experts_opened (location : string)
    (this_sigma : list (list MatF)) (io : loader_io CCNF_patch_expert)
    (log : list event) :
  is_open (ifstream_open location) = true ->
  let sf := read_double_bin (ifstream_open location) in
  let nf := read_int_bin sf.2 in
  let numberViews := nf.1 in
  let cs := read_list (read_center ReadMatBin_center) (Z.to_nat numberViews) nf.2 in
  let vs := read_list ReadMatBin_int (Z.to_nat numberViews) cs.2 in
  let wf := read_int_bin vs.2 in
  let num_win_sizes := wf.1 in
  let cat := read_catalogue (Z.to_nat num_win_sizes) wf.2 in
  let loaded := Read_CCNF_patch_experts location this_sigma io log in
  0 < numberViews ->
  forall vis0, vs.1 !! 0%nat = Some vis0 ->
    (num_win_sizes < 0 -> loaded = Fault LengthError) /\
    (0 <= num_win_sizes -> 0 <= Mat_rows vis0 ->
     Forall (fun c => 0 <= c) (catalogue_counts (Z.to_nat num_win_sizes) wf.2) ->
     exists patches,
       loaded = Ok ({| io_centers := cs.1; io_visibility := vs.1;
                       io_patches := patches; io_scale := sf.1 |},
                    cat.1.2, log ++ [E_cout "Done"]) /\
       length cat.1.2 = Z.to_nat num_win_sizes /\
       Forall (Forall (fun e => exists e0 g,
                         e = (CCNF_Read e0 g cat.1.1 cat.1.2).1)) patches).
Proof.
  intros Hopen. cbv zeta. unfold Read_CCNF_patch_experts. rewrite Hopen. cbv zeta.
  set (sf := read_double_bin (ifstream_open location)).
  set (nv := (read_int_bin sf.2).1).
  intros Hpos vis0.
  destruct (vec_resize_defined Vec3d_zero (io_centers _ io) nv ltac:(lia))
    as (c0 & -> & Hc0).
  destruct (vec_resize_defined Mat_int_empty (io_visibility _ io) nv ltac:(lia))
    as (v0 & -> & Hv0).
  destruct (vec_resize_defined [] (io_patches _ io) nv ltac:(lia)) as (p0 & -> & Hp0).
  simpl. rewrite read_slots_spec, Hc0.
  destruct (read_list (read_center ReadMatBin_center) (Z.to_nat nv) (read_int_bin sf.2).2)
    as [c f1]. simpl.
  rewrite read_slots_spec, Hv0.
  destruct (read_list ReadMatBin_int (Z.to_nat nv) f1) as [v f2] eqn:Hv. simpl.
  intros Hvis0.
  assert (vec_at v 0 = Ok vis0) as -> by (apply vec_at_Ok; split; [lia|exact Hvis0]).
  simpl. set (wf := read_int_bin f2). split.
  - intros Hneg. unfold vec_resize.
    destruct (Z.ltb_spec wf.1 0); [reflexivity | lia].
  - intros Hk Hrows Hcounts.
    destruct (vec_resize_defined 0 [] wf.1 Hk) as (w0 & -> & Hw0).
    destruct (vec_resize_defined (@nil MatF) [] wf.1 Hk) as (s0 & -> & Hs0).
    simpl.
    pose proof (read_window_loop (Z.to_nat wf.1) wf.2 w0 s0 Hw0 Hs0 Hcounts) as Hloop.
    rewrite Z2Nat.id in Hloop by exact Hk. rewrite Hloop.
    destruct (read_catalogue_length (Z.to_nat wf.1) wf.2) as [_ Hlen].
    destruct (read_catalogue (Z.to_nat wf.1) wf.2) as [[ws sg] f3]. simpl in *.
    destruct (read_patches_total CCNF_new (fun e g => CCNF_Read e g ws sg)
                (Mat_rows vis0) p0 f3 Hrows) as ([p f4] & Hp & _).
    rewrite Hp. simpl. exists p. split; [reflexivity|]. split; [exact Hlen|].
    exact (read_patches_read _ _ _ _ _ _ Hp).
Qed.

End CatalogueUse.

(* ================================================================= *)
(** ** When [Response] runs to its end *)

Section Defined.
Context `{Ex : Externals}.

Lemma int_of_defined (z : Z) : INT_MIN <= z <= INT_MAX -> int_of z = Ok z.
Proof. intros H. apply int_of_Ok. split; [reflexivity | exact H]. Qed.

Lemma sampling_transform_defined (env : Response_env) (len : nat) (i : Z) :
  located (env_landmark_locations env) (env_n env) len i -> 0 <= env_n env ->
  exists sim, sampling_transform env i = Ok sim.
Proof.
  intros (Hi & Hmax & [x Hx] & [y Hy]) Hn. unfold sampling_transform, int_add.
  rewrite Hx. simpl. rewrite int_of_defined by (unfold INT_MIN in *; lia). simpl.
  rewrite Hy. simpl. eauto.
Qed.

Lemma size_defined (window_size w h : Z) :
  size_ok window_size w -> size_ok window_size h ->
  (w0 ← int_add window_size w; w1 ← int_sub w0 1;
   h0 ← int_add window_size h; h1 ← int_sub h0 1; Ok (w1, h1))
  = Ok (window_size + w - 1, window_size + h - 1).
Proof.
  unfold size_ok, int_add, int_sub. intros Hw Hh.
  rewrite (int_of_defined (window_size + w)) by lia. simpl.
  rewrite (int_of_defined (window_size + w - 1)) by lia. simpl.
  rewrite (int_of_defined (window_size + h)) by lia. simpl.
  rewrite (int_of_defined (window_size + h - 1)) by lia. reflexivity.
Qed.

(** An iteration on a ready landmark completes and keeps the number of
    slots. *)
Lemma Response_body_defined (env : Response_env) (ind : Z) (st : Response_state) :
  env_use_cen env = negb (vec_empty (cen_expert_intensity (env_this env))) ->
  env_use_ccnf env = false ->
  ccnf_expert_intensity (env_this env) = [] ->
  0 <= env_n env ->
  landmark_ready (env_this env) (env_landmark_locations env)
    (length (patch_expert_responses st)) (env_n env) (env_window_size env)
    (env_scale env) (env_view_id env) ind ->
  exists st', Response_body env ind st = Ok st' /\
    length (patch_expert_responses st') = length (patch_expert_responses st).
Proof.
  intros Hcen Hccnf Hno Hn [Hloc Hex].
  destruct (sampling_transform_defined env _ ind Hloc Hn) as [sim Hsim].
  pose proof Hloc as (Hind & _).
  destruct (vec_at_defined (patch_expert_responses st) ind Hind) as [r Hr].
  unfold Response_body, area_of_interest_size. rewrite Hcen, Hccnf.
  unfold dispatch. rewrite Hno.
  destruct (vec_empty (cen_expert_intensity (env_this env))) eqn:Hc; simpl.
  - (* SVR *)
    destruct Hex as (ex & Hat & Hw & Hh). rewrite Hat. simpl.
    rewrite (size_defined _ _ _ Hw Hh). simpl. rewrite Hsim. simpl.
    rewrite (vec_set_defined _ _ _ _ Hr). simpl.
    rewrite (vec_at_insert _ _ _ _ Hr). simpl.
    erewrite vec_set_defined by (eapply vec_at_insert; exact Hr). simpl.
    eexists. split; [reflexivity|]. simpl. rewrite !length_insert. reflexivity.
  - (* CEN *)
    destruct Hex as (ex & Hat & Hw & Hh & Hm). rewrite Hat. simpl.
    rewrite (size_defined _ _ _ Hw Hh). simpl. rewrite Hsim. simpl.
    destruct (Z.eqb_spec (env_view_id env) 0) as [Hview|Hview].
    + destruct (vec_empty (biases ex)) eqn:Hb; simpl.
      { eexists. split; reflexivity. }
      apply vec_empty_false in Hb. destruct (Hm Hb) as (m & Hmi & Hmloc).
      rewrite Hmi. simpl. destruct (Z.eqb_spec m ind) as [->|Hne].
      * rewrite Hr. simpl. rewrite (vec_set_defined _ _ _ _ Hr). simpl.
        eexists. split; [reflexivity|]. simpl. apply length_insert.
      * specialize (Hmloc Hne).
        destruct (sampling_transform_defined env _ m Hmloc Hn) as [sim_r Hsr].
        rewrite Hsr. simpl. rewrite Hr. simpl.
        destruct Hmloc as (Hmr & _).
        destruct (vec_at_defined (patch_expert_responses st) m Hmr) as [rm Hrm].
        rewrite Hrm. simpl. rewrite (vec_set_defined _ _ _ _ Hr). simpl.
        assert (exists rm', vec_at (<[Z.to_nat ind := (CEN_ResponseSparse_mirror_joint ex
                   (extract env (env_window_size env + cen_height ex - 1)
                      (env_window_size env + cen_width ex - 1) sim)
                   (extract env (env_window_size env + cen_height ex - 1)
                      (env_window_size env + cen_width ex - 1) sim_r)
                   r rm (env_interp_mat env)).1]> (patch_expert_responses st)) m
                 = Ok rm') as [rm' Hrm'].
        { apply vec_at_defined. rewrite length_insert. exact Hmr. }
        rewrite (vec_set_defined _ _ _ _ Hrm'). simpl.
        eexists. split; [reflexivity|]. simpl. rewrite !length_insert. reflexivity.
    + destruct (vec_empty (biases ex)) eqn:Hb; simpl.
      * apply vec_empty_true in Hb. destruct (Hm Hb) as (mv & mi & ex_m & H1 & H2 & H3).
        rewrite H1. simpl. rewrite H2. simpl. rewrite H3. simpl. rewrite Hr. simpl.
        rewrite (vec_set_defined _ _ _ _ Hr). simpl.
        eexists. split; [reflexivity|]. simpl. apply length_insert.
      * rewrite Hr. simpl. rewrite (vec_set_defined _ _ _ _ Hr). simpl.
        eexists. split; [reflexivity|]. simpl. apply length_insert.
Qed.

Lemma Response_loop_defined (env : Response_env) (l : list Z)
    (st : Response_state) :
  env_use_cen env = negb (vec_empty (cen_expert_intensity (env_this env))) ->
  env_use_ccnf env = false ->
  ccnf_expert_intensity (env_this env) = [] ->
  0 <= env_n env ->
  (forall i, i ∈ l ->
     landmark_ready (env_this env) (env_landmark_locations env)
       (length (patch_expert_responses st)) (env_n env) (env_window_size env)
       (env_scale env) (env_view_id env) i) ->
  exists st', forM l (Response_body env) st = Ok st'.
Proof.
  intros Hcen Hccnf Hno Hn. revert st.
  induction l as [|i l IH]; intros st Hready; simpl; [eauto|].
  destruct (Response_body_defined env i st Hcen Hccnf Hno Hn) as (st1 & -> & Hlen).
  { apply Hready. left. }
  simpl. apply IH. intros j Hj. rewrite Hlen. apply Hready. right. exact Hj.
Qed.

Lemma precompute_interp_mat_defined (use_cen : bool) (window_size : Z) :
  (use_cen = true -> INT_MIN + 1 <= window_size /\ window_size + 11 <= INT_MAX) ->
  exists r, precompute_interp_mat use_cen window_size = Ok r.
Proof.
  unfold precompute_interp_mat, int_add, int_sub. destruct use_cen; [|eauto].
  intros H. destruct (H eq_refl) as [Hlo Hhi].
  assert (INT_MIN <= 0 <= INT_MAX) as Hz by (unfold INT_MIN, INT_MAX; lia).
  rewrite (int_of_defined (window_size + 11)) by lia. simpl.
  rewrite (int_of_defined (window_size + 11 - 1)) by lia. simpl.
  rewrite (int_of_defined (window_size + 11 - 1 - 11)) by lia. simpl.
  rewrite (int_of_defined (window_size + 11 - 1 - 11 + 1)) by lia. simpl.
  eauto.
Qed.

(** The collection completes when it can read what it reads, and returns
    visible landmarks only. *)
Lemma Collect_visible_landmarks_total (this : Patch_experts)
    (visibilities : list (list Mat_int)) (scale view_id n : Z)
    (vs : list Mat_int) (vis : Mat_int) :
  vec_at visibilities scale = Ok vs ->
  vec_at vs view_id = Ok vis ->
  (forall i, 0 <= i < n -> exists v, Mat_at vis i 0 = Ok v) ->
  (cen_expert_intensity this <> [] -> view_id = 0 ->
   forall i, 0 <= i < n -> is_visible vis i = true ->
     exists ex, at3 (cen_expert_intensity this) scale view_id i = Ok ex) ->
  exists l, Collect_visible_landmarks this visibilities scale view_id n = Ok l /\
    forall i, i ∈ l -> 0 <= i < n /\ is_visible vis i = true.
Proof.
  intros Hvs Hvis Hat Hex. unfold Collect_visible_landmarks.
  destruct (Z.le_gt_cases n 0) as [Hn|Hn].
  { exists []. split; [apply for_range_empty; exact Hn|].
    intros i Hi. inversion Hi. }
  destruct (for_range_total
              (fun k (l : list Z) =>
                 forall i, i ∈ l -> 0 <= i < k /\ is_visible vis i = true)
              0 n (Collect_visible_landmarks_body this visibilities scale view_id n) [])
    as (l & Hrun & Hl).
  - lia.
  - intros i Hi. inversion Hi.
  - intros k l Hk IH.
    assert (forall i, i ∈ l -> 0 <= i < k + 1 /\ is_visible vis i = true) as IH'.
    { intros i Hi. destruct (IH i Hi). split; [lia | assumption]. }
    assert (forall i, i ∈ l ++ [k] -> is_visible vis k = true ->
              0 <= i < k + 1 /\ is_visible vis i = true) as IH''.
    { intros i [Hi| ->%list_elem_of_singleton]%elem_of_app Hv; [auto|].
      split; [lia | exact Hv]. }
    unfold Collect_visible_landmarks_body. rewrite Hvs. simpl. rewrite Hvis. simpl.
    destruct (Mat_rows vis =? n); [|eauto].
    destruct (Hat k Hk) as [v Hv]. rewrite Hv. simpl.
    assert (is_visible vis k = negb (v =? 0)) as Hisv
      by (unfold is_visible; rewrite Hv; reflexivity).
    destruct (negb (v =? 0)); [|eauto].
    destruct (vec_empty (cen_expert_intensity this)) eqn:Hcen; simpl; [eauto|].
    apply vec_empty_false in Hcen.
    destruct (Z.eqb_spec view_id 0) as [Hview|Hview]; [|eauto].
    destruct (Hex Hcen Hview k Hk Hisv) as [ex Hexk]. rewrite Hexk. simpl.
    destruct (negb (vec_empty (biases ex))); eauto.
  - exists l. split; [exact Hrun | exact Hl].
Qed.

(** X22. With no CCNF expert loaded, [Response] runs to its end provided
    the scale has a patch scaling and a visibility for the selected view
    whose first column can be read at every landmark, the window size
    leaves room for the support of 11 in an [int] when CEN experts are
    loaded, and every visible landmark is ready: it has a slot in the
    response vector, its coordinates in the shape, an expert of the
    representation in use, and the mirror entries its iteration follows. *)
Theorem Response_defined (this : Patch_experts) (responses0 : list MatF)
    (grayscale_image : Image) (pdm : PDM) (params_global : Vec6f)
    (params_local : MatF) (window_size scale view_id : Z) (ps : double)
    (vs : list Mat_int) (vis : Mat_int) :
  ccnf_expert_intensity this = [] ->
  GetViewIdx this params_global scale = Ok view_id ->
  vec_at (patch_scaling this) scale = Ok ps ->
  vec_at (visibilities this) scale = Ok vs ->
  vec_at vs view_id = Ok vis ->
  (forall i, 0 <= i < NumberOfPoints pdm -> exists v, Mat_at vis i 0 = Ok v) ->
  (cen_expert_intensity this <> [] ->
   INT_MIN + 1 <= window_size /\ window_size + 11 <= INT_MAX) ->
  (forall i, 0 <= i < NumberOfPoints pdm -> is_visible vis i = true ->
     landmark_ready this (CalcShape2D pdm params_local params_global)
       (length responses0) (NumberOfPoints pdm) window_size scale view_id i) ->
  exists r,
    Response this responses0 grayscale_image pdm params_global params_local
      window_size scale = Ok r.
Proof.
  intros Hno Hview Hps Hvs Hvis Hat Hwin Hready.
  unfold Response. rewrite Hview. simpl. rewrite Hps. simpl. rewrite Hno. simpl.
  destruct (precompute_interp_mat_defined
              (negb (vec_empty (cen_expert_intensity this))) window_size)
    as ([interp_mat ev] & ->).
  { intros Hc. apply Hwin. apply vec_empty_false.
    destruct (vec_empty (cen_expert_intensity this)); [discriminate | reflexivity]. }
  simpl.
  destruct (Collect_visible_landmarks_total this (visibilities this) scale view_id
              (NumberOfPoints pdm) vs vis Hvs Hvis Hat) as (l & -> & Hl).
  { intros Hcen Hz i Hi Hv. destruct (Hready i Hi Hv) as [_ Hex].
    apply vec_empty_false in Hcen. rewrite Hcen in Hex.
    destruct Hex as (ex & Hex & _). eauto. }
  simpl. destruct l as [|i0 l']; [simpl; eauto|].
  match goal with
  | |- exists r, (forM ?l (Response_body ?e) ?s ≫= _) = Ok r =>
      destruct (Response_loop_defined e l s) as [st' ->]
  end; simpl; eauto.
  - destruct (Hl i0 ltac:(left)). lia.
  - intros i Hi. destruct (Hl i Hi) as [Hr Hv]. apply Hready; assumption.
Qed.

End Defined.

(* ================================================================= *)
(** ** The two transforms and the sampling *)

Section Sampling.
Context `{Ex : Externals}.

Lemma sampling_transform_sampled (env : Response_env) (ind : Z) (sim : Mat23f)
    (h w : Z) :
  sampling_transform env ind = Ok sim ->
  sampled (env_a1 env) (env_b1 env) (env_landmark_locations env) (env_n env)
    (E_GetQuadrangleSubPix h w sim).
Proof.
  unfold sampling_transform, int_add. intros H.
  apply bind_Ok in H as (x & Hx & H).
  apply bind_Ok in H as (indn & [-> _]%int_of_Ok & H).
  apply bind_Ok in H as (y & Hy & H). injection H as <-. simpl.
  repeat split; eauto.
Qed.

Lemma dispatch_sampled (env : Response_env) (ind w h : Z) (aoi : MatF)
    (st st' : Response_state) :
  dispatch env ind w h aoi st = Ok st' ->
  exists evs, trace st' = trace st ++ evs /\
    Forall (sampled (env_a1 env) (env_b1 env) (env_landmark_locations env)
              (env_n env)) evs.
Proof.
  unfold dispatch. intros H.
  destruct (vec_empty (cen_expert_intensity (env_this env))); simpl in H.
  - destruct (vec_empty (ccnf_expert_intensity (env_this env))); simpl in H;
      res_inv H; injection H as <-; simpl;
      (eexists; split; [reflexivity|]); repeat constructor.
  - destruct (env_view_id env =? 0).
    + apply bind_Ok in H as (ex & _ & H).
      destruct (vec_empty (biases ex)); simpl in H.
      { injection H as <-. exists []. rewrite app_nil_r.
        split; [reflexivity | constructor]. }
      apply bind_Ok in H as (m & _ & H). destruct (m =? ind).
      * res_inv H. injection H as <-. simpl.
        eexists. split; [reflexivity|]. repeat constructor.
      * apply bind_Ok in H as (sim_r & Hsim & H). res_inv H. injection H as <-.
        simpl. eexists. split; [reflexivity|].
        constructor; [|repeat constructor].
        eapply sampling_transform_sampled. exact Hsim.
    + res_inv H; injection H as <-; simpl;
        (eexists; split; [reflexivity|]); repeat constructor.
Qed.

Lemma Response_loop_sampled (env : Response_env) (l : list Z)
    (st st' : Response_state) :
  forM l (Response_body env) st = Ok st' ->
  exists evs, trace st' = trace st ++ evs /\
    Forall (sampled (env_a1 env) (env_b1 env) (env_landmark_locations env)
              (env_n env)) evs.
Proof.
  revert st. induction l as [|i l IH]; simpl; intros st H.
  - injection H as <-. exists []. rewrite app_nil_r.
    split; [reflexivity | constructor].
  - apply bind_Ok in H as (st1 & H1 & H). unfold Response_body in H1.
    apply bind_Ok in H1 as ([w h] & _ & H1).
    apply bind_Ok in H1 as (sim & Hsim & H1).
    apply dispatch_sampled in H1 as (evs1 & Ht1 & Hs1). simpl in Ht1.
    apply IH in H as (evs2 & Ht2 & Hs2).
    exists (E_GetQuadrangleSubPix h w sim :: evs1 ++ evs2). split.
    + rewrite Ht2, Ht1, <- !app_assoc. reflexivity.
    + constructor; [eapply sampling_transform_sampled; exact Hsim|].
      apply Forall_app. split; assumption.
Qed.

(** X23. The two transforms a completed [Response] returns are the
    alignment of the current shape with the shape the model has at the
    scale [patch_scaling[scale]], narrowed to [float], with no rotation
    and no translation, and the inverse of that alignment. Every
    neighbourhood is extracted with the transform
    [(a1, -b1, x; b1, a1, y)] where [a1] and [-b1] are the first row of
    the inverse and [(x, y)] is the location of a landmark in the current
    shape: the second row of the inverse is not read. *)
Theorem Response_sampling (this : Patch_experts) (responses0 : list MatF)
    (grayscale_image : Image) (pdm : PDM) (params_global : Vec6f)
    (params_local : MatF) (window_size scale : Z) (r : Response_result) :
  Response this responses0 grayscale_image pdm params_global params_local
    window_size scale = Ok r ->
  (exists ps,
     vec_at (patch_scaling this) scale = Ok ps /\
     res_sim_img_to_ref r =
       AlignShapesWithScale_f
         (reshape_1_2_t (CalcShape2D pdm params_local params_global))
         (reshape_1_2_t
            (CalcShape2D pdm params_local
               {| v6_0 := to_float ps; v6_1 := fzero; v6_2 := fzero;
                  v6_3 := fzero; v6_4 := fzero; v6_5 := fzero |}))) /\
  res_sim_ref_to_img r = Matx22f_inv (res_sim_img_to_ref r) /\
  Forall (sampled (m00 (res_sim_ref_to_img r))
            (SFopp (m01 (res_sim_ref_to_img r)))
            (CalcShape2D pdm params_local params_global) (NumberOfPoints pdm))
    (res_trace r).
Proof.
  unfold Response. intros H.
  apply bind_Ok in H as (view_id & _ & H).
  apply bind_Ok in H as (ps & Hps & H).
  apply bind_Ok in H as ([this1 ev_sigma] & Hsig & H).
  apply bind_Ok in H as ([interp_mat ev_interp] & Hint & H).
  apply bind_Ok in H as (vis_lmk & _ & H).
  apply bind_Ok in H as (st & Hloop & H).
  injection H as <-. simpl.
  split; [exists ps; split; [exact Hps | reflexivity]|].
  split; [reflexivity|].
  apply Response_loop_sampled in Hloop as (evs & -> & Hs). simpl in *.
  apply Forall_app. split; [apply Forall_app; split|exact Hs].
  - apply precompute_sigmas_spec in Hsig as (_ & _ & Hsg).
    eapply Forall_impl; [exact Hsg|]. intros e He. destruct e; simpl in *; tauto.
  - apply precompute_interp_mat_spec in Hint.
    destruct (negb (vec_empty (cen_expert_intensity this)));
      destruct Hint as [_ ->]; repeat constructor.
Qed.

End Sampling.

(* ================================================================= *)
(** ** The SVR loader on a file it could open *)

Section TextLoader.
Context `{Ex : Externals}.

(** X24. The SVR loader on a file it could open skips comments before the
    scale, before the view count, before the centers, before the
    visibilities and before the experts, and nowhere else. A negative
    view count makes the first [resize] throw; a view count of zero makes
    the read of [visibility[0].rows] run off the empty vector; with at
    least one view, a first visibility with a negative row count makes the
    [resize] of the experts throw. Otherwise the loader returns
    normally with the centers, converted from degrees, and the
    visibilities of the file in order, and nothing of the previous
    centers, visibilities or scale. *)
Theorem Read_SVR_patch_experts_opened (location : string)
    (io : loader_io Multi_SVR_patch_expert) (log : list event) :
  is_open (ifstream_open location) = true ->
  let sf := read_double (SkipComments (ifstream_open location)) in
  let nf := read_int (SkipComments sf.2) in
  let numberViews := nf.1 in
  let cs := read_list (read_center ReadMat_center) (Z.to_nat numberViews)
              (SkipComments nf.2) in
  let vs := read_list ReadMat_int (Z.to_nat numberViews) (SkipComments cs.2) in
  let loaded := Read_SVR_patch_experts location io log in
  (numberViews < 0 -> loaded = Fault LengthError) /\
  (numberViews = 0 -> loaded = Fault OutOfRange) /\
  (0 < numberViews ->
   forall vis0, vs.1 !! 0%nat = Some vis0 ->
     (Mat_rows vis0 < 0 -> loaded = Fault LengthError) /\
     (0 <= Mat_rows vis0 ->
      exists patches,
        loaded = Ok ({| io_centers := cs.1; io_visibility := vs.1;
                        io_patches := patches; io_scale := sf.1 |},
                     log ++ [E_cout "Done"]) /\
        length patches = Z.to_nat numberViews /\
        Forall (fun p => Z.of_nat (length p) = Mat_rows vis0) patches /\
        Forall (Forall (fun e => exists e0 g, e = (SVR_Read e0 g).1)) patches)).
Proof.
  intros Hopen. cbv zeta. unfold Read_SVR_patch_experts. rewrite Hopen. cbv zeta.
  set (sf := read_double (SkipComments (ifstream_open location))).
  set (nv := (read_int (SkipComments sf.2)).1).
  destruct (Z.ltb_spec nv 0) as [Hneg|Hnn].
  { split; [|split; intros; lia]. intros _. unfold vec_resize.
    destruct (Z.ltb_spec nv 0); [reflexivity | lia]. }
  split; [intros; lia|].
  destruct (vec_resize_defined Vec3d_zero (io_centers _ io) nv Hnn) as (c0 & -> & Hc0).
  destruct (vec_resize_defined Mat_int_empty (io_visibility _ io) nv Hnn)
    as (v0 & -> & Hv0).
  destruct (vec_resize_defined [] (io_patches _ io) nv Hnn) as (p0 & -> & Hp0).
  simpl. rewrite read_slots_spec, Hc0.
  destruct (read_list (read_center ReadMat_center) (Z.to_nat nv)
              (SkipComments (read_int (SkipComments sf.2)).2))
    as [c f1]. simpl.
  rewrite read_slots_spec, Hv0.
  destruct (read_list ReadMat_int (Z.to_nat nv) (SkipComments f1)) as [v f2] eqn:Hv.
  simpl. split.
  - intros Hz. assert (v = []) as ->.
    { rewrite Hz in Hv. simpl in Hv. injection Hv as <- _. reflexivity. }
    reflexivity.
  - intros Hpos vis0 Hvis0.
    assert (vec_at v 0 = Ok vis0) as -> by (apply vec_at_Ok; split; [lia|exact Hvis0]).
    simpl. split.
    + intros Hrows. rewrite read_patches_negative; [reflexivity | exact Hrows |].
      intros ->. simpl in Hp0. lia.
    + intros Hrows.
      destruct (read_patches_total SVR_new SVR_Read (Mat_rows vis0) p0
                  (SkipComments f2) Hrows)
        as ([p f3] & Hp & Hlen & Hall). rewrite Hp. simpl in *.
      exists p. split; [reflexivity|]. split; [congruence|].
      split; [exact Hall|]. exact (read_patches_read _ _ _ _ _ _ Hp).
Qed.

End TextLoader.

(* ================================================================= *)
(** ** These properties at the sample files *)

Section MoreAtSample.
Import Sample.

Lemma ccnf_run :
  Response ccnf_store [[]; []; []] tt pdm3 pose0 [] 3 0 = Ok ccnf_response.
Proof. vm_compute. reflexivity. Qed.

Lemma short_run :
  Response cen_store [[]; []; []] tt pdm2 pose0 [] 3 0 = Ok short_response.
Proof. vm_compute. reflexivity. Qed.

(** X15 at a CCNF store whose middle landmark is not visible. *)
Lemma precompute_sigmas_experts_witness :
  exists sigma,
    for_range 0 (Z.of_nat (length (sigma_components partly_visible_store)))
      (select_sigma_components partly_visible_store 3) [] = Ok sigma /\
    (forall i, 0 <= i < 3 -> is_visible (column [1; 0; 1]) i = true ->
       exists ex,
         at3 (ccnf_expert_intensity partly_visible_store) 0 0 i = Ok ex /\
         at3 (ccnf_expert_intensity partly_visible_store) 0 0 i
         = Ok (CCNF_ComputeSigmas ex sigma 3)) /\
    (forall s v i,
       s <> 0 \/ v <> 0 \/ ~ 0 <= i < 3 \/ is_visible (column [1; 0; 1]) i = false ->
       at3 (ccnf_expert_intensity partly_visible_store) s v i
       = at3 (ccnf_expert_intensity partly_visible_store) s v i) /\
    shape (ccnf_expert_intensity partly_visible_store)
    = shape (ccnf_expert_intensity partly_visible_store) /\
    partly_visible_store
    = set_ccnf_expert_intensity partly_visible_store
        (ccnf_expert_intensity partly_visible_store).
Proof.
  apply (precompute_sigmas_experts partly_visible_store partly_visible_store
           0 0 3 3 [column [1; 0; 1]] (column [1; 0; 1])
           [E_ComputeSigmas 0 3; E_ComputeSigmas 2 3]); reflexivity.
Defined.

(** X16 at the run of the sample CEN store: landmarks 0 and 1 are
    collected and both slots are filled. *)
Lemma Response_fills_visible_witness :
  exists view_id vis_lmk,
    GetViewIdx cen_store pose0 0 = Ok view_id /\
    Collect_visible_landmarks cen_store (visibilities cen_store) 0 view_id
      (NumberOfPoints pdm3) = Ok vis_lmk /\
    forall ind, ind ∈ vis_lmk -> ind ∈ slots_written (res_trace cen_response).
Proof.
  exact (Response_fills_visible cen_store [[]; []; []] tt pdm3 pose0 [] 3 0
           cen_response cen_run).
Defined.

(** X17 with the shape model of two landmarks: the visibility of the
    frontal view has three rows. *)
Lemma Response_rows_mismatch_witness :
  res_responses short_response = [[]; []; []] /\
  Forall setup_event (res_trace short_response).
Proof.
  apply (Response_rows_mismatch cen_store [[]; []; []] tt pdm2 pose0 [] 3 0
           short_response 0 [column [1; 1; 1]; column [1; 1; 0]]
           (column [1; 1; 1]) short_run);
    [reflexivity | reflexivity | reflexivity | vm_compute; discriminate].
Defined.

(** X18 at the run of the sample CCNF store: three landmarks, three
    lines. *)
Lemma Response_console_output_witness :
  exists view_id vis_lmk,
    GetViewIdx ccnf_store pose0 0 = Ok view_id /\
    Collect_visible_landmarks ccnf_store (visibilities ccnf_store) 0 view_id
      (NumberOfPoints pdm3) = Ok vis_lmk /\
    length (List.filter is_norm_output (res_trace ccnf_response)) =
    match active_representation ccnf_store with
    | CCNF => length vis_lmk
    | _ => 0%nat
    end.
Proof.
  exact (Response_console_output ccnf_store [[]; []; []] tt pdm3 pose0 [] 3 0
           ccnf_response ccnf_run).
Defined.


Lemma Read_console_output_witness :
  [reading "SVR" "svr.txt"; E_cout "Done";
   reading "CEN" "cen.dat"; E_cout "Done"]
  = [] ++ flat_map (announce "SVR") ["svr.txt"]
       ++ flat_map (announce "CCNF") []
       ++ flat_map (announce "CEN") ["cen.dat"].
Proof.
  exact (Read_console_output _ _ _ _ _ _ _ _ cen_read).
Defined.

(** X21 at the sample CCNF file: one window size with one basis matrix. *)
Lemma Read_CCNF_patch_experts_opened_witness :
  exists patches,
    Read_CCNF_patch_experts "ccnf.dat" []
      {| io_centers := []; io_visibility := []; io_patches := [];
         io_scale := S754_zero false |} []
    = Ok ({| io_centers := [Vec3d_zero]; io_visibility := [column [1; 1; 1]];
             io_patches := patches; io_scale := double_of_Z 1 |},
          [[[0; 0; 0; 0; 0; 0; 0; 0; 0]]], [E_cout "Done"]) /\
    length [[[0; 0; 0; 0; 0; 0; 0; 0; 0]]] = 1%nat /\
    Forall (Forall (fun e => exists e0 g,
                      e = (CCNF_Read e0 g [3] [[[0; 0; 0; 0; 0; 0; 0; 0; 0]]]).1))
      patches.
Proof.
  edestruct (Read_CCNF_patch_experts_opened "ccnf.dat" []
               {| io_centers := []; io_visibility := []; io_patches := [];
                  io_scale := S754_zero false |} []) as [_ Hok];
    [reflexivity | vm_compute; reflexivity | vm_compute; reflexivity |].
  destruct Hok as (patches & Hrun & Hlen & Hall);
    [vm_compute; discriminate | vm_compute; discriminate
    | vm_compute; repeat constructor; discriminate |].
  exists patches. split; [exact Hrun | split; [exact Hlen | exact Hall]].
Defined.

(** X22 at the sample CEN store and the shape model of three landmarks. *)
Lemma Response_defined_witness :
  exists r, Response cen_store [[]; []; []] tt pdm3 pose0 [] 3 0 = Ok r.
Proof.
  apply (Response_defined cen_store [[]; []; []] tt pdm3 pose0 [] 3 0 0
           (double_of_Z 1) [column [1; 1; 1]; column [1; 1; 0]]
           (column [1; 1; 1]));
    try reflexivity.
  - change (@NumberOfPoints _ sample pdm3) with 3. intros i Hi.
    assert (i = 0 \/ i = 1 \/ i = 2) as [-> | [-> | ->]] by lia;
      eexists; reflexivity.
  - intros _. unfold INT_MIN, INT_MAX. lia.
  - change (@NumberOfPoints _ sample pdm3) with 3. intros i Hi _.
    unfold landmark_ready, located, size_ok, INT_MIN, INT_MAX.
    assert (i = 0 \/ i = 1 \/ i = 2) as [-> | [-> | ->]] by lia; simpl.
    + repeat split; try lia; try (eexists; reflexivity).
      eexists. split; [reflexivity|]. simpl. repeat split; try lia.
      intros _. exists 0. split; [reflexivity|]. intros Hne. contradiction.
    + repeat split; try lia; try (eexists; reflexivity).
      eexists. split; [reflexivity|]. simpl. repeat split; try lia.
      intros _. exists 2. split; [reflexivity|]. intros _.
      repeat split; try lia; eexists; reflexivity.
    + repeat split; try lia; try (eexists; reflexivity).
      eexists. split; [reflexivity|]. simpl. repeat split; try lia.
      intros Hne. contradiction.
Defined.

(** X23 at the run of the sample CEN store. *)
Lemma Response_sampling_witness :
  (exists ps,
     vec_at (patch_scaling cen_store) 0 = Ok ps /\
     res_sim_img_to_ref cen_response =
       AlignShapesWithScale_f
         (reshape_1_2_t (CalcShape2D pdm3 [] pose0))
         (reshape_1_2_t
            (CalcShape2D pdm3 []
               {| v6_0 := to_float ps; v6_1 := fzero; v6_2 := fzero;
                  v6_3 := fzero; v6_4 := fzero; v6_5 := fzero |}))) /\
  res_sim_ref_to_img cen_response = Matx22f_inv (res_sim_img_to_ref cen_response) /\
  Forall (sampled (m00 (res_sim_ref_to_img cen_response))
            (SFopp (m01 (res_sim_ref_to_img cen_response)))
            (CalcShape2D pdm3 [] pose0) (NumberOfPoints pdm3))
    (res_trace cen_response).
Proof.
  exact (Response_sampling cen_store [[]; []; []] tt pdm3 pose0 [] 3 0
           cen_response cen_run).
Defined.

(** X24 at the sample SVR file: one view of three landmarks. *)
Lemma Read_SVR_patch_experts_opened_witness :
  exists patches,
    Read_SVR_patch_experts "svr.txt"
      {| io_centers := []; io_visibility := []; io_patches := [];
         io_scale := S754_zero false |} []
    = Ok ({| io_centers := [Vec3d_zero]; io_visibility := [column [1; 1; 1]];
             io_patches := patches; io_scale := double_of_Z 1 |},
          [E_cout "Done"]) /\
    length patches = 1%nat /\
    Forall (fun p => Z.of_nat (length p) = 3) patches /\
    Forall (Forall (fun e => exists e0 g, e = (SVR_Read e0 g).1)) patches.
Proof.
  destruct (Read_SVR_patch_experts_opened "svr.txt"
              {| io_centers := []; io_visibility := []; io_patches := [];
                 io_scale := S754_zero false |} [])
    as (_ & _ & H); [reflexivity |].
  edestruct H as [_ Hok]; [vm_compute; reflexivity | vm_compute; reflexivity |].
  destruct Hok as (patches & Hrun & Hlen & Hall & Hread);
    [vm_compute; discriminate |].
  exists patches.
  split; [exact Hrun | split; [exact Hlen | split; [exact Hall | exact Hread]]].
Defined.

End MoreAtSample.

(* ================================================================= *)
(** ** The whole run of [Response], landmark by landmark *)

Section Run.
Context `{Ex : Externals}.

(** A completed [Response] taken apart: the view, the two precomputations,
    the collection, and the loop with everything it reads. *)
Lemma Response_unfold (this : Patch_experts) (responses0 : list MatF)
    (grayscale_image : Image) (pdm : PDM) (params_global : Vec6f)
    (params_local : MatF) (window_size scale : Z) (r : Response_result) :
  Response this responses0 grayscale_image pdm params_global params_local
    window_size scale = Ok r ->
  exists view_id ev_sigma interp_mat ev_interp vis_lmk st,
    GetViewIdx this params_global scale = Ok view_id /\
    precompute_sigmas this (negb (vec_empty (ccnf_expert_intensity this)))
      scale view_id (NumberOfPoints pdm) window_size = Ok (res_this r, ev_sigma) /\
    precompute_interp_mat (negb (vec_empty (cen_expert_intensity this)))
      window_size = Ok (interp_mat, ev_interp) /\
    Collect_visible_landmarks this (visibilities this) scale view_id
      (NumberOfPoints pdm) = Ok vis_lmk /\
    forM vis_lmk
      (Response_body
         {| env_this := res_this r; env_image := grayscale_image;
            env_landmark_locations := CalcShape2D pdm params_local params_global;
            env_n := NumberOfPoints pdm;
            env_a1 := m00 (res_sim_ref_to_img r);
            env_b1 := SFopp (m01 (res_sim_ref_to_img r));
            env_interp_mat := interp_mat;
            env_use_cen := negb (vec_empty (cen_expert_intensity this));
            env_use_ccnf := negb (vec_empty (ccnf_expert_intensity this));
            env_view_id := view_id; env_window_size := window_size;
            env_scale := scale |})
      {| patch_expert_responses := responses0;
         trace := ev_sigma ++ ev_interp |} = Ok st /\
    res_responses r = patch_expert_responses st /\
    res_trace r = trace st.
Proof.
  unfold Response. intros H.
  apply bind_Ok in H as (view_id & Hview & H).
  apply bind_Ok in H as (ps & _ & H).
  apply bind_Ok in H as ([this1 ev_sigma] & Hsig & H).
  apply bind_Ok in H as ([interp_mat ev_interp] & Hint & H).
  apply bind_Ok in H as (vis_lmk & Hvis & H).
  apply bind_Ok in H as (st & Hloop & H).
  injection H as <-. simpl.
  destruct (precompute_sigmas_frame _ _ _ _ _ _ _ _ Hsig) as (Hcen & Hv & _ & _).
  rewrite Hv, (Collect_visible_landmarks_ext this this1 _ _ _ _ Hcen) in Hvis.
  exists view_id, ev_sigma, interp_mat, ev_interp, vis_lmk, st.
  split; [exact Hview|]. split; [exact Hsig|]. split; [exact Hint|].
  split; [exact Hvis|]. split; [exact Hloop|]. split; reflexivity.
Qed.

(** What is done before the loop is setup. *)
Lemma setup_before (this this1 : Patch_experts) (use_ccnf use_cen : bool)
    (scale view_id n window_size : Z) (ev_sigma ev_interp : list event)
    (interp_mat : MatF) :
  precompute_sigmas this use_ccnf scale view_id n window_size
  = Ok (this1, ev_sigma) ->
  precompute_interp_mat use_cen window_size = Ok (interp_mat, ev_interp) ->
  Forall setup_event (ev_sigma ++ ev_interp) /\
  (use_ccnf = false -> ev_sigma = []) /\
  (if use_cen then
     interp_mat = interpolationMatrix MatF_default window_size window_size
                    (window_size + 10) (window_size + 10) /\
     ev_interp = [E_interpolationMatrix window_size window_size
                    (window_size + 10) (window_size + 10)]
   else ev_interp = []).
Proof.
  intros Hsig Hint. split; [|split].
  - apply Forall_app. split.
    + apply precompute_sigmas_spec in Hsig as (_ & _ & Hs).
      eapply Forall_impl; [exact Hs|]. exact sigma_event_setup.
    + apply precompute_interp_mat_spec in Hint.
      destruct use_cen; destruct Hint as [_ ->]; repeat constructor.
  - intros ->. unfold precompute_sigmas in Hsig. injection Hsig as _ <-.
    reflexivity.
  - apply precompute_interp_mat_spec in Hint.
    destruct use_cen; [exact Hint | exact (proj2 Hint)].
Qed.

(** The size of the neighbourhood for a CEN expert. *)
Lemma area_of_interest_size_CEN (env : Response_env) (ind w h : Z)
    (ex : CEN_patch_expert) :
  env_use_cen env = true ->
  at3 (cen_expert_intensity (env_this env)) (env_scale env) (env_view_id env) ind
  = Ok ex ->
  area_of_interest_size env ind = Ok (w, h) ->
  w = env_window_size env + cen_width ex - 1 /\
  h = env_window_size env + cen_height ex - 1.
Proof.
  unfold area_of_interest_size, int_add, int_sub. intros -> -> H. simpl in H.
  apply bind_Ok in H as (w0 & [-> _]%int_of_Ok & H).
  apply bind_Ok in H as (w1 & [-> _]%int_of_Ok & H).
  apply bind_Ok in H as (h0 & [-> _]%int_of_Ok & H).
  apply bind_Ok in H as (h1 & [-> _]%int_of_Ok & H).
  injection H as <- <-. split; reflexivity.
Qed.

Lemma sampling_transform_at (env : Response_env) (ind : Z) (sim : Mat23f) :
  sampling_transform env ind = Ok sim ->
  transform_at (env_a1 env) (env_b1 env) (env_landmark_locations env)
    (env_n env) ind sim.
Proof. exact (sampling_transform_spec env ind sim). Qed.

(** The loop over landmarks with bias vectors at the frontal view of the
    CEN experts is a frontal run. *)
Lemma Response_loop_frontal (this : Patch_experts) (env : Response_env)
    (l : list Z) (st st' : Response_state) :
  cen_expert_intensity (env_this env) = cen_expert_intensity this ->
  mirror_inds (env_this env) = mirror_inds this ->
  cen_expert_intensity this <> [] ->
  env_use_cen env = true ->
  env_view_id env = 0 ->
  (forall i, i ∈ l ->
     exists ex, at3 (cen_expert_intensity this) (env_scale env) 0 i = Ok ex /\
                biases ex <> []) ->
  forM l (Response_body env) st = Ok st' ->
  exists evs, trace st' = trace st ++ evs /\
    frontal_CEN_run this (env_image env) (env_landmark_locations env) (env_n env)
      (env_a1 env) (env_b1 env) (env_interp_mat env) (env_window_size env)
      (env_scale env) l (patch_expert_responses st) (patch_expert_responses st')
      evs.
Proof.
  intros Hcen Hmi Hne Huse Hview. revert st.
  induction l as [|i l IH]; simpl; intros st Hb H.
  - injection H as <-. exists []. rewrite app_nil_r. split; [reflexivity|].
    constructor.
  - apply bind_Ok in H as (st1 & H1 & H).
    destruct (Hb i ltac:(left)) as (ex & Hex & Hbias).
    assert (forall j, j ∈ l ->
              exists ex, at3 (cen_expert_intensity this) (env_scale env) 0 j = Ok ex /\
                         biases ex <> []) as Hb'
      by (intros j Hj; apply Hb; right; exact Hj).
    pose proof H1 as Hbody. unfold Response_body in Hbody.
    apply bind_Ok in Hbody as ([w h] & Hsize & Hbody).
    apply bind_Ok in Hbody as (sim & Hsim & Hbody).
    assert (at3 (cen_expert_intensity (env_this env)) (env_scale env)
              (env_view_id env) i = Ok ex) as Hex'
      by (rewrite Hcen, Hview; exact Hex).
    destruct (area_of_interest_size_CEN env i w h ex Huse Hex' Hsize) as [-> ->].
    unfold dispatch in Hbody. rewrite Hcen in Hbody.
    apply vec_empty_false in Hne. rewrite Hne in Hbody. simpl in Hbody.
    rewrite Hview in Hbody. simpl in Hbody. rewrite Hex in Hbody. simpl in Hbody.
    pose proof Hbias as Hbias'. apply vec_empty_false in Hbias'.
    rewrite Hbias' in Hbody. simpl in Hbody. rewrite Hmi in Hbody.
    apply bind_Ok in Hbody as (mirror_id & Hmirror & Hbody).
    apply sampling_transform_at in Hsim.
    destruct (Z.eqb_spec mirror_id i) as [->|Hmne].
    + apply bind_Ok in Hbody as (r & Hr & Hbody).
      apply bind_Ok in Hbody as (resp1 & [_ ->]%vec_set_Ok & Hbody).
      injection Hbody as <-. simpl in H.
      destruct (IH _ Hb' H) as (evs & Htr & Hrun). simpl in Htr, Hrun.
      eexists. split.
      * rewrite Htr, <- !app_assoc. reflexivity.
      * simpl. eapply frontal_self; eauto.
    + apply bind_Ok in Hbody as (sim_r & Hsim_r & Hbody).
      apply sampling_transform_at in Hsim_r.
      apply bind_Ok in Hbody as (r & Hr & Hbody).
      apply bind_Ok in Hbody as (r_m & Hr_m & Hbody).
      apply bind_Ok in Hbody as (resp1 & [_ ->]%vec_set_Ok & Hbody).
      apply bind_Ok in Hbody as (resp2 & [_ ->]%vec_set_Ok & Hbody).
      injection Hbody as <-. simpl in H.
      destruct (IH _ Hb' H) as (evs & Htr & Hrun). simpl in Htr, Hrun.
      eexists. split.
      * rewrite Htr, <- !app_assoc. reflexivity.
      * simpl. eapply frontal_joint; eauto.
Qed.

(** Membership in the collected list, when the visibility has [n] rows. *)
Lemma Collect_visible_landmarks_iff (this : Patch_experts)
    (visibilities : list (list Mat_int)) (scale view_id n : Z)
    (vs : list Mat_int) (vis : Mat_int) (l : list Z) :
  vec_at visibilities scale = Ok vs ->
  vec_at vs view_id = Ok vis ->
  Mat_rows vis = n ->
  Collect_visible_landmarks this visibilities scale view_id n = Ok l ->
  forall i, i ∈ l <-> 0 <= i < n /\ needs_response this vis scale view_id i.
Proof.
  intros Hvs Hvis Hrows Hrun.
  destruct (Z.le_gt_cases n 0) as [Hn|Hn].
  { unfold Collect_visible_landmarks in Hrun. rewrite for_range_empty in Hrun by lia.
    injection Hrun as <-. intros i. split; [intros Hi; inversion Hi | lia]. }
  enough ((forall y, y ∈ l -> 0 <= y < n) /\
          forall i, i ∈ l <-> 0 <= i < n /\ needs_response this vis scale view_id i)
    as [_ H] by exact H.
  revert Hrun.
  apply (for_range_inv
           (fun k (l : list Z) =>
              (forall y, y ∈ l -> 0 <= y < k) /\
              forall i, i ∈ l <->
                0 <= i < k /\ needs_response this vis scale view_id i)); [lia| |].
  - split; [intros y Hy; inversion Hy|].
    intros i. split; [intros Hi; inversion Hi | lia].
  - intros k l0 l1 Hk [Hrange Hm] Hbody.
    destruct (Collect_body_spec this visibilities scale view_id n k vs vis l0 l1
                Hvs Hvis Hrows Hbody) as [[-> Hneed]|[-> Hneed]]; split.
    + intros y [Hy%Hrange | ->%list_elem_of_singleton]%elem_of_app; lia.
    + intros i. rewrite elem_of_app, Hm, list_elem_of_singleton. split.
      * intros [[Hi Hn']| ->]; [split; [lia|exact Hn'] | split; [lia|exact Hneed]].
      * intros [Hi Hn']. destruct (Z.eq_dec i k) as [->|Hik]; [right; reflexivity|].
        left. split; [lia | exact Hn'].
    + intros y Hy%Hrange. lia.
    + intros i. rewrite Hm. split.
      * intros [Hi Hn']. split; [lia | exact Hn'].
      * intros [Hi Hn']. split; [|exact Hn'].
        destruct (Z.eq_dec i k) as [->|Hik]; [contradiction | lia].
Qed.

(** C1. When a call of [Response] with CEN experts loaded selects the
    frontal view and completes, it has gone through the landmarks
    [Collect_visible_landmarks] returns for that view, in order; when the
    visibility of the view has one row per point of the shape model these
    are the landmarks whose visibility is nonzero and whose own expert
    has bias vectors. After the CCNF precomputation and the one
    interpolation matrix, the calls made and the response vector returned
    are those of a frontal run from the response vector given: a landmark
    that is its own mirror gets one sparse response, which rewrites its
    slot only; any other gets a second neighbourhood, extracted at the
    location of its mirror with the same rotation and scale, and one
    joint call, which rewrites its slot and the slot of its mirror. *)
Theorem Response_frontal_CEN (this : Patch_experts) (responses0 : list MatF)
    (grayscale_image : Image) (pdm : PDM) (params_global : Vec6f)
    (params_local : MatF) (window_size scale : Z) (r : Response_result) :
  Response this responses0 grayscale_image pdm params_global params_local
    window_size scale = Ok r ->
  cen_expert_intensity this <> [] ->
  GetViewIdx this params_global scale = Ok 0 ->
  exists vis_lmk before loop,
    Collect_visible_landmarks this (visibilities this) scale 0
      (NumberOfPoints pdm) = Ok vis_lmk /\
    (forall vs vis,
       vec_at (visibilities this) scale = Ok vs -> vec_at vs 0 = Ok vis ->
       Mat_rows vis = NumberOfPoints pdm ->
       forall i, i ∈ vis_lmk <->
         0 <= i < NumberOfPoints pdm /\
         (exists v, Mat_at vis i 0 = Ok v /\ v <> 0) /\
         exists ex, at3 (cen_expert_intensity this) scale 0 i = Ok ex /\
                    biases ex <> []) /\
    res_trace r =
      before ++ [E_interpolationMatrix window_size window_size
                   (window_size + 10) (window_size + 10)] ++ loop /\
    Forall sigma_event before /\
    frontal_CEN_run this grayscale_image
      (CalcShape2D pdm params_local params_global) (NumberOfPoints pdm)
      (m00 (res_sim_ref_to_img r)) (SFopp (m01 (res_sim_ref_to_img r)))
      (interpolationMatrix MatF_default window_size window_size
         (window_size + 10) (window_size + 10))
      window_size scale vis_lmk responses0 (res_responses r) loop.
Proof.
  intros H Hcen Hview0.
  apply Response_unfold in H
    as (view_id & ev_sigma & interp_mat & ev_interp & vis_lmk & st
        & Hview & Hsig & Hint & Hvis & Hloop & Hresp & Htr).
  assert (view_id = 0) as -> by congruence.
  pose proof (precompute_sigmas_frame _ _ _ _ _ _ _ _ Hsig) as (Hc1 & _ & Hm1 & _).
  pose proof (precompute_sigmas_spec _ _ _ _ _ _ _ _ Hsig) as (_ & _ & Hsg).
  apply precompute_interp_mat_spec in Hint.
  pose proof Hcen as Hcen'. apply vec_empty_false in Hcen'.
  rewrite Hcen' in Hint, Hloop. simpl in Hint, Hloop. destruct Hint as [-> ->].
  match type of Hloop with
  | forM _ (Response_body ?e) ?s = _ =>
      destruct (Response_loop_frontal this e vis_lmk s st Hc1 Hm1 Hcen
                  eq_refl eq_refl) as (loop & Htrace & Hrun);
        [|exact Hloop|]
  end.
  { intros i Hi. simpl.
    exact (Collect_visible_landmarks_biased _ _ _ _ _ _ Hvis i Hi Hcen eq_refl). }
  simpl in Htrace, Hrun.
  exists vis_lmk, ev_sigma, loop.
  split; [exact Hvis|]. split; [|split; [|split]].
  - intros vs vis Hvs Hv0 Hrows i.
    rewrite (Collect_visible_landmarks_iff _ _ _ _ _ _ _ _ Hvs Hv0 Hrows Hvis i).
    unfold needs_response. split.
    + intros (Hi & Hv & [Hnil|[Hnz|[_ Hex]]]); [contradiction | contradiction |].
      auto.
    + intros (Hi & Hv & Hex). split; [exact Hi|]. split; [exact Hv|].
      right. right. split; [reflexivity | exact Hex].
  - rewrite Htr, Htrace, <- app_assoc. reflexivity.
  - exact Hsg.
  - rewrite Hresp. exact Hrun.
Qed.

End Run.

(* ================================================================= *)
(** ** Which representation every landmark is dispatched to *)

Section Dispatched.
Context `{Ex : Externals}.

(** One iteration makes the calls of the representation in use, for its
    own landmark. *)
Lemma Response_body_events (env : Response_env) (ind : Z)
    (st st' : Response_state) :
  Response_body env ind st = Ok st' ->
  (cen_expert_intensity (env_this env) <> [] -> env_view_id env = 0 ->
   exists ex, at3 (cen_expert_intensity (env_this env)) (env_scale env)
                (env_view_id env) ind = Ok ex /\ biases ex <> []) ->
  exists evs, trace st' = trace st ++ evs /\
    landmark_events (active_representation (env_this env)) ind evs.
Proof.
  unfold Response_body. intros H Hb.
  apply bind_Ok in H as ([w h] & _ & H). apply bind_Ok in H as (sim & _ & H).
  unfold dispatch, active_representation in *.
  destruct (vec_empty (cen_expert_intensity (env_this env))) eqn:Hcen; simpl in *.
  - destruct (vec_empty (ccnf_expert_intensity (env_this env))); simpl in *;
      res_inv H; injection H as <-; simpl;
      (eexists; split; [rewrite <- app_assoc; reflexivity|]); simpl; eauto 10.
  - apply vec_empty_false in Hcen.
    destruct (Z.eqb_spec (env_view_id env) 0) as [Hview|Hview].
    + destruct (Hb Hcen Hview) as (ex & Hex & Hbias).
      rewrite Hex in H. simpl in H.
      apply vec_empty_false in Hbias. rewrite Hbias in H. simpl in H.
      res_inv H; injection H as <-; simpl;
        (eexists; split; [rewrite <- app_assoc; reflexivity|]); simpl.
      * left. eauto 10.
      * right. right. eauto 12.
    + res_inv H; injection H as <-; simpl;
        (eexists; split; [rewrite <- app_assoc; reflexivity|]); simpl.
      * left. eauto 10.
      * right. left. eauto 10.
Qed.

Lemma Response_loop_events (env : Response_env) (l : list Z)
    (st st' : Response_state) :
  forM l (Response_body env) st = Ok st' ->
  (forall ind, ind ∈ l ->
     cen_expert_intensity (env_this env) <> [] -> env_view_id env = 0 ->
     exists ex, at3 (cen_expert_intensity (env_this env)) (env_scale env)
                  (env_view_id env) ind = Ok ex /\ biases ex <> []) ->
  exists groups, trace st' = trace st ++ concat groups /\
    Forall2 (landmark_events (active_representation (env_this env))) l groups.
Proof.
  revert st. induction l as [|i l IH]; simpl; intros st H Hb.
  - injection H as <-. exists []. simpl. rewrite app_nil_r.
    split; [reflexivity | constructor].
  - apply bind_Ok in H as (st1 & H1 & H).
    destruct (Response_body_events _ _ _ _ H1 (Hb i ltac:(left)))
      as (evs & Ht1 & Hev).
    destruct (IH st1 H) as (groups & Ht2 & Hall).
    { intros ind Hind. apply Hb. right. exact Hind. }
    exists (evs :: groups). split.
    + simpl. rewrite Ht2, Ht1, <- app_assoc. reflexivity.
    + constructor; assumption.
Qed.

(** C4. After [Read], a call of [Response] that completes has dispatched
    every landmark [Collect_visible_landmarks] returns for the selected
    view, in order, to the representation chosen by which collections are
    non-empty, CEN before CCNF before SVR, and to no other: after the
    setup (the CCNF precomputation, made whenever CCNF experts are
    resident and only then, and the interpolation matrix) the calls are,
    landmark by landmark, an extraction and the response calls of that
    representation for the landmark's slot; the store [Response] leaves
    behind selects the same representation, so later calls use it as
    well. [Read] with a non-empty list
    of CEN paths makes that representation CEN, whatever SVR and CCNF
    data is resident; with CCNF paths and no CEN expert it is CCNF, and
    with neither it is SVR. *)
Theorem representation_priority (this this' : Patch_experts)
    (svr ccnf cen : list string) (early : string) (out out' : list event)
    (responses0 : list MatF) (grayscale_image : Image) (pdm : PDM)
    (params_global : Vec6f) (params_local : MatF) (window_size scale : Z)
    (r : Response_result) :
  Read this svr ccnf cen early out = Ok (this', out') ->
  Response this' responses0 grayscale_image pdm params_global params_local
    window_size scale = Ok r ->
  (exists view_id vis_lmk before groups,
     GetViewIdx this' params_global scale = Ok view_id /\
     Collect_visible_landmarks this' (visibilities this') scale view_id
       (NumberOfPoints pdm) = Ok vis_lmk /\
     res_trace r = before ++ concat groups /\
     Forall setup_event before /\
     (ccnf_expert_intensity this' = [] -> Forall (fun e => ~ sigma_event e) before) /\
     Forall2 (landmark_events (active_representation this')) vis_lmk groups) /\
  (forall e k, e ∈ res_trace r -> event_representation e = Some k ->
     k = active_representation this') /\
  active_representation (res_this r) = active_representation this' /\
  (cen <> [] -> active_representation this' = CEN) /\
  (cen = [] -> cen_expert_intensity this = [] -> ccnf <> [] ->
     active_representation this' = CCNF) /\
  (cen = [] -> cen_expert_intensity this = [] ->
   ccnf = [] -> ccnf_expert_intensity this = [] ->
     active_representation this' = SVR).
Proof.
  intros Hread Hresp. split; [|split; [|split]].
  - apply Response_unfold in Hresp
      as (view_id & ev_sigma & interp_mat & ev_interp & vis_lmk & st
          & Hview & Hsig & Hint & Hvis & Hloop & _ & Htr).
    destruct (setup_before _ _ _ _ _ _ _ _ _ _ _ Hsig Hint) as (Hsetup & Hnosig & Hi).
    pose proof (precompute_sigmas_spec _ _ _ _ _ _ _ _ Hsig) as (Hc1 & Hcc1 & _).
    apply Response_loop_events in Hloop as (groups & Htrace & Hall).
    + simpl in Htrace, Hall.
      exists view_id, vis_lmk, (ev_sigma ++ ev_interp), groups.
      split; [exact Hview|]. split; [exact Hvis|].
      split; [rewrite Htr; exact Htrace|]. split; [exact Hsetup|]. split.
      * intros Hnil. rewrite Hnosig by (rewrite Hnil; reflexivity). simpl.
        destruct (negb (vec_empty (cen_expert_intensity this')));
          [destruct Hi as [_ ->] | rewrite Hi]; repeat constructor.
        intros Hs. exact Hs.
      * replace (active_representation this')
          with (active_representation (res_this r)); [exact Hall|].
        unfold active_representation. rewrite Hc1, Hcc1. reflexivity.
    + intros ind Hind Hcen Hv0. simpl in *. rewrite Hc1.
      rewrite Hc1 in Hcen.
      exact (Collect_visible_landmarks_biased _ _ _ _ _ _ Hvis ind Hind Hcen Hv0).
  - intros e k. eapply Response_dispatch_active. exact Hresp.
  - apply Response_unfold in Hresp
      as (view_id & ev_sigma & interp_mat & ev_interp & vis_lmk & st
          & _ & Hsig & _).
    pose proof (precompute_sigmas_spec _ _ _ _ _ _ _ _ Hsig) as (Hc1 & Hcc1 & _).
    unfold active_representation. rewrite Hc1, Hcc1. reflexivity.
  - exact (Read_active_representation _ _ _ _ _ _ _ _ Hread).
Qed.

End Dispatched.

(* ================================================================= *)
(** ** The whole call at the sample CEN store *)

Section RunAtSample.
Import Sample.

(** C1 at the run of the sample CEN store over the three landmarks of
    [pdm3]: the frontal view is selected and CEN experts are loaded. *)
Lemma Response_frontal_CEN_witness :
  exists vis_lmk before loop,
    Collect_visible_landmarks cen_store (visibilities cen_store) 0 0
      (NumberOfPoints pdm3) = Ok vis_lmk /\
    (forall vs vis, vec_at (visibilities cen_store) 0 = Ok vs ->
       vec_at vs 0 = Ok vis ->
       Mat_rows vis = NumberOfPoints pdm3 ->
       forall i, i ∈ vis_lmk <-> 0 <= i < NumberOfPoints pdm3 /\
         (exists v, Mat_at vis i 0 = Ok v /\ v <> 0) /\
         exists ex, at3 (cen_expert_intensity cen_store) 0 0 i = Ok ex /\
                    biases ex <> []) /\
    res_trace cen_response
    = before ++ [E_interpolationMatrix 3 3 (3 + 10) (3 + 10)] ++ loop /\
    Forall sigma_event before /\
    frontal_CEN_run cen_store tt (CalcShape2D pdm3 [] pose0) (NumberOfPoints pdm3)
      (m00 (res_sim_ref_to_img cen_response))
      (SFopp (m01 (res_sim_ref_to_img cen_response)))
      (interpolationMatrix MatF_default 3 3 (3 + 10) (3 + 10))
      3 0 vis_lmk [[]; []; []] (res_responses cen_response) loop.
Proof.
  apply (Response_frontal_CEN cen_store [[]; []; []] tt pdm3 pose0 [] 3 0
           cen_response);
    [exact cen_run | discriminate | reflexivity].
Defined.

(** C4 at the sample files: an SVR path and a CEN path are read into the
    empty store, and the run over [pdm3] follows. *)
Lemma representation_priority_witness :
  (exists view_id vis_lmk before groups,
     GetViewIdx cen_store pose0 0 = Ok view_id /\
     Collect_visible_landmarks cen_store (visibilities cen_store) 0 view_id
       (NumberOfPoints pdm3) = Ok vis_lmk /\
     res_trace cen_response = before ++ concat groups /\
     Forall setup_event before /\
     (ccnf_expert_intensity cen_store = [] ->
      Forall (fun e => ~ sigma_event e) before) /\
     Forall2 (landmark_events (active_representation cen_store)) vis_lmk groups) /\
  (forall e k, e ∈ res_trace cen_response -> event_representation e = Some k ->
     k = active_representation cen_store) /\
  active_representation (res_this cen_response) = active_representation cen_store /\
  (["cen.dat"] <> [] -> active_representation cen_store = CEN) /\
  (["cen.dat"] = [] -> cen_expert_intensity empty_store = [] ->
   @nil string <> [] -> active_representation cen_store = CCNF) /\
  (["cen.dat"] = [] -> cen_expert_intensity empty_store = [] ->
   @nil string = [] -> ccnf_expert_intensity empty_store = [] ->
     active_representation cen_store = SVR).
Proof.
  apply (representation_priority empty_store cen_store ["svr.txt"] [] ["cen.dat"]
           "early.txt" []
           [reading "SVR" "svr.txt"; E_cout "Done";
            reading "CEN" "cen.dat"; E_cout "Done"]
           [[]; []; []] tt pdm3 pose0 [] 3 0 cen_response);
    [exact cen_read | exact cen_run].
Defined.

End RunAtSample.
